(** * Spiking-network playback: snapshots, activity detection, layout, loading

    A shallow embedding of the Python visualisation scripts
    ([visualize_network.py], [animate_3d_spiking.py], [animate_training.py],
    [visualize_3d.py]) and the properties their specification states.

    Conventions of the embedding.
    - A decoded JSON object is a record of optional fields: a field that is
      [None] is a key the dictionary does not have, and subscripting it
      raises [KeyError], as [d['key']] does; [d.get('key', dflt)] is
      [default].
    - Neuron ids are strings; potentials and weights (JSON numbers) are
      binary64 floats, the kernel's primitive floats, so that
      [0.9 - 0.1 > 0.01] is evaluated the way Python evaluates it;
      [spiked] is a boolean and counts are integers.
    - A Python [set] is a [gset], a [dict] used as a map is a [gmap].
    - Code that can raise returns a [result]; methods that also mutate the
      object thread the object explicitly. *)

From Stdlib Require Import ZArith List Floats Lia.
From Stdlib Require Import Sorting.Sorted Sorting.Permutation.
From stdpp Require Import base gmap strings pretty list fin_maps fin_sets.

Set Warnings "-inexact-float".
Local Open Scope Z_scope.

(** ** Exceptions and the error monad *)

Inductive exn : Type :=
| KeyError (key : string)
| ValueError (msg : string)
| IndexError
| ZeroDivisionError
| OSError (path : string)
| RenderError.

Inductive result (A : Type) : Type :=
| Ok (a : A)
| Raise (e : exn).
Arguments Ok {A} a.
Arguments Raise {A} e.

Definition bind {A B} (m : result A) (k : A -> result B) : result B :=
  match m with
  | Ok a => k a
  | Raise e => Raise e
  end.

Notation "x <- m ;; k" := (bind m (fun x => k))
  (at level 100, m at next level, right associativity).


(** [for x in l: body] over an accumulator that the body may fail to
    produce: the first exception ends the loop. *)
Fixpoint for_each {A S} (body : S -> A -> result S) (s : S) (l : list A)
  : result S :=
  match l with
  | [] => Ok s
  | x :: l' => s' <- body s x ;; for_each body s' l'
  end.

(** [[f(x) for x in l]], or a loop that appends [f(x)] to a list that is
    lost when [f] raises. *)
Fixpoint map_result {A B} (f : A -> result B) (l : list A) : result (list B) :=
  match l with
  | [] => Ok []
  | x :: l' => y <- f x ;; ys <- map_result f l' ;; Ok (y :: ys)
  end.

(** [list.sort(key=..)]: a stable sort, here by insertion. [le x y] is
    [key(x) <= key(y)]; an element goes before the elements that follow
    it in the input and are not smaller. *)
Fixpoint insert_by {A} (le : A -> A -> bool) (x : A) (l : list A) : list A :=
  match l with
  | [] => [x]
  | y :: l' => if le x y then x :: l else y :: insert_by le x l'
  end.

Fixpoint sort_by {A} (le : A -> A -> bool) (l : list A) : list A :=
  match l with
  | [] => []
  | x :: l' => insert_by le x (sort_by le l')
  end.

(** ** Decoded snapshots *)

Abbreviation Id := string (only parsing).
Abbreviation Edge := (string * string)%type (only parsing).

Record Conn : Type := mkConn {
  c_target : option Id;
  c_weight : option float
}.

Record Neuron : Type := mkNeuron {
  n_id : option Id;
  n_potential : option float;
  n_spiked : option bool;
  n_spike_count : option Z;
  n_connections : option (list Conn)
}.

(** What [json.load] returns for one frame file. *)
Record Data : Type := mkData {
  d_neurons : option (list Neuron)
}.

(** [d[key]] *)
Definition getitem {A} (field : option A) (key : string) : result A :=
  match field with
  | Some a => Ok a
  | None => Raise (KeyError key)
  end.

(** The contract of the specification's data model, as tests on decoded
    data: every field is supplied, and ids are unique within a snapshot. *)
Definition complete_conn (c : Conn) : bool :=
  match c_target c, c_weight c with
  | Some _, Some _ => true
  | _, _ => false
  end.

Definition complete_neuron (n : Neuron) : bool :=
  match n_id n, n_potential n, n_spiked n, n_spike_count n, n_connections n with
  | Some _, Some _, Some _, Some _, Some cs => forallb complete_conn cs
  | _, _, _, _, _ => false
  end.

Definition complete_data (d : Data) : bool :=
  match d_neurons d with
  | Some ns => forallb complete_neuron ns
  | None => false
  end.

Definition neurons_of (d : Data) : list Neuron := default [] (d_neurons d).

Definition ids (ns : list Neuron) : list Id := omap n_id ns.

Definition unique_ids (d : Data) : Prop := NoDup (ids (neurons_of d)).

(** ** The activity detector ([visualize_network.py]) *)

Module Detector.

(** [{n['id']: n for n in neurons}]: a later entry with the same id
    replaces an earlier one. *)
Definition neuron_map (neurons : list Neuron) : result (gmap Id Neuron) :=
  for_each (fun m n => i <- getitem (n_id n) "id" ;; Ok (<[i := n]> m))
           ∅ neurons.

(** [for conn in neuron['connections']:
       active_edges.add((neuron_id, conn['target']))] *)
Definition mark_outgoing (neuron_id : Id) (active_edges : gset Edge)
    (conns : list Conn) : result (gset Edge) :=
  for_each (fun acc conn =>
              t <- getitem (c_target conn) "target" ;;
              Ok ({[ (neuron_id, t) ]} ∪ acc))
           active_edges conns.

(** The inner loop of the potential rule, for one previous neuron:
    [for conn in prev_neuron_data['connections']:
       if conn['target'] == neuron_id:
         active_edges.add((prev_neuron_data['id'], neuron_id))] *)
Definition mark_incoming (neuron_id : Id) (prev_neuron_data : Neuron)
    (active_edges : gset Edge) (conns : list Conn) : result (gset Edge) :=
  for_each (fun acc conn =>
              t <- getitem (c_target conn) "target" ;;
              if decide (t = neuron_id) then
                src <- getitem (n_id prev_neuron_data) "id" ;;
                Ok ({[ (src, neuron_id) ]} ∪ acc)
              else Ok acc)
           active_edges conns.

(** [for prev_neuron_data in self.previous_data['neurons']:
       if prev_neuron_data['spiked']: ...] *)
Definition mark_senders (neuron_id : Id) (prev_list : list Neuron)
    (active_edges : gset Edge) : result (gset Edge) :=
  for_each (fun acc prev_neuron_data =>
              sp <- getitem (n_spiked prev_neuron_data) "spiked" ;;
              if (sp : bool) then
                conns <- getitem (n_connections prev_neuron_data) "connections" ;;
                mark_incoming neuron_id prev_neuron_data acc conns
              else Ok acc)
           active_edges prev_list.

(** The threshold test [potential_increase > 0.01]. *)
Definition jumped (potential_increase : float) : bool :=
  PrimFloat.ltb 0.01%float potential_increase.

(** The body of the main loop, for one neuron of the current snapshot. *)
Definition visit (prev_list : list Neuron) (prev_neurons : gmap Id Neuron)
    (active_edges : gset Edge) (neuron : Neuron) : result (gset Edge) :=
  neuron_id <- getitem (n_id neuron) "id" ;;
  match prev_neurons !! neuron_id with
  | None => Ok active_edges
  | Some prev_neuron =>
      sp <- getitem (n_spiked neuron) "spiked" ;;
      acc <- (if (sp : bool) then
                psp <- getitem (n_spiked prev_neuron) "spiked" ;;
                if negb psp then
                  conns <- getitem (n_connections neuron) "connections" ;;
                  mark_outgoing neuron_id active_edges conns
                else Ok active_edges
              else Ok active_edges) ;;
      p <- getitem (n_potential neuron) "potential" ;;
      pp <- getitem (n_potential prev_neuron) "potential" ;;
      let potential_increase := (p - pp)%float in
      if jumped potential_increase then mark_senders neuron_id prev_list acc
      else Ok acc
  end.

(** [_detect_active_connections], as a function of the two fields of the
    visualizer it reads: [self.previous_data] ([None] before the first
    update) and [self.current_data]. *)
Definition _detect_active_connections (previous_data : option Data)
    (current_data : Data) : result (gset Edge) :=
  match previous_data with
  | None => Ok ∅
  | Some prev =>
      prev_list <- getitem (d_neurons prev) "neurons" ;;
      prev_neurons <- neuron_map prev_list ;;
      curr_list <- getitem (d_neurons current_data) "neurons" ;;
      _ <- neuron_map curr_list ;;
      for_each (visit prev_list prev_neurons) ∅ curr_list
  end.



End Detector.

(** ** The directed graph ([networkx.DiGraph]) *)

Module Graph.

(** The attributes [_build_graph] of [visualize_network.py] gives a node. *)
Record NodeAttr : Type := mkAttr {
  a_potential : float;
  a_spiked : bool;
  a_spike_count : Z
}.

(** [nodes] is [G.nodes()] in insertion order; [node_attr] holds the
    attribute dictionary of the nodes that got one (a node created by
    [add_edge] has none); [edge_list] holds each edge once, in the order
    of its first insertion, with its [weight]. *)
Record DiGraph : Type := mkGraph {
  nodes : list Id;
  node_attr : gmap Id NodeAttr;
  edge_list : list (Edge * float)
}.

Definition empty : DiGraph :=
  {| nodes := []; node_attr := ∅; edge_list := [] |}.

Definition touch (n : Id) (ns : list Id) : list Id :=
  if decide (n ∈ ns) then ns else ns ++ [n].

(** [G.add_node(n)] *)
Definition add_node (n : Id) (G : DiGraph) : DiGraph :=
  {| nodes := touch n (nodes G);
     node_attr := node_attr G;
     edge_list := edge_list G |}.

(** [G.add_node(n, potential=.., spiked=.., spike_count=..)] *)
Definition add_node_with (n : Id) (a : NodeAttr) (G : DiGraph) : DiGraph :=
  {| nodes := touch n (nodes G);
     node_attr := <[n := a]> (node_attr G);
     edge_list := edge_list G |}.

Fixpoint set_weight (e : Edge) (w : float) (es : list (Edge * float))
  : list (Edge * float) :=
  match es with
  | [] => [(e, w)]
  | (e', w') :: es' =>
      if decide (e' = e) then (e, w) :: es' else (e', w') :: set_weight e w es'
  end.

(** [G.add_edge(u, v, weight=w)]: both ends become nodes; an edge that
    exists keeps its place and takes the new weight. *)
Definition add_edge (u v : Id) (w : float) (G : DiGraph) : DiGraph :=
  {| nodes := touch v (touch u (nodes G));
     node_attr := node_attr G;
     edge_list := set_weight (u, v) w (edge_list G) |}.

Definition in_degree (G : DiGraph) (n : Id) : nat :=
  length (filter (fun ew => snd (fst ew) = n) (edge_list G)).

Definition out_degree (G : DiGraph) (n : Id) : nat :=
  length (filter (fun ew => fst (fst ew) = n) (edge_list G)).

(** [G.edges()]: by source in node order, then by insertion. *)
Definition edges (G : DiGraph) : list Edge :=
  flat_map (fun n => fst <$> filter (fun ew => fst (fst ew) = n) (edge_list G))
           (nodes G).

Definition has_edge (G : DiGraph) (e : Edge) : bool :=
  bool_decide (e ∈ (fst <$> edge_list G)).

Fixpoint lookup_weight (e : Edge) (es : list (Edge * float)) : option float :=
  match es with
  | [] => None
  | (e', w) :: es' => if decide (e' = e) then Some w else lookup_weight e es'
  end.

(** [G[u][v]['weight']]: [KeyError] on a missing end or edge. *)
Definition weight (G : DiGraph) (e : Edge) : result float :=
  if decide (fst e ∈ nodes G) then getitem (lookup_weight e (edge_list G)) (snd e)
  else Raise (KeyError (fst e)).


End Graph.

(** ** The 2D visualizer ([visualize_network.py]) *)

Module Network.
Import Graph.

(** [min(1.0, max(0.0, potential))], with Python's [min] and [max]: the
    first argument is kept unless the second compares strictly better. *)
Definition py_max (a b : float) : float := if PrimFloat.ltb a b then b else a.
Definition py_min (a b : float) : float := if PrimFloat.ltb b a then b else a.
Definition clamp01 (potential : float) : float :=
  py_min 1.0%float (py_max 0.0%float potential).

(** [_build_graph]: the graph of one snapshot. The spring layout it ends
    with is a library call whose result only the renderer reads. *)
Definition add_nodes (neurons : list Neuron) (G : DiGraph) : result DiGraph :=
  for_each (fun G neuron =>
              i <- getitem (n_id neuron) "id" ;;
              p <- getitem (n_potential neuron) "potential" ;;
              s <- getitem (n_spiked neuron) "spiked" ;;
              k <- getitem (n_spike_count neuron) "spike_count" ;;
              Ok (add_node_with i (mkAttr p s k) G))
           G neurons.

Definition add_edges_of (neuron : Neuron) (G : DiGraph) (conns : list Conn)
  : result DiGraph :=
  for_each (fun G conn =>
              u <- getitem (n_id neuron) "id" ;;
              v <- getitem (c_target conn) "target" ;;
              w <- getitem (c_weight conn) "weight" ;;
              Ok (add_edge u v w G))
           G conns.

Definition add_edges (neurons : list Neuron) (G : DiGraph) : result DiGraph :=
  for_each (fun G neuron =>
              conns <- getitem (n_connections neuron) "connections" ;;
              add_edges_of neuron G conns)
           G neurons.

Definition _build_graph (current_data : Data) : result DiGraph :=
  neurons <- getitem (d_neurons current_data) "neurons" ;;
  G <- add_nodes neurons Graph.empty ;;
  neurons' <- getitem (d_neurons current_data) "neurons" ;;
  add_edges neurons' G.

(** What [draw_network] hands to the drawing library. *)
Inductive color : Type :=
| Red
| Viridis (intensity : float).

Record RenderFrame : Type := mkFrame {
  node_colors : list color;
  node_sizes : list float;
  inactive_edges : list Edge;
  edge_widths_inactive : list float;
  active_edges : list Edge;
  edge_widths_active : list float;
  labels : list (Id * float * Z);
  step_info : option nat
}.

Definition node_style (G : DiGraph) (node_id : Id)
  : result (color * float * (Id * float * Z)) :=
  node_data <- getitem (node_attr G !! node_id) "potential" ;;
  let potential := a_potential node_data in
  let label := (node_id, potential, a_spike_count node_data) in
  if a_spiked node_data then Ok (Red, 800%float, label)
  else
    let intensity := clamp01 potential in
    Ok (Viridis intensity, (300 + intensity * 200)%float, label).

(** The object: the fields the time-series animation reads and writes.
    [self.G] is rebuilt from [self.current_data] by every update and read
    only by the drawing of the same tick, so it is passed as a value. *)
Record NetworkVisualizer : Type := mkVis {
  current_data : Data;
  previous_data : option Data;
  time_steps : list Data;
  connection_activity : gmap Edge Z;
  stdout : list string
}.

Definition set_time_steps (ts : list Data) (self : NetworkVisualizer) :=
  {| current_data := current_data self; previous_data := previous_data self;
     time_steps := ts; connection_activity := connection_activity self;
     stdout := stdout self |}.

Definition set_data (prev : option Data) (cur : Data) (self : NetworkVisualizer) :=
  {| current_data := cur; previous_data := prev;
     time_steps := time_steps self;
     connection_activity := connection_activity self;
     stdout := stdout self |}.

Definition set_activity (c : gmap Edge Z) (self : NetworkVisualizer) :=
  {| current_data := current_data self; previous_data := previous_data self;
     time_steps := time_steps self; connection_activity := c;
     stdout := stdout self |}.

Definition print (line : string) (self : NetworkVisualizer) :=
  {| current_data := current_data self; previous_data := previous_data self;
     time_steps := time_steps self;
     connection_activity := connection_activity self;
     stdout := stdout self ++ [line] |}.

(** [NetworkVisualizer(data=..)]: the counter starts empty; nothing
    else in the class assigns it. *)
Definition __init__ (data : Data) : result NetworkVisualizer :=
  _ <- _build_graph data ;;
  Ok {| current_data := data; previous_data := None; time_steps := [];
        connection_activity := ∅; stdout := [] |}.

(** [self.connection_activity.get(edge, 0)] *)
Definition count_of (self : NetworkVisualizer) (e : Edge) : Z :=
  default 0 (connection_activity self !! e).

(** [str(e)] for the exceptions of this model. *)
Definition str_exn (e : exn) : string :=
  match e with
  | KeyError k => "'" +:+ k +:+ "'"
  | ValueError m => m
  | IndexError => "list index out of range"
  | ZeroDivisionError => "integer modulo by zero"
  | OSError p => p
  | RenderError => "render"
  end.

(** [if edge not in d: d[edge] = 0; d[edge] += 1] *)
Definition bump (edge : Edge) (d : gmap Edge Z) : gmap Edge Z :=
  let d0 := match d !! edge with Some _ => d | None => <[edge := 0]> d end in
  <[edge := default 0 (d0 !! edge) + 1]> d0.

(** [for edge in active: ...] *)
Definition record_activity (active : gset Edge) (d : gmap Edge Z)
  : gmap Edge Z :=
  set_fold bump d active.

Section Rendering.

(** The drawing library ([networkx] drawing on [matplotlib]): it may raise. *)
Variable renderer : RenderFrame -> result unit.

(** [draw_network(step_info=..)]. The calls into the drawing library,
    which the source spreads between the loops, are gathered into the one
    call at the end. *)
Definition draw_network (G : DiGraph) (self : NetworkVisualizer)
    (step : option nat) : result unit :=
  active <- Detector._detect_active_connections (previous_data self)
                                                (current_data self) ;;
  styles <- map_result (node_style G) (nodes G) ;;
  let inactive := filter (fun e => e ∉ active) (edges G) in
  w_inactive <- map_result (fun e => w <- weight G e ;; Ok (w * 2)%float)
                           inactive ;;
  w_active <- map_result (fun e => w <- weight G e ;; Ok (w * 5)%float)
                         (elements active) ;;
  renderer {| node_colors := (fun s => fst (fst s)) <$> styles;
              node_sizes := (fun s => snd (fst s)) <$> styles;
              inactive_edges := inactive;
              edge_widths_inactive := w_inactive;
              active_edges := elements active;
              edge_widths_active := w_active;
              labels := snd <$> styles;
              step_info := step |}.

(** [step_idx = frame % len(self.time_steps) if loop
               else min(frame, len(self.time_steps) - 1)]. With no time
    steps the second form is [-1], and [self.time_steps[-1]] of an empty
    list raises [IndexError], which is what the lookup below gives. *)
Definition step_index (loop : bool) (frame len : nat) : result nat :=
  if loop then
    if decide (len = 0%nat) then Raise ZeroDivisionError
    else Ok (frame mod len)%nat
  else Ok (Nat.min frame (len - 1)).

(** The [try] block of [update_frame]: the object as the block leaves it,
    and whether it raised. *)
Definition update_frame_body (loop : bool) (frame : nat)
    (self : NetworkVisualizer) : NetworkVisualizer * result unit :=
  match step_index loop frame (length (time_steps self)) with
  | Raise e => (self, Raise e)
  | Ok step_idx =>
      let self1 := set_data (Some (current_data self)) (current_data self) self in
      match time_steps self !! step_idx with
      | None => (self1, Raise IndexError)
      | Some data =>
          let self2 := set_data (Some (current_data self)) data self in
          match (G <- _build_graph data ;;
                 _ <- draw_network G self2 (Some step_idx) ;;
                 Detector._detect_active_connections (previous_data self2)
                                                     (current_data self2))
          with
          | Raise e => (self2, Raise e)
          | Ok active =>
              (set_activity (record_activity active (connection_activity self2))
                            self2, Ok tt)
          end
      end
  end.

(** [update_frame]: the [except] clause prints and swallows. *)
Definition update_frame (loop : bool) (frame : nat) (self : NetworkVisualizer)
  : NetworkVisualizer :=
  match update_frame_body loop frame self with
  | (self', Ok _) => self'
  | (self', Raise e) => print ("Error updating frame: " +:+ str_exn e) self'
  end.

(** The set-up of [animate_time_series] before the first tick. *)
Definition animate_time_series_init (self : NetworkVisualizer)
  : result NetworkVisualizer :=
  match time_steps self with
  | [] => Raise (ValueError "No time steps loaded. Use load_time_series() first.")
  | first :: _ =>
      _ <- _build_graph first ;;
      Ok (set_data None first self)
  end.

(** The object after ticks [0 .. n-1], in order. *)
Fixpoint play (loop : bool) (n : nat) (self : NetworkVisualizer)
  : NetworkVisualizer :=
  match n with
  | O => self
  | S k => update_frame loop k (play loop k self)
  end.

End Rendering.

End Network.

(** ** Loading a frame sequence *)

Module Loader.

(** The file system and the library calls of the loaders. The regular
    expressions are fixed in the source except for the step pattern, which
    is built from the base file name; each field stands for the call named
    in its comment. *)
Record World : Type := mkWorld {
  (** [os.path.dirname] *)
  dirname : string -> string;
  (** [os.path.exists] *)
  path_exists : string -> bool;
  (** [os.path.join] *)
  path_join : string -> string -> string;
  (** [os.listdir] *)
  listdir : string -> result (list string);
  (** [glob.glob] *)
  glob : string -> list string;
  (** [with open(path) as f: json.load(f)] *)
  json_load : string -> result Data;
  (** [re.search(r'(.+)_step\d+\.json$', s)], its group 1 *)
  search_step_prefix : string -> option string;
  (** [s.replace('.json', '')] *)
  strip_json : string -> string;
  (** [re.match(pattern, filename)], [int] of its group 1 *)
  match_step : string -> string -> option Z;
  (** [re.search(r'training_epoch(\d+)_test_digit(\d+)_step(\d+)\.json', s)],
      [int] of its groups *)
  search_training : string -> option (Z * Z * Z);
  (** [re.search(r'training_epoch(\d+)_digit(\d+)_step(\d+)\.json', s)] *)
  search_training_alt : string -> option (Z * Z * Z)
}.

Section Loaders.
Variable w : World.

(** The pattern both step loaders build from the base file name. *)
Definition step_pattern (base_filename : string) : string :=
  let base_path :=
    match search_step_prefix w base_filename with
    | Some g => g
    | None => strip_json w base_filename
    end in
  base_path +:+ "_step(\d+)\.json".

(** [dirname(f) if dirname(f) else '.'] *)
Definition dir_or_dot (base_filename : string) : string :=
  if decide (dirname w base_filename = EmptyString) then "." else dirname w base_filename.

(** The loop over the directory listing. *)
Definition matching_files (pattern dir_path : string) (names : list string)
  : list (Z * string) :=
  omap (fun filename =>
          match match_step w pattern filename with
          | Some step_num => Some (step_num, path_join w dir_path filename)
          | None => None
          end) names.

Definition step_le (a b : Z * string) : bool := fst a <=? fst b.

Definition no_step_files (pattern : string) : exn :=
  ValueError ("No time step files found matching pattern: " +:+ pattern).

(** *** [Spike3DAnimator._load_time_series] ([animate_3d_spiking.py]) *)

(** The directory the loader lists: ['.'] when the first choice does not
    exist. *)
Definition search_dir_3d (base_filename : string) : string :=
  let dir_path := dir_or_dot base_filename in
  if path_exists w dir_path then dir_path else ".".

(** The sorted [step_files] of the loader. *)
Definition step_files_3d (base_filename : string) : result (list (Z * string)) :=
  let pattern := step_pattern base_filename in
  let dir_path := search_dir_3d base_filename in
  names <- listdir w dir_path ;;
  Ok (sort_by step_le (matching_files pattern dir_path names)).

(** The loader; its value is [self.time_steps]. It runs in the
    constructor, so when it raises there is no object. *)
Definition _load_time_series (base_filename : string) : result (list Data) :=
  step_files <- step_files_3d base_filename ;;
  match step_files with
  | [] => Raise (no_step_files (step_pattern base_filename))
  | _ :: _ => map_result (fun sf => json_load w (snd sf)) step_files
  end.

(** *** [NetworkVisualizer.load_time_series] ([visualize_network.py]) *)

(** [l[:n]] *)
Definition slice_to {A} (n : Z) (l : list A) : list A :=
  if 0 <=? n then take (Z.to_nat n) l
  else take (Z.to_nat (Z.of_nat (length l) + n)) l.

Definition step_files_2d (base_filename : string) (num_steps : option Z)
  : result (list (Z * string)) :=
  let pattern := step_pattern base_filename in
  let dir_path := dir_or_dot base_filename in
  names <- listdir w dir_path ;;
  let step_files := sort_by step_le (matching_files pattern dir_path names) in
  Ok (match num_steps with
      | Some n => if decide (n = 0) then step_files else slice_to n step_files
      | None => step_files
      end).

(** The loop that appends to [self.time_steps]: what was appended, and
    the exception that stopped it, if one did. *)
Fixpoint load_into (loaded : list Data) (files : list (Z * string))
  : list Data * option exn :=
  match files with
  | [] => (loaded, None)
  | sf :: files' =>
      match json_load w (snd sf) with
      | Ok d => load_into (loaded ++ [d]) files'
      | Raise e => (loaded, Some e)
      end
  end.

(** The method: the object it leaves, and the count it returns or the
    exception it raises. *)
Definition load_time_series (base_filename : string) (num_steps : option Z)
    (self : Network.NetworkVisualizer)
  : Network.NetworkVisualizer * result nat :=
  match step_files_2d base_filename num_steps with
  | Raise e => (self, Raise e)
  | Ok step_files =>
      match load_into [] step_files with
      | (loaded, Some e) => (Network.set_time_steps loaded self, Raise e)
      | (loaded, None) =>
          let self' := Network.set_time_steps loaded self in
          match loaded with
          | [] => (self', Raise (no_step_files (step_pattern base_filename)))
          | _ :: _ =>
              (Network.print ("Loaded " +:+ pretty (length loaded)
                                        +:+ " time steps") self',
               Ok (length loaded))
          end
      end
  end.

(** *** [TrainingAnimator._load_training_frames] ([animate_training.py]) *)

Record FrameInfo : Type := mkInfo {
  epoch : Z;
  digit : Z;
  step : Z;
  file : string
}.

Definition training_glob : string := "training_epoch*_test_digit*_step*.json".

(** [glob("data/json/..")], and the current directory when that is empty. *)
Definition default_training_files : list string :=
  match glob w ("data/json/" +:+ training_glob) with
  | [] => glob w training_glob
  | fs => fs
  end.

(** The base file name the loader settles on; [None] is the
    [ValueError] for a name no pattern matches. *)
Definition training_base (base_filename : string) : result string :=
  match search_training w base_filename with
  | Some _ => Ok base_filename
  | None =>
      match search_training_alt w base_filename with
      | Some _ => Ok base_filename
      | None =>
          let base' := match default_training_files with
                       | [] => base_filename
                       | f :: _ => f
                       end in
          match default_training_files with
          | f :: _ =>
              match search_training w f with
              | Some _ => Ok f
              | None => Raise (ValueError
                  ("Could not parse training file pattern from: " +:+ base'))
              end
          | [] => Raise (ValueError
                  ("Could not parse training file pattern from: " +:+ base'))
          end
      end
  end.

Definition parsed_files (training_files : list string) : list (Z * Z * Z * string) :=
  omap (fun f => match search_training w f with
                 | Some k => Some (k, f)
                 | None => None
                 end) training_files.

(** [(e1, d1, s1) <= (e2, d2, s2)] on tuples of integers. *)
Definition key3_le (a b : Z * Z * Z) : bool :=
  let '(e1, d1, s1) := a in
  let '(e2, d2, s2) := b in
  if e1 <? e2 then true
  else if e2 <? e1 then false
  else if d1 <? d2 then true
  else if d2 <? d1 then false
  else s1 <=? s2.

(** Lexicographic order on the key tuple, as the specification words it:
    the first component that differs decides. *)
Definition lex_le (a b : Z * Z * Z) : Prop :=
  fst (fst a) < fst (fst b)
  \/ (fst (fst a) = fst (fst b)
      /\ (snd (fst a) < snd (fst b)
          \/ (snd (fst a) = snd (fst b) /\ snd a <= snd b))).

Definition training_le (a b : Z * Z * Z * string) : bool :=
  key3_le (fst a) (fst b).

(** The files the loader globs, once the base name is settled. *)
Definition training_files (base : string) : list string :=
  let dir_path := dir_or_dot base in
  if decide (dir_path = ".") then default_training_files
  else glob w (path_join w dir_path training_glob).

Definition sorted_training_files (base_filename : string)
  : result (list (Z * Z * Z * string)) :=
  base <- training_base base_filename ;;
  Ok (sort_by training_le (parsed_files (training_files base))).

Definition info_of (pf : Z * Z * Z * string) : FrameInfo :=
  let '(e, d, s, f) := pf in
  {| epoch := e; digit := d; step := s; file := f |}.

(** The loader; its value is [(self.time_steps, self.frame_info)]. *)
Definition _load_training_frames (base_filename : string)
  : result (list Data * list FrameInfo) :=
  files <- sorted_training_files base_filename ;;
  match files with
  | [] => Raise (ValueError "No training frame files found")
  | _ :: _ =>
      frames <- map_result (fun pf => json_load w (snd pf)) files ;;
      Ok (frames, info_of <$> files)
  end.

End Loaders.

End Loader.

(** ** The layered 3D layout and the 3D animator *)

Module Layered.
Import Graph.

Definition position : Type := float * float * float.

(** A list index as a float, as in [i * 0.6]: exact below [2^53]. *)
Definition float_of_nat (i : nat) : float :=
  PrimFloat.of_uint63 (Uint63.of_Z (Z.of_nat i)).

(** [np.pi] *)
Definition np_pi : float := 3.141592653589793%float.

Definition input_nodes (G : DiGraph) : list Id :=
  filter (fun n => in_degree G n = 0%nat) (nodes G).

Definition output_nodes (G : DiGraph) : list Id :=
  filter (fun n => out_degree G n = 0%nat) (nodes G).

Definition hidden_nodes (G : DiGraph) : list Id :=
  filter (fun n => (n ∉ input_nodes G) /\ (n ∉ output_nodes G)) (nodes G).

(** [for i, node_id in enumerate(ns): pos_3d[node_id] = at(i)], counting
    from [i]. *)
Fixpoint place_from (at_ : nat -> position) (i : nat) (ns : list Id)
    (pos_3d : gmap Id position) : gmap Id position :=
  match ns with
  | [] => pos_3d
  | node_id :: ns' => place_from at_ (S i) ns' (<[node_id := at_ i]> pos_3d)
  end.

Definition input_position (i : nat) : position :=
  ((-2.0 + float_of_nat (i mod 7) * 0.6)%float,
   (-1.0 + float_of_nat (i / 7) * 0.6)%float,
   0%float).

Definition output_position (i : nat) : position :=
  ((-1.5 + float_of_nat i * 0.3)%float, 2.0%float, 2%float).

Section Trigonometry.

(** [np.cos] and [np.sin] *)
Variables np_cos np_sin : float -> float.

Definition hidden_position (count i : nat) : position :=
  let angle := (((2 * np_pi) * float_of_nat i) / float_of_nat count)%float in
  let radius := 1.5%float in
  ((radius * np_cos angle)%float, (radius * np_sin angle)%float, 1%float).

(** [_calculate_3d_layout] of the two animators, and the ['layered']
    branch of [Network3DVisualizer._calculate_3d_layout], which is the
    same text: its value is [self.pos_3d]. *)
Definition _calculate_3d_layout (G : DiGraph) : gmap Id position :=
  let pos_3d := place_from input_position 0 (input_nodes G) ∅ in
  let pos_3d :=
    place_from (hidden_position (length (hidden_nodes G))) 0 (hidden_nodes G)
               pos_3d in
  place_from output_position 0 (output_nodes G) pos_3d.

End Trigonometry.

End Layered.

Module Spike3D.
Import Graph.

(** [_build_graph]: the graph of the first time step, nodes without
    attributes. *)
Definition add_nodes (neurons : list Neuron) (G : DiGraph) : result DiGraph :=
  for_each (fun G neuron =>
              i <- getitem (n_id neuron) "id" ;;
              Ok (add_node i G))
           G neurons.

Definition _build_graph (time_steps : list Data) : result DiGraph :=
  match time_steps with
  | [] => Raise IndexError
  | data :: _ =>
      neurons <- getitem (d_neurons data) "neurons" ;;
      G <- add_nodes neurons Graph.empty ;;
      neurons' <- getitem (d_neurons data) "neurons" ;;
      Network.add_edges neurons' G
  end.

(** [_get_neuron_data] *)
Definition _get_neuron_data (time_steps : list Data) (step_idx : nat)
  : result (gmap Id Neuron) :=
  match time_steps !! step_idx with
  | None => Raise IndexError
  | Some data =>
      neurons <- getitem (d_neurons data) "neurons" ;;
      Detector.neuron_map neurons
  end.

(** [neuron_map.get(node_id, {}).get(key, dflt)] *)
Definition get_or {A} (neuron_map : gmap Id Neuron) (node_id : Id)
    (field : Neuron -> option A) (dflt : A) : A :=
  match neuron_map !! node_id with
  | Some neuron_data => default dflt (field neuron_data)
  | None => dflt
  end.

Record NodeMark : Type := mkNode {
  node_pos : Layered.position;
  node_color : Network.color;
  node_size : float
}.

Record EdgeMark : Type := mkEdge {
  edge_from : Layered.position;
  edge_to : Layered.position;
  edge_active : bool;
  edge_width : float
}.

Record Label : Type := mkLabel {
  label_pos : Layered.position;
  label_digit : nat;
  label_spike_count : Z
}.

(** What one call of [_draw_frame] plots. *)
Record Frame : Type := mkFrame {
  node_marks : list NodeMark;
  edge_marks : list EdgeMark;
  output_labels : list Label;
  title_step : nat
}.

Record Spike3DAnimator : Type := mkAnimator {
  time_steps : list Data;
  G : DiGraph;
  pos_3d : gmap Id Layered.position
}.

Definition node_mark (self : Spike3DAnimator) (neuron_map : gmap Id Neuron)
    (node_id : Id) : result NodeMark :=
  let potential := get_or neuron_map node_id n_potential 0.0%float in
  let spiked := get_or neuron_map node_id n_spiked false in
  pos <- getitem (pos_3d self !! node_id) node_id ;;
  if spiked then Ok (mkNode pos Network.Red 300%float)
  else
    let intensity := Network.clamp01 potential in
    Ok (mkNode pos (Network.Viridis intensity) (100 + intensity * 100)%float).

Definition edge_mark (self : Spike3DAnimator) (neuron_map : gmap Id Neuron)
    (e : Edge) : result EdgeMark :=
  pos_u <- getitem (pos_3d self !! fst e) (fst e) ;;
  pos_v <- getitem (pos_3d self !! snd e) (snd e) ;;
  w <- weight (G self) e ;;
  if get_or neuron_map (snd e) n_spiked false
  then Ok (mkEdge pos_u pos_v true (w * 3)%float)
  else Ok (mkEdge pos_u pos_v false (w * 1)%float).

(** [digit = output_nodes.index(node_id)]: the first position of the node. *)
Fixpoint index_of (n : Id) (l : list Id) : nat :=
  match l with
  | [] => 0
  | x :: l' => if decide (x = n) then 0 else S (index_of n l')
  end.

Definition output_label (self : Spike3DAnimator) (neuron_map : gmap Id Neuron)
    (output_nodes : list Id) (node_id : Id) : result Label :=
  pos <- getitem (pos_3d self !! node_id) node_id ;;
  let spike_count := get_or neuron_map node_id n_spike_count 0 in
  Ok (mkLabel pos (index_of node_id output_nodes) spike_count).

(** [_draw_frame] *)
Definition _draw_frame (self : Spike3DAnimator) (step_idx : nat) : result Frame :=
  neuron_map <- _get_neuron_data (time_steps self) step_idx ;;
  ns <- map_result (node_mark self neuron_map) (nodes (G self)) ;;
  es <- map_result (edge_mark self neuron_map) (edges (G self)) ;;
  let output_nodes := Layered.output_nodes (G self) in
  ls <- map_result (output_label self neuron_map output_nodes) output_nodes ;;
  Ok (mkFrame ns es ls step_idx).

Section Animator.
Variable w : Loader.World.
Variables np_cos np_sin : float -> float.

(** [Spike3DAnimator(base_filename)] *)
Definition __init__ (base_filename : string) : result Spike3DAnimator :=
  time_steps <- Loader._load_time_series w base_filename ;;
  G <- _build_graph time_steps ;;
  Ok (mkAnimator time_steps G (Layered._calculate_3d_layout np_cos np_sin G)).

End Animator.

(** [update_frame] of [animate]: nothing catches what it raises. *)
Definition update_frame (loop : bool) (frame : nat) (self : Spike3DAnimator)
  : result Frame :=
  step_idx <- Network.step_index loop frame (length (time_steps self)) ;;
  _draw_frame self step_idx.

End Spike3D.

(** ** What the detector marks *)

Module Marks.
Import Detector.

(** An edge the rising rule marks: its source is a neuron of the current
    snapshot that is spiked, whose entry in the dictionary of the previous
    snapshot is not, and one of its connections goes to the target. *)
Definition rising_edge (prev_neurons : gmap Id Neuron) (curr_list : list Neuron)
    (e : Edge) : Prop :=
  exists u pu cs c,
    u ∈ curr_list /\ n_id u = Some (fst e) /\
    prev_neurons !! fst e = Some pu /\
    n_spiked u = Some true /\ n_spiked pu = Some false /\
    n_connections u = Some cs /\ c ∈ cs /\ c_target c = Some (snd e).

(** An edge the potential rule marks: its target is a neuron of the
    current snapshot whose potential exceeds that of its entry in the
    dictionary by more than the threshold, and its source is a neuron of
    the previous snapshot that was spiked and has a connection to the
    target. *)
Definition jump_edge (prev_list : list Neuron) (prev_neurons : gmap Id Neuron)
    (curr_list : list Neuron) (e : Edge) : Prop :=
  exists v pv p pp w cs c,
    v ∈ curr_list /\ n_id v = Some (snd e) /\
    prev_neurons !! snd e = Some pv /\
    n_potential v = Some p /\ n_potential pv = Some pp /\
    jumped (p - pp)%float = true /\
    w ∈ prev_list /\ n_spiked w = Some true /\ n_id w = Some (fst e) /\
    n_connections w = Some cs /\ c ∈ cs /\ c_target c = Some (snd e).

End Marks.

(** ** What a snapshot wires *)

Module Wiring.
Import Graph.

(** [e] is a connection of the snapshot: some neuron with the id of its
    source lists a connection to its target. *)
Definition connection (neurons : list Neuron) (e : Edge) : Prop :=
  exists n cs c,
    n ∈ neurons /\ n_id n = Some (fst e) /\
    n_connections n = Some cs /\ c ∈ cs /\ c_target c = Some (snd e).

(** The keys of the edge table. *)
Definition keys (G : DiGraph) : list Edge := fst <$> edge_list G.

(** What the builders keep: each node and each edge once, and both ends
    of every edge among the nodes. *)
Definition sound (G : DiGraph) : Prop :=
  NoDup (nodes G) /\ NoDup (keys G)
  /\ forall e, e ∈ keys G -> fst e ∈ nodes G /\ snd e ∈ nodes G.

End Wiring.

(** ** A recording with a fixed wiring *)

Module Recording.

(** Some neuron with id [u] lists a connection to [v]. *)
Definition has_connection (neurons : list Neuron) (u v : Id) : bool :=
  existsb (fun n =>
             bool_decide (n_id n = Some u)
             && existsb (fun c => bool_decide (c_target c = Some v))
                        (default [] (n_connections n)))
          neurons.

(** Every connection of the snapshot goes to a neuron of the snapshot. *)
Definition closed (d : Data) : bool :=
  forallb (fun n =>
             forallb (fun c => match c_target c with
                               | Some t => bool_decide (t ∈ ids (neurons_of d))
                               | None => true
                               end)
                     (default [] (n_connections n)))
          (neurons_of d).

(** Every connection of [prev] is a connection of [d]. *)
Definition wired_within (prev d : Data) : bool :=
  forallb (fun n =>
             match n_id n with
             | Some u =>
                 forallb (fun c => match c_target c with
                                   | Some v => has_connection (neurons_of d) u v
                                   | None => true
                                   end)
                         (default [] (n_connections n))
             | None => true
             end)
          (neurons_of prev).

(** A frame that can follow [prev] in a recording of one network: it
    supplies every field, is closed, and has the connections of [prev]. *)
Definition follows (prev d : Data) : bool :=
  complete_data d && closed d && wired_within prev d.

(** A recording of one network: every frame can follow every frame. *)
Definition steady (time_steps : list Data) : bool :=
  forallb (fun a => forallb (follows a) time_steps) time_steps.

End Recording.


(** ** What the graph of the first frame needs *)

Module FirstFrame.




End FirstFrame.
(** ** [TrainingAnimator] ([animate_training.py]) *)

Module Training.
Import Graph.

Record TrainingAnimator : Type := mkAnimator {
  time_steps : list Data;
  frame_info : list Loader.FrameInfo;
  G : DiGraph;
  pos_3d : gmap Id Layered.position
}.

(** [_build_graph], [_calculate_3d_layout], [_get_neuron_data] and the
    node and edge loops of [_draw_frame] are, line for line, those of
    [animate_3d_spiking.py]; they read these three fields. *)
Definition as_3d (self : TrainingAnimator) : Spike3D.Spike3DAnimator :=
  Spike3D.mkAnimator (time_steps self) (G self) (pos_3d self).

Record Label : Type := mkLabel {
  label_pos : Layered.position;
  label_digit : nat;
  label_spike_count : Z;
  label_highlight : bool
}.

(** What one call of [_draw_frame] plots; the title names the epoch, the
    digit and the step of the frame's [frame_info]. *)
Record Frame : Type := mkFrame {
  node_marks : list Spike3D.NodeMark;
  edge_marks : list Spike3D.EdgeMark;
  output_labels : list Label;
  title_epoch : Z;
  title_digit : Z;
  title_step : Z
}.

(** The label of an output node, highlighted [if digit == info['digit']]. *)
Definition output_label (self : TrainingAnimator) (neuron_map : gmap Id Neuron)
    (info : Loader.FrameInfo) (output_nodes : list Id) (node_id : Id)
  : result Label :=
  pos <- getitem (pos_3d self !! node_id) node_id ;;
  let spike_count := Spike3D.get_or neuron_map node_id n_spike_count 0 in
  let digit := Spike3D.index_of node_id output_nodes in
  Ok (mkLabel pos digit spike_count
              (bool_decide (Z.of_nat digit = Loader.digit info))).

(** [self.frame_info[frame_idx]] *)
Definition info_at (self : TrainingAnimator) (frame_idx : nat)
  : result Loader.FrameInfo :=
  match frame_info self !! frame_idx with
  | Some info => Ok info
  | None => Raise IndexError
  end.

(** [_draw_frame] *)
Definition _draw_frame (self : TrainingAnimator) (frame_idx : nat)
  : result Frame :=
  neuron_map <- Spike3D._get_neuron_data (time_steps self) frame_idx ;;
  info <- info_at self frame_idx ;;
  ns <- map_result (Spike3D.node_mark (as_3d self) neuron_map) (nodes (G self)) ;;
  es <- map_result (Spike3D.edge_mark (as_3d self) neuron_map) (edges (G self)) ;;
  let output_nodes := Layered.output_nodes (G self) in
  ls <- map_result (output_label self neuron_map info output_nodes) output_nodes ;;
  Ok (mkFrame ns es ls (Loader.epoch info) (Loader.digit info) (Loader.step info)).

Section Animator.
Variable w : Loader.World.
Variables np_cos np_sin : float -> float.

(** [TrainingAnimator(base_filename)] *)
Definition __init__ (base_filename : string) : result TrainingAnimator :=
  loaded <- Loader._load_training_frames w base_filename ;;
  G <- Spike3D._build_graph (fst loaded) ;;
  Ok (mkAnimator (fst loaded) (snd loaded) G
                 (Layered._calculate_3d_layout np_cos np_sin G)).

End Animator.

(** [update_frame] of [animate] *)
Definition update_frame (loop : bool) (frame : nat) (self : TrainingAnimator)
  : result Frame :=
  frame_idx <- Network.step_index loop frame (length (time_steps self)) ;;
  _draw_frame self frame_idx.

End Training.
(** ** [Network3DVisualizer] ([visualize_3d.py]) *)

Module Network3D.
Import Graph.

Section Layouts.

(** [nx.spring_layout(G, k=2, iterations=50, seed=42)],
    [np.linspace(start, stop, num, endpoint=..)], [np.cos] and [np.sin] *)
Variable spring_layout : DiGraph -> gmap Id (float * float).
Variable np_linspace : float -> float -> nat -> bool -> list float.
Variables np_cos np_sin : float -> float.

(** [if in_degree[node_id] == 0: z = 0
     elif out_degree[node_id] == 0: z = 2
     else: z = 1] *)
Definition layer_z (G : DiGraph) (node_id : Id) : float :=
  if decide (in_degree G node_id = 0%nat) then 0%float
  else if decide (out_degree G node_id = 0%nat) then 2%float
  else 1%float.

(** [for i, node_id in enumerate(ns): self.pos_3d[node_id] = at(i, node_id)],
    counting from [i], where computing the position can raise. *)
Fixpoint place_each (at_ : nat -> Id -> result Layered.position) (i : nat)
    (ns : list Id) (pos_3d : gmap Id Layered.position)
  : result (gmap Id Layered.position) :=
  match ns with
  | [] => Ok pos_3d
  | node_id :: ns' =>
      pos <- at_ i node_id ;;
      place_each at_ (S i) ns' (<[node_id := pos]> pos_3d)
  end.

(** [xs[i]] of an array *)
Definition item (xs : list float) (i : nat) : result float :=
  match xs !! i with
  | Some x => Ok x
  | None => Raise IndexError
  end.

Definition spring_position (G : DiGraph) (pos_2d : gmap Id (float * float))
    (i : nat) (node_id : Id) : result Layered.position :=
  xy <- getitem (pos_2d !! node_id) node_id ;;
  Ok (fst xy, snd xy, layer_z G node_id).

Definition circular_position (G : DiGraph) (angles : list float)
    (i : nat) (node_id : Id) : result Layered.position :=
  let radius := 2.0%float in
  a <- item angles i ;;
  Ok ((radius * np_cos a)%float, (radius * np_sin a)%float, layer_z G node_id).

Definition spherical_position (phi theta : list float)
    (i : nat) (node_id : Id) : result Layered.position :=
  let radius := 2.0%float in
  p <- item phi i ;;
  t <- item theta i ;;
  Ok (((radius * np_sin p) * np_cos t)%float,
      ((radius * np_sin p) * np_sin t)%float,
      (radius * np_cos p)%float).

(** [_calculate_3d_layout(layout_type)]: its value is what [self.pos_3d]
    is when the call returns. *)
Definition _calculate_3d_layout (layout_type : string) (G : DiGraph)
  : result (gmap Id Layered.position) :=
  let num_nodes := length (nodes G) in
  if decide (layout_type = "spring") then
    place_each (spring_position G (spring_layout G)) 0 (nodes G) ∅
  else if decide (layout_type = "circular") then
    let angles := np_linspace 0%float (2 * Layered.np_pi)%float num_nodes false in
    place_each (circular_position G angles) 0 (nodes G) ∅
  else if decide (layout_type = "layered") then
    Ok (Layered._calculate_3d_layout np_cos np_sin G)
  else if decide (layout_type = "spherical") then
    let phi := np_linspace 0%float Layered.np_pi num_nodes true in
    let theta := np_linspace 0%float (2 * Layered.np_pi)%float num_nodes true in
    place_each (spherical_position phi theta) 0 (nodes G) ∅
  else Raise (ValueError ("Unknown layout type: " +:+ layout_type)).

(** What [draw_3d_network] plots. *)
Record NodeMark : Type := mkNode {
  node_id : Id;
  node_pos : Layered.position;
  node_color : Network.color;
  node_size : float;
  node_potential : float
}.

Record EdgeMark : Type := mkEdge {
  edge_from : Layered.position;
  edge_to : Layered.position;
  edge_grey : float;
  edge_width : float
}.

Record Scene : Type := mkScene {
  node_marks : list NodeMark;
  edge_marks : list EdgeMark;
  labels : list (Id * float)
}.

Definition node_mark (node_size_scale : float) (G : DiGraph)
    (pos_3d : gmap Id Layered.position) (n : Id) : result NodeMark :=
  node_data <- getitem (node_attr G !! n) "potential" ;;
  let potential := a_potential node_data in
  pos <- getitem (pos_3d !! n) n ;;
  if a_spiked node_data
  then Ok (mkNode n pos Network.Red (node_size_scale * 1.5)%float potential)
  else
    let intensity := Network.clamp01 potential in
    Ok (mkNode n pos (Network.Viridis intensity)
               (node_size_scale * (0.5 + intensity))%float potential).

Definition edge_mark (edge_width_scale : float) (G : DiGraph)
    (pos_3d : gmap Id Layered.position) (e : Edge) : result EdgeMark :=
  pos_u <- getitem (pos_3d !! fst e) (fst e) ;;
  pos_v <- getitem (pos_3d !! snd e) (snd e) ;;
  w <- weight G e ;;
  Ok (mkEdge pos_u pos_v (0.3 + w * 0.5)%float (w * edge_width_scale)%float).

(** [max([p[0] for p in node_positions])] of no positions; the text of
    the message is the interpreter's. *)
Definition empty_max : exn := ValueError "max() arg is an empty sequence".

(** [draw_3d_network]: the layout, the node loop, the edge loop, the
    labels, then the axis limits, which take the [max] and [min] of the
    node positions without a guard. *)
Definition draw_3d_network (layout_type : string) (show_labels : bool)
    (node_size_scale edge_width_scale : float) (G : DiGraph) : result Scene :=
  pos_3d <- _calculate_3d_layout layout_type G ;;
  ns <- map_result (node_mark node_size_scale G pos_3d) (nodes G) ;;
  es <- map_result (edge_mark edge_width_scale G pos_3d) (edges G) ;;
  let labels :=
    if show_labels then (fun mk => (node_id mk, node_potential mk)) <$> ns
    else [] in
  match ns with
  | [] => Raise empty_max
  | _ :: _ => Ok (mkScene ns es labels)
  end.

End Layouts.

End Network3D.
(** ** The polling animation and the statistics ([visualize_network.py]) *)

Module Polling.
Import Network.

Section Animate.

(** The file system at the time of the tick, and the drawing library. *)
Variable w : Loader.World.
Variable renderer : RenderFrame -> result unit.

(** The [try] block of [update_frame] of [animate], in its branch
    [if json_file:], which is the one [main] takes: the file is read
    again, [previous_data] takes the old [current_data], [update_data]
    stores the new data and rebuilds the graph, and [draw_network()] is
    called without a step. The object as the block leaves it, and whether
    it raised. *)
Definition update_frame_body (json_file : string) (self : NetworkVisualizer)
  : NetworkVisualizer * result unit :=
  match Loader.json_load w json_file with
  | Raise e => (self, Raise e)
  | Ok new_data =>
      let self1 := set_data (Some (current_data self)) new_data self in
      (self1, G <- _build_graph new_data ;; draw_network renderer G self1 None)
  end.

(** [update_frame]: the [except] clause prints and swallows. *)
Definition update_frame (json_file : string) (self : NetworkVisualizer)
  : NetworkVisualizer :=
  match update_frame_body json_file self with
  | (self', Ok _) => self'
  | (self', Raise e) => print ("Error updating frame: " +:+ str_exn e) self'
  end.

End Animate.

(** The object after one tick per file-system state of [ws], in order. *)
Fixpoint play (renderer : RenderFrame -> result unit) (json_file : string)
    (ws : list Loader.World) (self : NetworkVisualizer) : NetworkVisualizer :=
  match ws with
  | [] => self
  | w :: ws' => play renderer json_file ws' (update_frame w renderer json_file self)
  end.

End Polling.

Module Statistics.
Import Network.

Definition nl : string := String (Ascii.ascii_of_nat 10) EmptyString.

(** [key=lambda x: x[1], reverse=True]: [a] may stand before [b]. *)
Definition count_ge (a b : Edge * Z) : bool := Z.leb (snd b) (snd a).

(** [f"  {from_node} -> {to_node}: {count} activations"] *)
Definition activation_line (item : Edge * Z) : string :=
  "  " +:+ fst (fst item) +:+ " -> " +:+ snd (fst item) +:+ ": "
  +:+ pretty (snd item) +:+ " activations".

(** [sum(self.connection_activity.values())] *)
Definition total (items : list (Edge * Z)) : Z :=
  foldl (fun acc item => acc + snd item) 0 items.

(** [show_connection_statistics]. [items] is
    [self.connection_activity.items()], in the insertion order of the
    dictionary, which the map of the object does not record. *)
Definition show_connection_statistics (items : list (Edge * Z))
    (self : NetworkVisualizer) : NetworkVisualizer :=
  match items with
  | [] => print "No connection activity data available." self
  | _ :: _ =>
      let sorted_connections := sort_by count_ge items in
      let self1 := print (nl +:+ "=== Connection Activity Statistics ===") self in
      let self2 :=
        print (nl +:+ "Most Active Connections (used "
               +:+ pretty (length (time_steps self)) +:+ " time steps):")
              self1 in
      let self3 :=
        foldl (fun s item => print (activation_line item) s) self2
              (take 10 sorted_connections) in
      let self4 :=
        print (nl +:+ "Total unique connections used: "
               +:+ pretty (length items)) self3 in
      print ("Total activations: " +:+ pretty (total items)) self4
  end.

End Statistics.
(** ** Concrete snapshots used by the examples *)

Module Scenario.

Definition conn (t : Id) (w : float) : Conn :=
  {| c_target := Some t; c_weight := Some w |}.

Definition neuron (i : Id) (p : float) (s : bool) (k : Z) (cs : list Conn)
  : Neuron :=
  {| n_id := Some i; n_potential := Some p; n_spiked := Some s;
     n_spike_count := Some k; n_connections := Some cs |}.

Definition frame (ns : list Neuron) : Data := {| d_neurons := Some ns |}.

(** previous [{A: spiked=false, pot=0.1}], current [{A: spiked=true,
    pot=0.9}], edge A->B of weight 0.4 *)
Definition rise_prev : Data :=
  frame [neuron "A" 0.1%float false 0 [conn "B" 0.4%float]].
Definition rise_curr : Data :=
  frame [neuron "A" 0.9%float true 1 [conn "B" 0.4%float]].

(** Two neurons that had spiked both feed [V], whose potential jumps. *)
Definition jump_prev : Data :=
  frame [neuron "W1" 0.2%float true 3 [conn "V" 0.5%float];
         neuron "W2" 0.3%float true 1 [conn "V" 0.7%float];
         neuron "V" 0.1%float false 0 []].
Definition jump_curr : Data :=
  frame [neuron "W1" 0.0%float true 3 [conn "V" 0.5%float];
         neuron "W2" 0.0%float true 1 [conn "V" 0.7%float];
         neuron "V" 0.6%float false 0 []].

(** A and B both recorded; A rises between the two frames. *)
Definition ab_prev : Data :=
  frame [neuron "A" 0.1%float false 0 [conn "B" 0.4%float];
         neuron "B" 0.0%float false 0 []].
Definition ab_curr : Data :=
  frame [neuron "A" 0.9%float true 1 [conn "B" 0.4%float];
         neuron "B" 0.0%float false 0 []].

(** A drawing library that never raises. *)
Definition quiet_renderer (f : Network.RenderFrame) : result unit := Ok tt.

(** The object [main] has after loading the two frames. *)
Definition ab_visualizer : Network.NetworkVisualizer :=
  {| Network.current_data := ab_prev;
     Network.previous_data := None;
     Network.time_steps := [ab_prev; ab_curr];
     Network.connection_activity := ∅;
     Network.stdout := ["Loaded 2 time steps"] |}.

Definition ab_later : Data :=
  frame [neuron "A" 0.2%float false 1 [conn "B" 0.4%float];
         neuron "B" 0.5%float false 0 []].


Fixpoint assoc {A} (k : string) (tbl : list (string * A)) : option A :=
  match tbl with
  | [] => None
  | (k', v) :: tbl' => if decide (k' = k) then Some v else assoc k tbl'
  end.

(** A working directory that holds the files [others] and the step files
    [files] (name, step number, content) of the family [net_step<N>.json]. *)
Definition step_world (others : list string) (files : list (string * (Z * Data)))
  : Loader.World :=
  {| Loader.dirname := fun _ => EmptyString;
     Loader.path_exists := fun _ => true;
     Loader.path_join := fun d f => d +:+ "/" +:+ f;
     Loader.listdir := fun d =>
       if decide (d = ".") then Ok (others ++ (fst <$> files))
       else Raise (OSError d);
     Loader.glob := fun _ => [];
     Loader.json_load := fun p =>
       match assoc p ((fun e => ("./" +:+ fst e, snd (snd e))) <$> files) with
       | Some d => Ok d
       | None => Raise (OSError p)
       end;
     Loader.search_step_prefix := fun s =>
       if decide (s = "net_step0.json") then Some "net" else None;
     Loader.strip_json := fun s => s;
     Loader.match_step := fun pattern f =>
       if decide (pattern = "net_step(\d+)\.json") then fst <$> assoc f files
       else None;
     Loader.search_training := fun _ => None;
     Loader.search_training_alt := fun _ => None |}.

Definition three_steps : Loader.World :=
  step_world ["notes.txt"]
    [("net_step2.json", (2, ab_later)); ("net_step0.json", (0, ab_prev));
     ("net_step1.json", (1, ab_curr))].

Definition no_steps : Loader.World := step_world ["notes.txt"] [].


(** A [data/json] directory of training frames (name, key, content). *)
Definition training_world (files : list (string * (Z * Z * Z * Data)))
  : Loader.World :=
  {| Loader.dirname := fun _ => EmptyString;
     Loader.path_exists := fun _ => true;
     Loader.path_join := fun d f => d +:+ "/" +:+ f;
     Loader.listdir := fun d => Ok (fst <$> files);
     Loader.glob := fun _ => fst <$> files;
     Loader.json_load := fun p =>
       match assoc p files with
       | Some e => Ok (snd e)
       | None => Raise (OSError p)
       end;
     Loader.search_step_prefix := fun _ => None;
     Loader.strip_json := fun s => s;
     Loader.match_step := fun _ _ => None;
     Loader.search_training := fun f => fst <$> assoc f files;
     Loader.search_training_alt := fun _ => None |}.

Definition training_run : Loader.World :=
  training_world
    [("data/json/training_epoch1_test_digit0_step0.json", (1, 0, 0, ab_later));
     ("data/json/training_epoch0_test_digit1_step0.json", (0, 1, 0, ab_curr));
     ("data/json/training_epoch0_test_digit0_step1.json", (0, 0, 1, ab_prev));
     ("data/json/training_epoch0_test_digit0_step0.json", (0, 0, 0, ab_prev))].



(** A -> B -> C: A has in-degree 0, C has out-degree 0, B is hidden. *)
Definition abc : Data :=
  frame [neuron "A" 0.0%float false 0 [conn "B" 0.5%float];
         neuron "B" 0.0%float false 0 [conn "C" 0.5%float];
         neuron "C" 0.0%float false 0 []].

(** One neuron with no connection at all. *)
Definition lone : Data := frame [neuron "A" 0.0%float false 0 []].

(** Stand-ins for [np.cos] and [np.sin] that agree with them at 0. *)
Definition cos_at_zero (x : float) : float := 1%float.
Definition sin_at_zero (x : float) : float := 0%float.

End Scenario.

(** ** Further scenarios *)

Module MoreScenarios.

(** The directory of the three steps, with the file of step 1 unreadable. *)
Definition broken_steps : Loader.World :=
  let w := Scenario.three_steps in
  {| Loader.dirname := Loader.dirname w;
     Loader.path_exists := Loader.path_exists w;
     Loader.path_join := Loader.path_join w;
     Loader.listdir := Loader.listdir w;
     Loader.glob := Loader.glob w;
     Loader.json_load := fun p =>
       if decide (p = "./net_step1.json") then Raise (OSError p)
       else Loader.json_load w p;
     Loader.search_step_prefix := Loader.search_step_prefix w;
     Loader.strip_json := Loader.strip_json w;
     Loader.match_step := Loader.match_step w;
     Loader.search_training := Loader.search_training w;
     Loader.search_training_alt := Loader.search_training_alt w |}.

End MoreScenarios.


(** ** Stand-ins for the layout libraries *)

Module Libraries.

(** A [spring_layout] that puts every node of the graph at the origin. *)
Definition flat_spring (G : Graph.DiGraph) : gmap Id (float * float) :=
  list_to_map ((fun n => (n, (0%float, 0%float))) <$> Graph.nodes G).

(** A [linspace] of the right length that does not space its values. *)
Definition level_linspace (start stop : float) (num : nat) (endpoint : bool)
  : list float :=
  replicate num start.

(** A snapshot whose neuron A is connected to an id that no neuron has. *)
Definition dangling : Data :=
  Scenario.frame
    [Scenario.neuron "A" 0.2%float false 0 [Scenario.conn "Z" 0.4%float]].

(** A snapshot with no neurons. *)
Definition nobody : Data := Scenario.frame [].

(** The object after loading a recording whose second frame has the
    connection to nowhere. *)
Definition dangling_visualizer : Network.NetworkVisualizer :=
  {| Network.current_data := Scenario.ab_prev;
     Network.previous_data := None;
     Network.time_steps := [Scenario.ab_prev; dangling];
     Network.connection_activity := ∅;
     Network.stdout := ["Loaded 2 time steps"] |}.

End Libraries.

(** ** Recordings that go wrong *)

Module Mishaps.

(** A first frame whose neuron has no [connections] entry, followed by
    one that is in order. *)
Definition unwired : Data :=
  {| d_neurons :=
       Some [ {| n_id := Some "A"; n_potential := Some 0.1%float;
                 n_spiked := Some false; n_spike_count := Some 0;
                 n_connections := None |} ] |}.

Definition unwired_steps : Loader.World :=
  Scenario.step_world [] [("net_step0.json", (0, unwired));
                          ("net_step1.json", (1, Scenario.ab_prev))].



(** A is connected to B and to Z, which is not a neuron; A spikes in the
    second frame. *)
Definition az_quiet : Data :=
  Scenario.frame
    [Scenario.neuron "A" 0.1%float false 0
       [Scenario.conn "B" 0.4%float; Scenario.conn "Z" 0.3%float];
     Scenario.neuron "B" 0.0%float false 0 []].
Definition az_spiked : Data :=
  Scenario.frame
    [Scenario.neuron "A" 0.9%float true 1
       [Scenario.conn "B" 0.4%float; Scenario.conn "Z" 0.3%float];
     Scenario.neuron "B" 0.0%float false 0 []].

Definition az_visualizer : Network.NetworkVisualizer :=
  {| Network.current_data := az_quiet;
     Network.previous_data := None;
     Network.time_steps := [az_quiet; az_spiked];
     Network.connection_activity := ∅;
     Network.stdout := ["Loaded 2 time steps"] |}.

(** A drawing library that raises. *)
Definition failing_renderer (f : Network.RenderFrame) : result unit :=
  Raise RenderError.




(** A directory with frames of the family [training_epoch<E>_digit<D>_..]
    only: the globs of the loader, which ask for [test_digit], find
    nothing. *)
Definition alt_only : Loader.World :=
  {| Loader.dirname := fun _ => EmptyString;
     Loader.path_exists := fun _ => true;
     Loader.path_join := fun d f => d +:+ "/" +:+ f;
     Loader.listdir := fun d => Ok ["training_epoch0_digit0_step0.json"];
     Loader.glob := fun _ => [];
     Loader.json_load := fun p => Ok Scenario.ab_prev;
     Loader.search_step_prefix := fun _ => None;
     Loader.strip_json := fun s => s;
     Loader.match_step := fun _ _ => None;
     Loader.search_training := fun _ => None;
     Loader.search_training_alt := fun f =>
       if decide (f = "training_epoch0_digit0_step0.json") then Some (0, 0, 0)
       else None |}.

(** An object whose counter has three connections. *)
Definition counted : Network.NetworkVisualizer :=
  {| Network.current_data := Scenario.ab_prev;
     Network.previous_data := None;
     Network.time_steps := [Scenario.ab_prev; Scenario.ab_curr];
     Network.connection_activity :=
       <[("A", "B") := 2]> (<[("B", "C") := 5]> (<[("C", "A") := 1]> ∅));
     Network.stdout := [] |}.

End Mishaps.

(** * Properties *)

(** ** Loops in the error monad *)

Section ForEach.
Context {A S : Type}.
Implicit Types (body : S -> A -> result S) (l : list A) (s : S).

Lemma bind_ok {X Y} (m : result X) (k : X -> result Y) (y : Y) :
  bind m k = Ok y -> exists x, m = Ok x /\ k x = Ok y.
Proof. destruct m as [x|e]; simpl; [eauto | discriminate]. Qed.

Lemma for_each_app body s l1 l2 :
  for_each body s (l1 ++ l2) = (s1 <- for_each body s l1 ;; for_each body s1 l2).
Proof.
  revert s. induction l1 as [|x l1 IH]; intros s; simpl; [reflexivity|].
  destruct (body s x) as [s'|e]; simpl; [apply IH | reflexivity].
Qed.

(** A property that every step of the loop keeps holds at its end. *)
Lemma for_each_invariant (P : S -> Prop) body l :
  (forall s x s', x ∈ l -> P s -> body s x = Ok s' -> P s') ->
  forall s s', P s -> for_each body s l = Ok s' -> P s'.
Proof.
  induction l as [|x l IH]; intros Hstep s s' Hs Hrun; simpl in Hrun.
  - congruence.
  - apply bind_ok in Hrun as (s1 & Hx & Hrest).
    eapply IH; [| |exact Hrest].
    + intros s0 y s0' Hy. apply Hstep. by right.
    + eapply Hstep; [by left | exact Hs | exact Hx].
Qed.

(** The run of a loop that reaches its end passes through every element. *)
Lemma for_each_passes body l x s s' :
  x ∈ l -> for_each body s l = Ok s' ->
  exists l1 l2 s0 s1, l = l1 ++ x :: l2 /\ for_each body s l1 = Ok s0 /\
                      body s0 x = Ok s1 /\ for_each body s1 l2 = Ok s'.
Proof.
  intros Hin Hrun. apply list_elem_of_split in Hin as (l1 & l2 & ->).
  rewrite for_each_app in Hrun. apply bind_ok in Hrun as (s0 & H0 & Hrun).
  simpl in Hrun. apply bind_ok in Hrun as (s1 & H1 & H2).
  by exists l1, l2, s0, s1.
Qed.

(** A loop none of whose steps raises reaches its end. *)
Lemma for_each_total body l :
  (forall s x, x ∈ l -> exists s', body s x = Ok s') ->
  forall s, exists s', for_each body s l = Ok s'.
Proof.
  induction l as [|x l IH]; intros Hstep s; simpl; [eauto|].
  destruct (Hstep s x) as [s1 ->]; [by left|]. simpl.
  apply IH. intros s0 y Hy. apply Hstep. by right.
Qed.

(** A loop each of whose steps leaves [s] as it is ends in [s]. *)
Lemma for_each_fixed body l s :
  (forall x, x ∈ l -> body s x = Ok s) -> for_each body s l = Ok s.
Proof.
  induction l as [|x l IH]; intros Hstep; simpl; [reflexivity|].
  rewrite Hstep by (by left). simpl. apply IH. intros y Hy. apply Hstep. by right.
Qed.

End ForEach.

(** ** The contract on decoded data *)

Lemma complete_conn_inv c :
  complete_conn c = true -> exists t w, c = mkConn (Some t) (Some w).
Proof.
  destruct c as [[t|] [w|]]; cbn; try discriminate. eauto.
Qed.

Lemma complete_neuron_inv n :
  complete_neuron n = true ->
  exists i p s k cs, n = mkNeuron (Some i) (Some p) (Some s) (Some k) (Some cs)
                     /\ forallb complete_conn cs = true.
Proof.
  destruct n as [[i|] [p|] [s|] [k|] [cs|]]; cbn; try discriminate.
  intros H. by exists i, p, s, k, cs.
Qed.

Lemma complete_data_inv d :
  complete_data d = true ->
  exists ns, d_neurons d = Some ns /\ forallb complete_neuron ns = true.
Proof.
  unfold complete_data. destruct (d_neurons d) as [ns|]; [eauto | discriminate].
Qed.

Lemma forallb_elem {X} (f : X -> bool) (l : list X) (x : X) :
  forallb f l = true -> x ∈ l -> f x = true.
Proof.
  intros H Hx. rewrite forallb_forall in H. apply H. by apply list_elem_of_In.
Qed.

(** ** The activity detector *)

Section DetectorFacts.
Import Detector.

(** *** The dictionary of a snapshot *)

Lemma neuron_map_total ns :
  forallb complete_neuron ns = true -> exists m, neuron_map ns = Ok m.
Proof.
  intros Hc. apply for_each_total. intros m n Hn.
  apply (forallb_elem _ _ _ Hc) in Hn.
  apply complete_neuron_inv in Hn as (i & p & s & k & cs & -> & _).
  simpl. eauto.
Qed.

Lemma insert_run_other (ns : list Neuron) (m m' : gmap string Neuron) (i : string) :
  for_each (fun m n => i <- getitem (n_id n) "id" ;; Ok (<[i := n]> m)) m ns = Ok m' ->
  i ∉ ids ns -> m' !! i = m !! i.
Proof.
  revert m. induction ns as [|n ns IH]; intros m Hrun Hi; simpl in Hrun.
  - congruence.
  - apply bind_ok in Hrun as (m1 & H1 & Hrest).
    apply bind_ok in H1 as (j & Hj & Hm1). injection Hm1 as <-.
    destruct (n_id n) as [j'|] eqn:Hid; simpl in Hj; [|discriminate].
    injection Hj as ->.
    unfold ids in Hi. simpl in Hi. rewrite Hid in Hi. simpl in Hi.
    rewrite (IH _ Hrest).
    + apply lookup_insert_ne. intros ->. apply Hi. by left.
    + intros Hin. apply Hi. by right.
Qed.

Lemma insert_run_lookup (ns : list Neuron) (m m' : gmap string Neuron)
    (n : Neuron) (i : string) :
  for_each (fun m n => i <- getitem (n_id n) "id" ;; Ok (<[i := n]> m)) m ns = Ok m' ->
  NoDup (ids ns) -> n ∈ ns -> n_id n = Some i -> m' !! i = Some n.
Proof.
  revert m. induction ns as [|x ns IH]; intros m Hrun Hnd Hin Hid.
  - by apply elem_of_nil in Hin.
  - simpl in Hrun. apply bind_ok in Hrun as (m1 & H1 & Hrest).
    apply bind_ok in H1 as (j & Hj & Hm1). injection Hm1 as <-.
    destruct (n_id x) as [j'|] eqn:Hx; simpl in Hj; [|discriminate].
    injection Hj as ->.
    unfold ids in Hnd. simpl in Hnd. rewrite Hx in Hnd. simpl in Hnd.
    apply NoDup_cons in Hnd as [Hfresh Hnd].
    apply elem_of_cons in Hin as [->|Hin].
    + assert (j = i) as -> by congruence.
      rewrite (insert_run_other _ _ _ _ Hrest Hfresh). apply lookup_insert_eq.
    + by apply (IH _ Hrest).
Qed.

(** With unique ids the dictionary holds, under each id, the one entry of
    the snapshot that has it. *)
Lemma neuron_map_lookup ns m n i :
  neuron_map ns = Ok m -> NoDup (ids ns) -> n ∈ ns -> n_id n = Some i ->
  m !! i = Some n.
Proof. apply insert_run_lookup. Qed.


(** *** The loops only add edges *)

Lemma mark_outgoing_grows i acc cs S' :
  mark_outgoing i acc cs = Ok S' -> acc ⊆ S'.
Proof.
  intros Hrun.
  eapply (for_each_invariant (fun S0 => acc ⊆ S0)); [| |exact Hrun]; [|set_solver].
  intros S0 c S1 _ Hsub Hstep.
  apply bind_ok in Hstep as (t & _ & Heq). injection Heq as <-. set_solver.
Qed.

Lemma mark_incoming_grows i pn acc cs S' :
  mark_incoming i pn acc cs = Ok S' -> acc ⊆ S'.
Proof.
  intros Hrun.
  eapply (for_each_invariant (fun S0 => acc ⊆ S0)); [| |exact Hrun]; [|set_solver].
  intros S0 c S1 _ Hsub Hstep.
  apply bind_ok in Hstep as (t & _ & Heq).
  destruct (decide (t = i)); [|injection Heq as <-; done].
  apply bind_ok in Heq as (src & _ & Heq). injection Heq as <-. set_solver.
Qed.

Lemma mark_senders_step_grows i acc pn S' :
  (sp <- getitem (n_spiked pn) "spiked" ;;
   if (sp : bool) then
     conns <- getitem (n_connections pn) "connections" ;;
     mark_incoming i pn acc conns
   else Ok acc) = Ok S' -> acc ⊆ S'.
Proof.
  intros Hstep. apply bind_ok in Hstep as (sp & _ & Heq).
  destruct sp; [|injection Heq as <-; done].
  apply bind_ok in Heq as (cs & _ & Heq). by eapply mark_incoming_grows.
Qed.

Lemma mark_senders_grows i pl acc S' :
  mark_senders i pl acc = Ok S' -> acc ⊆ S'.
Proof.
  intros Hrun.
  eapply (for_each_invariant (fun S0 => acc ⊆ S0)); [| |exact Hrun]; [|set_solver].
  intros S0 pn S1 _ Hsub Hstep. apply mark_senders_step_grows in Hstep. set_solver.
Qed.

Lemma visit_grows pl pm acc n S' :
  visit pl pm acc n = Ok S' -> acc ⊆ S'.
Proof.
  unfold visit. intros Hrun.
  apply bind_ok in Hrun as (i & _ & Hrun).
  destruct (pm !! i) as [pn|]; [|injection Hrun as <-; done].
  apply bind_ok in Hrun as (sp & _ & Hrun).
  apply bind_ok in Hrun as (acc1 & Hacc1 & Hrun).
  assert (acc ⊆ acc1) as Hsub1.
  { destruct sp; [|injection Hacc1 as <-; done].
    apply bind_ok in Hacc1 as (psp & _ & Hacc1).
    destruct (negb psp); [|injection Hacc1 as <-; done].
    apply bind_ok in Hacc1 as (cs & _ & Hacc1).
    by eapply mark_outgoing_grows. }
  apply bind_ok in Hrun as (p & _ & Hrun).
  apply bind_ok in Hrun as (pp & _ & Hrun).
  cbv zeta in Hrun.
  destruct (jumped _); [|injection Hrun as <-; done].
  apply mark_senders_grows in Hrun. set_solver.
Qed.

Lemma visit_loop_grows pl pm acc ns S' :
  for_each (visit pl pm) acc ns = Ok S' -> acc ⊆ S'.
Proof.
  intros Hrun.
  eapply (for_each_invariant (fun S0 => acc ⊆ S0)); [| |exact Hrun]; [|set_solver].
  intros S0 n S1 _ Hsub Hstep. apply visit_grows in Hstep. set_solver.
Qed.

(** *** What each loop adds *)

Lemma mark_outgoing_adds i acc cs S' c t :
  mark_outgoing i acc cs = Ok S' -> c ∈ cs -> c_target c = Some t ->
  (i, t) ∈ S'.
Proof.
  intros Hrun Hc Ht.
  destruct (for_each_passes _ _ _ _ _ Hc Hrun)
    as (l1 & l2 & S0 & S1 & _ & _ & Hstep & Hrest).
  rewrite Ht in Hstep. simpl in Hstep. injection Hstep as <-.
  apply mark_outgoing_grows in Hrest. set_solver.
Qed.

Lemma mark_incoming_adds i pn acc cs S' c src :
  mark_incoming i pn acc cs = Ok S' -> c ∈ cs -> c_target c = Some i ->
  n_id pn = Some src -> (src, i) ∈ S'.
Proof.
  intros Hrun Hc Ht Hsrc.
  destruct (for_each_passes _ _ _ _ _ Hc Hrun)
    as (l1 & l2 & S0 & S1 & _ & _ & Hstep & Hrest).
  rewrite Ht in Hstep. simpl in Hstep.
  destruct (decide (i = i)); [|done].
  rewrite Hsrc in Hstep. simpl in Hstep. injection Hstep as <-.
  apply mark_incoming_grows in Hrest. set_solver.
Qed.

Lemma mark_senders_adds i pl acc S' w src cs c :
  mark_senders i pl acc = Ok S' ->
  w ∈ pl -> n_spiked w = Some true -> n_id w = Some src ->
  n_connections w = Some cs -> c ∈ cs -> c_target c = Some i ->
  (src, i) ∈ S'.
Proof.
  intros Hrun Hw Hsp Hsrc Hcs Hc Ht.
  destruct (for_each_passes _ _ _ _ _ Hw Hrun)
    as (l1 & l2 & S0 & S1 & _ & _ & Hstep & Hrest).
  rewrite Hsp, Hcs in Hstep. simpl in Hstep.
  pose proof (mark_incoming_adds _ _ _ _ _ _ _ Hstep Hc Ht Hsrc) as Hin.
  apply mark_senders_grows in Hrest. set_solver.
Qed.

(** *** Totality on data that meets the contract *)

Lemma mark_outgoing_total i acc cs :
  forallb complete_conn cs = true -> exists S', mark_outgoing i acc cs = Ok S'.
Proof.
  intros Hc. apply for_each_total. intros S0 c Hin.
  apply (forallb_elem _ _ _ Hc) in Hin.
  apply complete_conn_inv in Hin as (t & w & ->). simpl. eauto.
Qed.

Lemma mark_incoming_total i pn acc cs :
  forallb complete_conn cs = true -> is_Some (n_id pn) ->
  exists S', mark_incoming i pn acc cs = Ok S'.
Proof.
  intros Hc [src Hsrc]. apply for_each_total. intros S0 c Hin.
  apply (forallb_elem _ _ _ Hc) in Hin.
  apply complete_conn_inv in Hin as (t & w & ->). simpl.
  destruct (decide (t = i)); [|eauto]. rewrite Hsrc. simpl. eauto.
Qed.

Lemma mark_senders_total i pl acc :
  forallb complete_neuron pl = true -> exists S', mark_senders i pl acc = Ok S'.
Proof.
  intros Hc. apply for_each_total. intros S0 pn Hin.
  apply (forallb_elem _ _ _ Hc) in Hin.
  apply complete_neuron_inv in Hin as (j & p & s & k & cs & -> & Hcs). simpl.
  destruct s; [|eauto]. apply mark_incoming_total; [done | by eexists].
Qed.

Lemma visit_total pl pm acc n :
  forallb complete_neuron pl = true ->
  (forall i pn, pm !! i = Some pn -> pn ∈ pl) ->
  complete_neuron n = true ->
  exists S', visit pl pm acc n = Ok S'.
Proof.
  intros Hpl Hpm Hn.
  apply complete_neuron_inv in Hn as (i & p & s & k & cs & -> & Hcs).
  unfold visit. simpl.
  destruct (pm !! i) as [pn|] eqn:Hlk; [|eauto].
  apply Hpm in Hlk. apply (forallb_elem _ _ _ Hpl) in Hlk.
  apply complete_neuron_inv in Hlk as (j & pp & ps & pk & pcs & -> & Hpcs).
  simpl.
  assert (exists acc1,
    (if s then (if negb ps then mark_outgoing i acc cs else Ok acc) else Ok acc)
    = Ok acc1) as [acc1 Hacc1].
  { destruct s; [|eauto]. destruct ps; simpl; [eauto|].
    by apply mark_outgoing_total. }
  destruct s; simpl in *.
  - destruct ps; simpl in *; rewrite Hacc1; simpl;
      (destruct (jumped _); [by apply mark_senders_total | eauto]).
  - rewrite Hacc1; simpl;
      (destruct (jumped _); [by apply mark_senders_total | eauto]).
Qed.

Lemma insert_run_values (ns : list Neuron) (m m' : gmap string Neuron) :
  for_each (fun m n => i <- getitem (n_id n) "id" ;; Ok (<[i := n]> m)) m ns = Ok m' ->
  forall i pn, m' !! i = Some pn -> pn ∈ ns \/ m !! i = Some pn.
Proof.
  revert m. induction ns as [|x ns IH]; intros m Hrun i pn Hlk; simpl in Hrun.
  - injection Hrun as <-. by right.
  - apply bind_ok in Hrun as (m1 & H1 & Hrest).
    apply bind_ok in H1 as (j & Hj & Hm1). injection Hm1 as <-.
    destruct (IH _ Hrest _ _ Hlk) as [Hin|Hlk1].
    + left. by right.
    + destruct (decide (j = i)) as [->|Hne].
      * rewrite lookup_insert_eq in Hlk1. injection Hlk1 as <-. left. by left.
      * rewrite lookup_insert_ne in Hlk1 by done. by right.
Qed.

Lemma neuron_map_values ns m i pn :
  neuron_map ns = Ok m -> m !! i = Some pn -> pn ∈ ns.
Proof.
  intros Hrun Hlk.
  destruct (insert_run_values _ _ _ Hrun _ _ Hlk) as [?|Hempty]; [done|].
  by rewrite lookup_empty in Hempty.
Qed.

(** On two snapshots that supply every field the detector returns a set. *)
Lemma detect_total prev cur :
  complete_data prev = true -> complete_data cur = true ->
  exists S', _detect_active_connections (Some prev) cur = Ok S'.
Proof.
  intros Hp Hc.
  apply complete_data_inv in Hp as (pl & Hpl & Hpc).
  apply complete_data_inv in Hc as (cl & Hcl & Hcc).
  unfold _detect_active_connections. rewrite Hpl, Hcl. simpl.
  destruct (neuron_map_total _ Hpc) as [pm Hpm]. rewrite Hpm. simpl.
  destruct (neuron_map_total _ Hcc) as [cm Hcm]. rewrite Hcm. simpl.
  apply for_each_total. intros S0 n Hn.
  apply visit_total; [done| |by eapply forallb_elem].
  intros i pn Hlk. by eapply neuron_map_values.
Qed.

(** The shape of a successful run. *)
Lemma detect_ok_inv prev cur S' :
  _detect_active_connections (Some prev) cur = Ok S' ->
  exists pl pm cl,
    d_neurons prev = Some pl /\ neuron_map pl = Ok pm /\
    d_neurons cur = Some cl /\ for_each (visit pl pm) ∅ cl = Ok S'.
Proof.
  unfold _detect_active_connections. intros Hrun.
  apply bind_ok in Hrun as (pl & Hpl & Hrun).
  apply bind_ok in Hrun as (pm & Hpm & Hrun).
  apply bind_ok in Hrun as (cl & Hcl & Hrun).
  apply bind_ok in Hrun as (cm & Hcm & Hrun).
  exists pl, pm, cl. repeat split; try done.
  - by destruct (d_neurons prev); simplify_eq/=.
  - by destruct (d_neurons cur); simplify_eq/=.
Qed.

End DetectorFacts.
(** ** Claims about the detector *)

Section DetectorClaims.
Import Detector.

(** Binary64 subtraction of a value from itself never exceeds the
    threshold: it is a zero, or not a number. *)
Lemma no_jump_on_self (x : float) : jumped (x - x)%float = false.
Proof.
  unfold jumped. rewrite ltb_spec, sub_spec.
  destruct (Prim2SF x) as [s|s| |s m e]; try reflexivity.
  - destruct s; reflexivity.
  - destruct s; reflexivity.
  - unfold SF64sub, SFsub. cbv beta iota.
    generalize (IntDef.Z.min e e); intros z.
    generalize (cond_Zopp s (Z.pos (fst (shl_align m e z)))); intros a.
    replace (a - a)%Z with 0%Z by lia.
    reflexivity.
Qed.

Lemma visit_rising pl pm acc u pu i cs c t S' :
  visit pl pm acc u = Ok S' ->
  n_id u = Some i -> pm !! i = Some pu ->
  n_spiked pu = Some false -> n_spiked u = Some true ->
  n_connections u = Some cs -> c ∈ cs -> c_target c = Some t ->
  (i, t) ∈ S'.
Proof.
  unfold visit. intros Hrun Hi Hpu Hpsp Hsp Hcs Hc Ht.
  rewrite Hi in Hrun. simpl in Hrun. rewrite Hpu, Hsp in Hrun. simpl in Hrun.
  rewrite Hpsp, Hcs in Hrun. simpl in Hrun.
  apply bind_ok in Hrun as (acc1 & Hacc1 & Hrun).
  pose proof (mark_outgoing_adds _ _ _ _ _ _ Hacc1 Hc Ht) as Hin.
  apply bind_ok in Hrun as (p & _ & Hrun).
  apply bind_ok in Hrun as (pp & _ & Hrun). cbv zeta in Hrun.
  destruct (jumped _); [|by injection Hrun as <-].
  apply mark_senders_grows in Hrun. set_solver.
Qed.

Lemma visit_jump pl pm acc v pv i p pp w src cs c S' :
  visit pl pm acc v = Ok S' ->
  n_id v = Some i -> pm !! i = Some pv ->
  n_potential v = Some p -> n_potential pv = Some pp ->
  jumped (p - pp)%float = true ->
  w ∈ pl -> n_spiked w = Some true -> n_id w = Some src ->
  n_connections w = Some cs -> c ∈ cs -> c_target c = Some i ->
  (src, i) ∈ S'.
Proof.
  unfold visit. intros Hrun Hi Hpv Hp Hpp Hj Hw Hsp Hsrc Hcs Hc Ht.
  rewrite Hi in Hrun. simpl in Hrun. rewrite Hpv in Hrun.
  apply bind_ok in Hrun as (sp & _ & Hrun).
  apply bind_ok in Hrun as (acc1 & _ & Hrun).
  rewrite Hp, Hpp in Hrun. simpl in Hrun. rewrite Hj in Hrun.
  by eapply mark_senders_adds.
Qed.

(** C9. With no previous snapshot ([self.previous_data is None], the
    first frame of a session) the detector returns the empty set, for
    every current snapshot, whatever it holds. *)
Theorem detect_without_previous (s : Data) :
  _detect_active_connections None s = Ok ∅.
Proof. reflexivity. Qed.

(** C1. Rising-edge rule. On snapshots that meet the contract the
    detector returns a set; whenever it returns a set, a neuron [u] of the
    current snapshot that is present in the previous one with
    [spiked = false] and has [spiked = true] now has every outgoing edge
    [(u, t)] in that set; and in the scenario previous
    [{A: spiked=false, pot=0.1}], current [{A: spiked=true, pot=0.9}],
    single edge A->B, the set is exactly [{(A,B)}]. *)
Theorem rising_edge_rule :
  (forall prev cur, complete_data prev = true -> complete_data cur = true ->
     exists S', _detect_active_connections (Some prev) cur = Ok S')
  /\ (forall prev cur S' u pu i cs c t,
        _detect_active_connections (Some prev) cur = Ok S' ->
        unique_ids prev ->
        u ∈ neurons_of cur -> pu ∈ neurons_of prev ->
        n_id u = Some i -> n_id pu = Some i ->
        n_spiked pu = Some false -> n_spiked u = Some true ->
        n_connections u = Some cs -> c ∈ cs -> c_target c = Some t ->
        (i, t) ∈ S')
  /\ _detect_active_connections (Some Scenario.rise_prev) Scenario.rise_curr
     = Ok {[ ("A", "B") ]}.
Proof.
  split; [exact detect_total|]. split; [|vm_compute; reflexivity].
  intros prev cur S' u pu i cs c t Hrun Hnd Hu Hpu Hi Hpi Hpsp Hsp Hcs Hc Ht.
  apply detect_ok_inv in Hrun as (pl & pm & cl & Hpl & Hpm & Hcl & Hloop).
  unfold unique_ids, neurons_of in *. rewrite Hpl in Hnd, Hpu. rewrite Hcl in Hu.
  simpl in *.
  pose proof (neuron_map_lookup _ _ _ _ Hpm Hnd Hpu Hpi) as Hlk.
  destruct (for_each_passes _ _ _ _ _ Hu Hloop)
    as (l1 & l2 & S0 & S1 & _ & _ & Hstep & Hrest).
  pose proof (visit_rising _ _ _ _ _ _ _ _ _ _ Hstep Hi Hlk Hpsp Hsp Hcs Hc Ht).
  apply visit_loop_grows in Hrest. set_solver.
Qed.

(** The rule at work: A rises between the two frames of the scenario. *)
Lemma rising_edge_rule_witness :
  exists S', _detect_active_connections (Some Scenario.rise_prev)
                                        Scenario.rise_curr = Ok S'
             /\ ("A", "B") ∈ S'.
Proof.
  destruct (proj1 rising_edge_rule Scenario.rise_prev Scenario.rise_curr)
    as [S' HS]; [reflexivity | reflexivity |].
  exists S'. split; [exact HS|].
  apply (proj1 (proj2 rising_edge_rule) Scenario.rise_prev Scenario.rise_curr S'
           (Scenario.neuron "A" 0.9%float true 1 [Scenario.conn "B" 0.4%float])
           (Scenario.neuron "A" 0.1%float false 0 [Scenario.conn "B" 0.4%float])
           "A" [Scenario.conn "B" 0.4%float] (Scenario.conn "B" 0.4%float) "B");
    try reflexivity; try exact HS.
  - vm_compute. apply NoDup_cons. split; [apply not_elem_of_nil | apply NoDup_nil_2].
  - apply list_elem_of_here.
  - apply list_elem_of_here.
  - apply list_elem_of_here.
Defined.

(** C2. Potential-jump rule. Whenever the detector returns a set, for a
    neuron [v] whose potential increased by more than 0.01 (the test
    [potential - previous potential > 0.01] of the code, in binary64) and
    every neuron [w] of the previous snapshot with [spiked = true] and an
    edge to [v], the edge [(w, v)] is in the set; several such [w] are all
    marked, as for W1 and W2 feeding V. *)
Theorem potential_jump_rule :
  (forall prev cur S' v pv i p pp w src cs c,
     _detect_active_connections (Some prev) cur = Ok S' ->
     unique_ids prev ->
     v ∈ neurons_of cur -> pv ∈ neurons_of prev ->
     n_id v = Some i -> n_id pv = Some i ->
     n_potential v = Some p -> n_potential pv = Some pp ->
     PrimFloat.ltb 0.01%float (p - pp)%float = true ->
     w ∈ neurons_of prev -> n_spiked w = Some true -> n_id w = Some src ->
     n_connections w = Some cs -> c ∈ cs -> c_target c = Some i ->
     (src, i) ∈ S')
  /\ _detect_active_connections (Some Scenario.jump_prev) Scenario.jump_curr
     = Ok {[ ("W1", "V"); ("W2", "V") ]}.
Proof.
  split; [|vm_compute; reflexivity].
  intros prev cur S' v pv i p pp w src cs c
         Hrun Hnd Hv Hpv Hi Hpi Hp Hpp Hj Hw Hsp Hsrc Hcs Hc Ht.
  apply detect_ok_inv in Hrun as (pl & pm & cl & Hpl & Hpm & Hcl & Hloop).
  unfold unique_ids, neurons_of in *.
  rewrite Hpl in Hnd, Hpv, Hw. rewrite Hcl in Hv. simpl in *.
  pose proof (neuron_map_lookup _ _ _ _ Hpm Hnd Hpv Hpi) as Hlk.
  destruct (for_each_passes _ _ _ _ _ Hv Hloop)
    as (l1 & l2 & S0 & S1 & _ & _ & Hstep & Hrest).
  pose proof (visit_jump _ _ _ _ _ _ _ _ _ _ _ _ _ Hstep Hi Hlk Hp Hpp Hj
                         Hw Hsp Hsrc Hcs Hc Ht).
  apply visit_loop_grows in Hrest. set_solver.
Qed.

(** The rule at work: V jumps by 0.5 and W2, which had spiked, feeds it. *)
Lemma potential_jump_rule_witness :
  exists S', _detect_active_connections (Some Scenario.jump_prev)
                                        Scenario.jump_curr = Ok S'
             /\ ("W2", "V") ∈ S'.
Proof.
  exists {[ ("W1", "V"); ("W2", "V") ]}.
  split; [exact (proj2 potential_jump_rule)|].
  apply (proj1 potential_jump_rule Scenario.jump_prev Scenario.jump_curr _
           (Scenario.neuron "V" 0.6%float false 0 [])
           (Scenario.neuron "V" 0.1%float false 0 [])
           "V" 0.6%float 0.1%float
           (Scenario.neuron "W2" 0.3%float true 1 [Scenario.conn "V" 0.7%float])
           "W2" [Scenario.conn "V" 0.7%float] (Scenario.conn "V" 0.7%float));
    try reflexivity.
  - unfold unique_ids. apply (bool_decide_unpack _). vm_compute. exact I.
  - vm_compute. do 2 apply list_elem_of_further. apply list_elem_of_here.
  - vm_compute. do 2 apply list_elem_of_further. apply list_elem_of_here.
  - vm_compute. apply list_elem_of_further. apply list_elem_of_here.
  - apply list_elem_of_here.
Defined.

(** Compared with itself (unique ids, every field supplied) a neuron
    neither rises nor jumps, so the loop body leaves the set as it is. *)
Lemma visit_self pl pm acc n i :
  complete_neuron n = true -> n_id n = Some i -> pm !! i = Some n ->
  visit pl pm acc n = Ok acc.
Proof.
  intros Hn Hi Hlk.
  apply complete_neuron_inv in Hn as (j & p & s & k & cs & -> & Hcs).
  simpl in Hi. injection Hi as ->.
  unfold visit. simpl. rewrite Hlk. simpl.
  destruct s; simpl; by rewrite no_jump_on_self.
Qed.

Lemma detect_self s :
  complete_data s = true -> unique_ids s ->
  _detect_active_connections (Some s) s = Ok ∅.
Proof.
  intros Hc Hnd. apply complete_data_inv in Hc as (ns & Hns & Hc).
  unfold unique_ids, neurons_of in Hnd. rewrite Hns in Hnd. simpl in Hnd.
  unfold _detect_active_connections. rewrite Hns. simpl.
  destruct (neuron_map_total _ Hc) as [m Hm]. rewrite Hm. simpl.
  apply for_each_fixed. intros n Hn.
  pose proof (forallb_elem _ _ _ Hc Hn) as Hcn.
  destruct (complete_neuron_inv _ Hcn) as (i & p & sp & k & cs & Heq & _).
  apply (visit_self _ _ _ _ i); [done | by rewrite Heq |].
  apply (neuron_map_lookup ns); [done | done | done | by rewrite Heq].
Qed.

Lemma record_activity_empty (d : gmap (string * string) Z) :
  Network.record_activity ∅ d = d.
Proof. unfold Network.record_activity. apply set_fold_empty. Qed.

Lemma step_index_first loop n : Network.step_index loop 0 (S n) = Ok 0%nat.
Proof.
  unfold Network.step_index. destruct loop; [|reflexivity].
  destruct (decide (S n = 0%nat)); [lia|]. by rewrite Nat.Div0.mod_0_l.
Qed.

(** C10. A snapshot that meets the contract (every field supplied, ids
    unique), diffed against itself, gives the empty set; and the first
    tick of the time-series animation pairs frame 0 with itself, so it
    finds no active edge and leaves the activity counter as it was. *)
Theorem detect_self_is_empty :
  (forall s, complete_data s = true -> unique_ids s ->
     _detect_active_connections (Some s) s = Ok ∅)
  /\ (forall renderer loop self0 self first rest,
        Network.time_steps self0 = first :: rest ->
        Network.animate_time_series_init self0 = Ok self ->
        let self' := Network.update_frame renderer loop 0 self in
        Network.previous_data self' = Some first
        /\ Network.current_data self' = first
        /\ (complete_data first = true -> unique_ids first ->
            _detect_active_connections (Network.previous_data self')
                                       (Network.current_data self') = Ok ∅
            /\ Network.connection_activity self'
               = Network.connection_activity self)).
Proof.
  split; [exact detect_self|].
  intros renderer loop self0 self first rest Hts Hinit.
  unfold Network.animate_time_series_init in Hinit. rewrite Hts in Hinit.
  apply bind_ok in Hinit as (G0 & _ & Hself). injection Hself as <-.
  cbv zeta. unfold Network.update_frame, Network.update_frame_body.
  cbn [Network.time_steps Network.set_data Network.current_data
       Network.previous_data Network.connection_activity Network.stdout].
  rewrite Hts. cbn [length]. rewrite step_index_first. cbn [lookup list_lookup].
  destruct (Network._build_graph first) as [G|e]; cbn [bind].
  2:{ cbn. split; [done|]. split; [done|]. intros Hc Hnd. split; [|done].
      by apply detect_self. }
  destruct (Network.draw_network renderer G _ _) as [[]|e]; cbn [bind].
  2:{ cbn. split; [done|]. split; [done|]. intros Hc Hnd. split; [|done].
      by apply detect_self. }
  cbn [Network.current_data Network.previous_data].
  destruct (_detect_active_connections (Some first) first) as [active|e] eqn:Hd.
  2:{ cbn. split; [done|]. split; [done|]. intros Hc Hnd.
      rewrite (detect_self _ Hc Hnd) in Hd. discriminate. }
  cbn. split; [done|]. split; [done|]. intros Hc Hnd.
  rewrite (detect_self _ Hc Hnd) in Hd. injection Hd as <-.
  split; [by apply detect_self|]. apply record_activity_empty.
Qed.

(** A frame with two neurons, diffed against itself. *)
Lemma detect_self_is_empty_witness :
  Detector._detect_active_connections (Some Scenario.ab_prev) Scenario.ab_prev
  = Ok ∅.
Proof.
  apply (proj1 detect_self_is_empty).
  - reflexivity.
  - unfold unique_ids. apply (bool_decide_unpack _). vm_compute. exact I.
Defined.

End DetectorClaims.

(** ** The activity counter *)

Section Counter.
Import Network.

Lemma bump_lookup (e e' : string * string) (d : gmap (string * string) Z) :
  bump e d !! e' =
  if decide (e = e') then Some (default 0 (d !! e) + 1) else d !! e'.
Proof.
  unfold bump. destruct (d !! e) as [n|] eqn:He.
  - rewrite He. simpl. destruct (decide (e = e')) as [<-|Hne].
    + by rewrite lookup_insert_eq.
    + by rewrite lookup_insert_ne.
  - rewrite lookup_insert_eq. simpl. destruct (decide (e = e')) as [<-|Hne].
    + by rewrite lookup_insert_eq.
    + by rewrite !lookup_insert_ne.
Qed.

(** The loop over the active set adds one to the count of each of its
    edges (a missing count is 0) and touches no other entry. *)
Lemma record_activity_lookup (active : gset (string * string))
    (d : gmap (string * string) Z) (e : string * string) :
  record_activity active d !! e =
  if decide (e ∈ active) then Some (default 0 (d !! e) + 1) else d !! e.
Proof.
  unfold record_activity.
  set (P := fun (r : gmap (string * string) Z) (X : gset (string * string)) =>
              forall e, r !! e =
                if decide (e ∈ X) then Some (default 0 (d !! e) + 1) else d !! e).
  assert (P (set_fold bump d active) active) as HP; [|exact (HP e)].
  apply (set_fold_ind_L P); unfold P; clear P.
  - intros e'. destruct (decide (e' ∈ (∅ : gset (string * string)))); set_solver.
  - intros x X r Hx IH e'. rewrite bump_lookup.
    destruct (decide (x = e')) as [<-|Hne].
    + rewrite IH. destruct (decide (x ∈ X)); [done|].
      destruct (decide (x ∈ {[x]} ∪ X)); [done | set_solver].
    + rewrite IH.
      destruct (decide (e' ∈ X)) as [H1|H1],
               (decide (e' ∈ {[x]} ∪ X)) as [H2|H2]; try done.
      * exfalso. apply H2, elem_of_union. by right.
      * exfalso. apply elem_of_union in H2 as [H2|H2]; [|done].
        apply elem_of_singleton in H2. congruence.
Qed.

(** The active set of a tick whose [try] block ran to its end. *)
Lemma update_frame_body_ok renderer loop frame self self' :
  update_frame_body renderer loop frame self = (self', Ok tt) ->
  exists active,
    Detector._detect_active_connections (previous_data self') (current_data self')
      = Ok active
    /\ connection_activity self'
       = record_activity active (connection_activity self)
    /\ stdout self' = stdout self.
Proof.
  unfold update_frame_body. intros Hrun.
  destruct (step_index _ _ _) as [i|e]; [|by inversion Hrun].
  destruct (time_steps self !! i) as [data|]; [|by inversion Hrun].
  destruct (_build_graph data) as [G|e]; cbn [bind] in Hrun; [|by inversion Hrun].
  destruct (draw_network _ _ _ _) as [[]|e]; cbn [bind] in Hrun;
    [|by inversion Hrun].
  destruct (Detector._detect_active_connections _ _) as [active|e] eqn:Hd;
    [|by inversion Hrun].
  injection Hrun as <-. exists active. cbn in Hd |- *. by rewrite Hd.
Qed.

Lemma Network_update_frame_body_ok_stdout renderer loop frame self self' :
  update_frame_body renderer loop frame self = (self', Ok tt) ->
  stdout self' = stdout self.
Proof.
  intros Hb. by apply update_frame_body_ok in Hb as (active & _ & _ & Hs).
Qed.

(** A tick whose [try] block raised leaves the counter alone. *)
Lemma update_frame_body_raise renderer loop frame self self' e :
  update_frame_body renderer loop frame self = (self', Raise e) ->
  connection_activity self' = connection_activity self.
Proof.
  unfold update_frame_body. intros Hrun.
  destruct (step_index _ _ _) as [i|e0]; [|by inversion Hrun].
  destruct (time_steps self !! i) as [data|]; [|by inversion Hrun].
  destruct (_build_graph data) as [G|e0]; cbn [bind] in Hrun; [|by inversion Hrun].
  destruct (draw_network _ _ _ _) as [[]|e0]; cbn [bind] in Hrun;
    [|by inversion Hrun].
  destruct (Detector._detect_active_connections _ _) as [active|e0];
    by inversion Hrun.
Qed.

Lemma update_frame_keeps renderer loop frame self e n :
  connection_activity self !! e = Some n ->
  exists n', connection_activity (update_frame renderer loop frame self) !! e
             = Some n' /\ n <= n'.
Proof.
  intros Hn. unfold update_frame.
  destruct (update_frame_body renderer loop frame self) as [self' [[]|ex]] eqn:Hb.
  - apply update_frame_body_ok in Hb as (active & _ & -> & _).
    rewrite record_activity_lookup, Hn. simpl.
    destruct (decide (e ∈ active)); eexists; split; try reflexivity; lia.
  - apply update_frame_body_raise in Hb. cbn. rewrite Hb, Hn.
    eexists; split; [reflexivity | lia].
Qed.

Lemma play_keeps renderer loop k self e n :
  connection_activity self !! e = Some n ->
  exists n', connection_activity (play renderer loop k self) !! e = Some n'
             /\ n <= n'.
Proof.
  intros Hn. induction k as [|k (n1 & H1 & Hle)]; simpl.
  - exists n. split; [done | lia].
  - destruct (update_frame_keeps renderer loop k _ e n1 H1) as (n2 & H2 & Hle2).
    exists n2. split; [done | lia].
Qed.

(** Loading a sequence into an object leaves its counter as it is. *)
Lemma load_time_series_keeps_counter w base num self :
  connection_activity (fst (Loader.load_time_series w base num self))
  = connection_activity self.
Proof.
  unfold Loader.load_time_series.
  destruct (Loader.step_files_2d w base num) as [files|e]; [|done].
  destruct (Loader.load_into w [] files) as [loaded [e|]]; [done|].
  by destruct loaded.
Qed.

(** C8 fails on the code: the counting loop comes after the drawing in
    the [try] block, so a frame advance whose drawing raises counts
    nothing. With A connected to B and to Z, which is no neuron, the tick
    on which A spikes has the active set {(A,B), (A,Z)}, fails in the node
    loop on Z and leaves the counter empty; and with a drawing library
    that raises, the tick of the two-neuron recording whose active set is
    {(A,B)} counts nothing either. *)
Lemma a_failed_tick_counts_nothing :
  (let self := update_frame Scenario.quiet_renderer true 1
                            Mishaps.az_visualizer in
   Detector._detect_active_connections (previous_data self) (current_data self)
   = Ok {[ ("A", "B"); ("A", "Z") ]}
   /\ connection_activity self !! ("A", "B") = None
   /\ stdout self
      = ["Loaded 2 time steps"; "Error updating frame: 'potential'"])
  /\ (let self := update_frame Mishaps.failing_renderer true 1
                               Scenario.ab_visualizer in
      Detector._detect_active_connections (previous_data self)
                                          (current_data self)
      = Ok {[ ("A", "B") ]}
      /\ connection_activity self !! ("A", "B") = None).
Proof.
  cbv zeta. split; [split; [|split]|split]; vm_compute; reflexivity.
Qed.

(** C8, as the code has it. The activity counter is monotonically
    non-decreasing over a played sequence: a tick, and so any number of
    ticks, keeps every entry and never lowers it. A tick whose [try]
    block runs to its end adds exactly one to the count of every edge of
    that frame's active set and changes no other entry; a tick that
    raises before the counting loop is swallowed and changes nothing,
    whatever its active set. Nothing resets the counter: it is empty as a
    new visualizer object has it, and loading a sequence leaves it as it
    is. *)
Theorem activity_counter_monotone renderer loop :
  (forall frame self e n,
     connection_activity self !! e = Some n ->
     exists n', connection_activity (update_frame renderer loop frame self) !! e
                = Some n' /\ n <= n')
  /\ (forall k self e n,
        connection_activity self !! e = Some n ->
        exists n', connection_activity (play renderer loop k self) !! e = Some n'
                   /\ n <= n')
  /\ (forall frame self self',
        update_frame_body renderer loop frame self = (self', Ok tt) ->
        update_frame renderer loop frame self = self'
        /\ exists active,
             Detector._detect_active_connections (previous_data self')
                                                 (current_data self') = Ok active
             /\ forall e,
                  connection_activity self' !! e
                  = if decide (e ∈ active) then Some (count_of self e + 1)
                    else connection_activity self !! e)
  /\ (forall frame self self' ex,
        update_frame_body renderer loop frame self = (self', Raise ex) ->
        connection_activity (update_frame renderer loop frame self)
        = connection_activity self)
  /\ (forall data self, __init__ data = Ok self -> connection_activity self = ∅)
  /\ (forall w base num self,
        connection_activity (fst (Loader.load_time_series w base num self))
        = connection_activity self).
Proof.
  split; [intros; by apply update_frame_keeps|].
  split; [intros; by apply play_keeps|].
  split.
  { intros frame self self' Hb. split; [unfold update_frame; by rewrite Hb|].
    apply update_frame_body_ok in Hb as (active & Hd & Hc & _).
    exists active. split; [done|]. intros e.
    rewrite Hc. apply record_activity_lookup. }
  split.
  { intros frame self self' ex Hb. unfold update_frame. rewrite Hb. cbn.
    by eapply update_frame_body_raise. }
  split; [|intros; apply load_time_series_keeps_counter].
  intros data self Hinit. unfold __init__ in Hinit.
  apply bind_ok in Hinit as (G0 & _ & Hself). by injection Hself as <-.
Qed.

End Counter.
(** Two ticks over the frames of A and B: the edge A->B is counted once. *)
Example ab_play_counts :
  Network.connection_activity
    (Network.play Scenario.quiet_renderer true 2 Scenario.ab_visualizer)
  !! ("A", "B") = Some 1.
Proof. vm_compute. reflexivity. Qed.

(** A third tick keeps the count of A->B at 1 or more; the tick on which
    A spikes runs to its end and counts its active set; the tick that
    fails on Z counts nothing. *)
Lemma activity_counter_monotone_witness :
  (exists n',
     Network.connection_activity
       (Network.update_frame Scenario.quiet_renderer true 2
          (Network.play Scenario.quiet_renderer true 2 Scenario.ab_visualizer))
     !! ("A", "B") = Some n' /\ 1 <= n')
  /\ (exists self' active,
        Network.update_frame Scenario.quiet_renderer true 1
                             Scenario.ab_visualizer = self'
        /\ Detector._detect_active_connections (Network.previous_data self')
                                               (Network.current_data self')
           = Ok active
        /\ forall e,
             Network.connection_activity self' !! e
             = if decide (e ∈ active)
               then Some (Network.count_of Scenario.ab_visualizer e + 1)
               else Network.connection_activity Scenario.ab_visualizer !! e)
  /\ Network.connection_activity
       (Network.update_frame Scenario.quiet_renderer true 1
                             Mishaps.az_visualizer)
     = Network.connection_activity Mishaps.az_visualizer.
Proof.
  split; [|split].
  - apply (proj1 (activity_counter_monotone Scenario.quiet_renderer true)).
    vm_compute. reflexivity.
  - assert (Network.update_frame_body Scenario.quiet_renderer true 1
                                      Scenario.ab_visualizer
            = (fst (Network.update_frame_body Scenario.quiet_renderer true 1
                                              Scenario.ab_visualizer), Ok tt))
      as Hbody by (vm_compute; reflexivity).
    destruct (proj1 (proj2 (proj2 (activity_counter_monotone
                                     Scenario.quiet_renderer true)))
                1%nat Scenario.ab_visualizer _ Hbody)
      as (Hself & active & Hd & Hc).
    eexists _, active. split; [exact Hself|]. split; [exact Hd | exact Hc].
  - apply (proj1 (proj2 (proj2 (proj2 (activity_counter_monotone
                                         Scenario.quiet_renderer true))))
             1%nat Mishaps.az_visualizer
             (Network.set_data (Some Mishaps.az_quiet) Mishaps.az_spiked
                               Mishaps.az_visualizer)
             (KeyError "potential")).
    vm_compute. reflexivity.
Defined.

(** ** Sorting *)

Section SortBy.
Context {A : Type} (le : A -> A -> bool).
Hypothesis le_total : forall x y, le x y = true \/ le y x = true.
Hypothesis le_trans : forall x y z, le x y = true -> le y z = true -> le x z = true.

Lemma insert_by_perm x l : Permutation (insert_by le x l) (x :: l).
Proof.
  induction l as [|y l IH]; simpl; [reflexivity|].
  destruct (le x y); [reflexivity|].
  rewrite IH. apply perm_swap.
Qed.

Lemma sort_by_perm l : Permutation (sort_by le l) l.
Proof.
  induction l as [|x l IH]; simpl; [reflexivity|].
  rewrite insert_by_perm. by constructor.
Qed.

Lemma insert_by_sorted x l :
  StronglySorted (fun a b => le a b = true) l ->
  StronglySorted (fun a b => le a b = true) (insert_by le x l).
Proof.
  induction 1 as [|y l Hs IH Hall]; simpl.
  - constructor; [constructor | constructor].
  - destruct (le x y) eqn:Hxy.
    + constructor; [by constructor|]. constructor; [done|].
      eapply Forall_impl; [exact Hall|]. intros z Hz. by eapply le_trans.
    + constructor; [done|].
      assert (le y x = true) as Hyx by (destruct (le_total x y); congruence).
      eapply Permutation_Forall; [symmetry; apply insert_by_perm|].
      by constructor.
Qed.

Lemma sort_by_sorted l : StronglySorted (fun a b => le a b = true) (sort_by le l).
Proof.
  induction l as [|x l IH]; simpl; [constructor | by apply insert_by_sorted].
Qed.

End SortBy.

Lemma StronglySorted_weaken {A} (R R' : A -> A -> Prop) (l : list A) :
  (forall a b, R a b -> R' a b) -> StronglySorted R l -> StronglySorted R' l.
Proof.
  intros Himp. induction 1 as [|x l Hs IH Hall]; constructor; [done|].
  eapply Forall_impl; [exact Hall|]. intros y. apply Himp.
Qed.

Section LoaderFacts.
Import Loader.

Lemma step_le_spec a b : step_le a b = true <-> fst a <= fst b.
Proof. unfold step_le. apply Z.leb_le. Qed.

Lemma key3_le_spec a b : key3_le a b = true <-> lex_le a b.
Proof.
  destruct a as [[e1 d1] s1], b as [[e2 d2] s2]. unfold key3_le, lex_le. simpl.
  destruct (Z.ltb_spec e1 e2); [intuition lia|].
  destruct (Z.ltb_spec e2 e1); [intuition (try discriminate; lia)|].
  destruct (Z.ltb_spec d1 d2); [intuition lia|].
  destruct (Z.ltb_spec d2 d1); [intuition (try discriminate; lia)|].
  rewrite Z.leb_le. intuition lia.
Qed.

Lemma sorted_steps (l : list (Z * string)) :
  StronglySorted (fun a b => fst a <= fst b) (sort_by step_le l).
Proof.
  eapply StronglySorted_weaken;
    [|apply (sort_by_sorted step_le)].
  - intros a b. apply step_le_spec.
  - intros x y. rewrite !step_le_spec. lia.
  - intros x y z. rewrite !step_le_spec. lia.
Qed.

Lemma sorted_training (l : list (Z * Z * Z * string)) :
  StronglySorted (fun a b => lex_le (fst a) (fst b)) (sort_by training_le l).
Proof.
  eapply StronglySorted_weaken;
    [|apply (sort_by_sorted training_le)].
  - intros a b. apply key3_le_spec.
  - intros x y. unfold training_le. rewrite !key3_le_spec. unfold lex_le. lia.
  - intros x y z. unfold training_le. rewrite !key3_le_spec. unfold lex_le. lia.
Qed.

End LoaderFacts.
(** ** Claims about the loaders *)

Section LoaderClaims.
Import Loader.

Lemma map_result_Forall2 {A B} (f : A -> result B) l ys :
  map_result f l = Ok ys -> Forall2 (fun x y => f x = Ok y) l ys.
Proof.
  revert ys. induction l as [|x l IH]; intros ys Hrun; simpl in Hrun.
  - injection Hrun as <-. constructor.
  - apply bind_ok in Hrun as (y & Hy & Hrun).
    apply bind_ok in Hrun as (ys' & Hys & Hrun). injection Hrun as <-.
    constructor; [done | by apply IH].
Qed.



Lemma matching_files_none w pattern dir_path names :
  (forall f, f ∈ names -> match_step w pattern f = None) ->
  matching_files w pattern dir_path names = [].
Proof.
  intros Hnone. unfold matching_files.
  induction names as [|f names IH]; simpl; [done|].
  rewrite Hnone by (by left). apply IH. intros g Hg. apply Hnone. by right.
Qed.

Lemma step_index_in_range loop frame len :
  (frame < len)%nat -> Network.step_index loop frame len = Ok frame.
Proof.
  intros Hlt. unfold Network.step_index. destruct loop.
  - destruct (decide (len = 0%nat)); [lia|]. by rewrite Nat.mod_small.
  - f_equal. lia.
Qed.

(** C5. The loaders put the discovered frames in ascending order of
    their key before anything is played. Step family: the sorted
    [step_files] are ascending in the step number and a rearrangement of
    the matching files, and the frames are their contents in that
    order; keys discovered as [2,0,1] are played as [0,1,2]; frame [k] of
    the animation shows [time_steps[k]]. Training family: the files are
    ascending in the lexicographic order of (epoch, digit, step). *)
Theorem frames_in_key_order :
  (forall w base files,
     step_files_3d w base = Ok files ->
     StronglySorted (fun a b => fst a <= fst b) files
     /\ exists names,
          listdir w (search_dir_3d w base) = Ok names
          /\ Permutation files
               (matching_files w (step_pattern w base) (search_dir_3d w base)
                               names))
  /\ (forall w base frames,
        _load_time_series w base = Ok frames ->
        exists files,
          step_files_3d w base = Ok files
          /\ Forall2 (fun sf d => json_load w (snd sf) = Ok d) files frames)
  /\ sort_by step_le [(2, "c"); (0, "a"); (1, "b")]
     = [(0, "a"); (1, "b"); (2, "c")]
  /\ _load_time_series Scenario.three_steps "net_step0.json"
     = Ok [Scenario.ab_prev; Scenario.ab_curr; Scenario.ab_later]
  /\ (forall loop frame len,
        (frame < len)%nat -> Network.step_index loop frame len = Ok frame)
  /\ (forall w base files,
        sorted_training_files w base = Ok files ->
        StronglySorted (fun a b => lex_le (fst a) (fst b)) files
        /\ exists base',
             training_base w base = Ok base'
             /\ Permutation files (parsed_files w (training_files w base')))
  /\ (forall w base frames infos,
        _load_training_frames w base = Ok (frames, infos) ->
        exists files,
          sorted_training_files w base = Ok files
          /\ Forall2 (fun pf d => json_load w (snd pf) = Ok d) files frames
          /\ infos = info_of <$> files)
  /\ (exists infos,
        _load_training_frames Scenario.training_run
          "data/json/training_epoch0_test_digit0_step0.json"
        = Ok ([Scenario.ab_prev; Scenario.ab_prev; Scenario.ab_curr;
               Scenario.ab_later], infos)
        /\ (fun i => (epoch i, digit i, step i)) <$> infos
           = [(0, 0, 0); (0, 0, 1); (0, 1, 0); (1, 0, 0)]).
Proof.
  split.
  { intros w base files H.
    apply bind_ok in H as (names & Hn & H). injection H as <-.
    split; [apply sorted_steps|].
    exists names. split; [done | apply sort_by_perm]. }
  split.
  { intros w base frames Hrun. unfold _load_time_series in Hrun.
    destruct (step_files_3d w base) as [files|e]; [|discriminate].
    simpl in Hrun. exists files. split; [done|].
    destruct files; [discriminate|]. by apply map_result_Forall2. }
  split; [vm_compute; reflexivity|].
  split; [vm_compute; reflexivity|].
  split; [apply step_index_in_range|].
  split.
  { intros w base files H.
    apply bind_ok in H as (base' & Hb & H). injection H as <-.
    split; [apply sorted_training|].
    exists base'. split; [done | apply sort_by_perm]. }
  split.
  { intros w base frames infos Hrun. unfold _load_training_frames in Hrun.
    destruct (sorted_training_files w base) as [files|e]; [|discriminate].
    simpl in Hrun. exists files. split; [done|].
    destruct files as [|pf files]; [discriminate|].
    apply bind_ok in Hrun as (fs & Hfs & Hrun). injection Hrun as <- <-.
    split; [by apply map_result_Forall2 | done]. }
  eexists. split; vm_compute; reflexivity.
Qed.

End LoaderClaims.
Section LoaderErrors.
Import Loader.

(** A directory that lists the steps as 2, 0, 1. *)
Lemma frames_in_key_order_witness :
  exists files,
    step_files_3d Scenario.three_steps "net_step0.json" = Ok files
    /\ Forall2 (fun sf d => json_load Scenario.three_steps (snd sf) = Ok d) files
               [Scenario.ab_prev; Scenario.ab_curr; Scenario.ab_later].
Proof.
  apply (proj1 (proj2 frames_in_key_order) Scenario.three_steps "net_step0.json").
  vm_compute. reflexivity.
Defined.

(** C7. When the directory that is listed holds no file matching the
    pattern built from the reference file, both step loaders raise
    [ValueError] with the message
    ["No time step files found matching pattern: <pattern>"], which names
    the pattern tried; no animator object is constructed, and the 2D
    visualizer is left with an empty [time_steps]. *)
Theorem no_frames_found :
  (forall w base names,
     listdir w (search_dir_3d w base) = Ok names ->
     (forall f, f ∈ names -> match_step w (step_pattern w base) f = None) ->
     _load_time_series w base
     = Raise (ValueError ("No time step files found matching pattern: "
                          +:+ step_pattern w base))
     /\ (forall np_cos np_sin,
           Spike3D.__init__ w np_cos np_sin base
           = Raise (ValueError ("No time step files found matching pattern: "
                                +:+ step_pattern w base))))
  /\ (forall w base num_steps self names,
        listdir w (dir_or_dot w base) = Ok names ->
        (forall f, f ∈ names -> match_step w (step_pattern w base) f = None) ->
        load_time_series w base num_steps self
        = (Network.set_time_steps [] self,
           Raise (ValueError ("No time step files found matching pattern: "
                              +:+ step_pattern w base)))).
Proof.
  split.
  - intros w base names Hls Hnone.
    assert (_load_time_series w base
            = Raise (no_step_files (step_pattern w base))) as Hload.
    { unfold _load_time_series, step_files_3d. rewrite Hls. simpl.
      by rewrite (matching_files_none _ _ _ _ Hnone). }
    split; [exact Hload|].
    intros np_cos np_sin. unfold Spike3D.__init__. by rewrite Hload.
  - intros w base num_steps self names Hls Hnone.
    unfold load_time_series, step_files_2d. rewrite Hls. simpl.
    rewrite (matching_files_none _ _ _ _ Hnone). simpl.
    assert ((match num_steps with
             | Some n => if decide (n = 0) then [] else slice_to n []
             | None => []
             end) = ([] : list (Z * string))) as ->.
    { destruct num_steps as [n|]; [|done]. destruct (decide (n = 0)); [done|].
      unfold slice_to. destruct (0 <=? n); apply take_nil. }
    reflexivity.
Qed.

(** A directory with no step file. *)
Lemma no_frames_found_witness :
  _load_time_series Scenario.no_steps "net_step0.json"
  = Raise (ValueError "No time step files found matching pattern: net_step(\d+)\.json").
Proof.
  apply (proj1 (proj1 no_frames_found Scenario.no_steps "net_step0.json"
                      ["notes.txt"] eq_refl
                      (fun f _ => eq_refl))).
Defined.

End LoaderErrors.
(** ** Missing fields *)

Section MissingFields.
Import Loader.


End MissingFields.
(** ** Ids that an earlier snapshot does not have *)

Section UnknownIds.
Import Detector Graph.





(** *** The graph of a tick has every id of its snapshot *)






End UnknownIds.
(** ** The layered layout *)

Section LayoutFacts.
Import Graph Layered.

Lemma touch_NoDup n ns : NoDup ns -> NoDup (touch n ns).
Proof.
  intros Hnd. unfold touch. destruct (decide (n ∈ ns)) as [|Hn]; [done|].
  apply NoDup_app. split; [done|]. split; [|apply NoDup_singleton].
  intros x Hx Hx'. apply list_elem_of_singleton in Hx'. by subst.
Qed.

Lemma add_edges_NoDup ns G G' :
  Network.add_edges ns G = Ok G' -> NoDup (nodes G) -> NoDup (nodes G').
Proof.
  intros Hrun HG.
  eapply (for_each_invariant (fun G0 => NoDup (nodes G0))); [| exact HG | exact Hrun].
  intros G0 n G1 _ HG0 Hstep.
  apply bind_ok in Hstep as (cs & _ & Hstep).
  eapply (for_each_invariant (fun G0 => NoDup (nodes G0))); [| exact HG0 | exact Hstep].
  intros G2 c G3 _ HG2 Hc.
  apply bind_ok in Hc as (u & _ & Hc).
  apply bind_ok in Hc as (v & _ & Hc).
  apply bind_ok in Hc as (wt & _ & Hc). injection Hc as <-.
  simpl. by do 2 apply touch_NoDup.
Qed.

(** The graphs the scripts build list each node once. *)
Lemma build_graph_NoDup cur G :
  Network._build_graph cur = Ok G -> NoDup (nodes G).
Proof.
  unfold Network._build_graph. intros Hrun.
  apply bind_ok in Hrun as (ns & _ & Hrun).
  apply bind_ok in Hrun as (G1 & Hnodes & Hrun).
  apply bind_ok in Hrun as (ns' & _ & Hedges).
  eapply add_edges_NoDup; [exact Hedges|].
  eapply (for_each_invariant (fun G0 => NoDup (nodes G0)));
    [| exact (NoDup_nil_2 : NoDup (nodes Graph.empty)) | exact Hnodes].
  intros G0 n G2 _ HG0 Hstep.
  apply bind_ok in Hstep as (j & _ & Hstep).
  apply bind_ok in Hstep as (p & _ & Hstep).
  apply bind_ok in Hstep as (s & _ & Hstep).
  apply bind_ok in Hstep as (k & _ & Hstep). injection Hstep as <-.
  simpl. by apply touch_NoDup.
Qed.

Lemma build_graph_3d_NoDup ts G :
  Spike3D._build_graph ts = Ok G -> NoDup (nodes G).
Proof.
  unfold Spike3D._build_graph. destruct ts as [|data ts]; [discriminate|].
  intros Hrun.
  apply bind_ok in Hrun as (ns & _ & Hrun).
  apply bind_ok in Hrun as (G1 & Hnodes & Hrun).
  apply bind_ok in Hrun as (ns' & _ & Hedges).
  eapply add_edges_NoDup; [exact Hedges|].
  eapply (for_each_invariant (fun G0 => NoDup (nodes G0)));
    [| exact (NoDup_nil_2 : NoDup (nodes Graph.empty)) | exact Hnodes].
  intros G0 n G2 _ HG0 Hstep.
  apply bind_ok in Hstep as (j & _ & Hstep). injection Hstep as <-.
  simpl. by apply touch_NoDup.
Qed.

(** *** The placing loop *)

Lemma place_from_other at_ i ns (pos : gmap string position) n :
  n ∉ ns -> place_from at_ i ns pos !! n = pos !! n.
Proof.
  revert i pos. induction ns as [|x ns IH]; intros i pos Hn; simpl; [done|].
  rewrite IH by (intros H; apply Hn; by right).
  apply lookup_insert_ne. intros ->. apply Hn. by left.
Qed.

Lemma place_from_at at_ i ns (pos : gmap string position) k n :
  NoDup ns -> ns !! k = Some n ->
  place_from at_ i ns pos !! n = Some (at_ (i + k)%nat).
Proof.
  revert i pos k. induction ns as [|x ns IH]; intros i pos k Hnd Hk; [done|].
  apply NoDup_cons in Hnd as [Hx Hnd]. simpl.
  destruct k as [|k]; simpl in Hk.
  - injection Hk as ->. rewrite place_from_other by done.
    rewrite lookup_insert_eq. by rewrite Nat.add_0_r.
  - rewrite (IH (S i) _ k) by done. f_equal. f_equal. lia.
Qed.

(** *** The three roles *)

Lemma elem_of_input_nodes G n :
  n ∈ input_nodes G <-> n ∈ nodes G /\ in_degree G n = 0%nat.
Proof. unfold input_nodes. rewrite list_elem_of_filter. tauto. Qed.

Lemma elem_of_output_nodes G n :
  n ∈ output_nodes G <-> n ∈ nodes G /\ out_degree G n = 0%nat.
Proof. unfold output_nodes. rewrite list_elem_of_filter. tauto. Qed.

Lemma elem_of_hidden_nodes G n :
  n ∈ hidden_nodes G <->
  n ∈ nodes G /\ in_degree G n <> 0%nat /\ out_degree G n <> 0%nat.
Proof.
  unfold hidden_nodes. rewrite list_elem_of_filter.
  rewrite elem_of_input_nodes, elem_of_output_nodes. tauto.
Qed.

Section Placement.
Variables np_cos np_sin : float -> float.
Variable G : DiGraph.
Hypothesis nodes_once : NoDup (nodes G).

Lemma output_placed i n :
  output_nodes G !! i = Some n ->
  _calculate_3d_layout np_cos np_sin G !! n = Some (output_position i).
Proof.
  intros Hi. unfold _calculate_3d_layout.
  rewrite (place_from_at _ 0 _ _ i n); [done| |done].
  by apply NoDup_filter.
Qed.

Lemma hidden_placed i n :
  hidden_nodes G !! i = Some n ->
  _calculate_3d_layout np_cos np_sin G !! n
  = Some (hidden_position np_cos np_sin (length (hidden_nodes G)) i).
Proof.
  intros Hi. unfold _calculate_3d_layout.
  assert (n ∈ hidden_nodes G) as Hn by (by eapply list_elem_of_lookup_2).
  rewrite place_from_other.
  - rewrite (place_from_at _ 0 _ _ i n); [done| |done]. by apply NoDup_filter.
  - apply elem_of_hidden_nodes in Hn as (_ & _ & Hout).
    rewrite elem_of_output_nodes. tauto.
Qed.

Lemma input_placed i n :
  input_nodes G !! i = Some n -> out_degree G n <> 0%nat ->
  _calculate_3d_layout np_cos np_sin G !! n = Some (input_position i).
Proof.
  intros Hi Hout. unfold _calculate_3d_layout.
  assert (n ∈ input_nodes G) as Hn by (by eapply list_elem_of_lookup_2).
  rewrite place_from_other by (rewrite elem_of_output_nodes; tauto).
  rewrite place_from_other.
  - rewrite (place_from_at _ 0 _ _ i n); [done| |done]. by apply NoDup_filter.
  - apply elem_of_input_nodes in Hn as [_ Hin].
    rewrite elem_of_hidden_nodes. tauto.
Qed.

End Placement.

End LayoutFacts.
Section LayoutClaim.
Import Graph Layered.

(** C4 at the failing input: a snapshot with the one neuron A, which has
    no connection. A has in-degree 0 and is the input node of index 0,
    and it is the output node of index 0 as well, so the lists are no
    partition. The layered layout of the animators and the layered branch
    of the 3D visualizer leave A where the output loop, which runs last,
    puts it, at (-1.5, 2.0, 2), and not at (-2.0, -1.0, 0), where the
    claim has the input node of index 0; the spring and the circular
    branch of the same function of the visualizer, which test the
    in-degree first, put A at height 0. On A -> B -> C, with [cos 0 = 1]
    and [sin 0 = 0], the layered layout places A at (-2.0, -1.0, 0), B at
    (1.5, 0, 1) and C at (-1.5, 2.0, 2), as the claim says. *)
Theorem layered_layout_misplaces_the_lone_node :
  (exists G,
     Spike3D._build_graph [Scenario.lone] = Ok G
     /\ in_degree G "A" = 0%nat
     /\ input_nodes G = ["A"] /\ output_nodes G = ["A"] /\ hidden_nodes G = []
     /\ _calculate_3d_layout Scenario.cos_at_zero Scenario.sin_at_zero G !! "A"
        = Some ((-1.5)%float, 2.0%float, 2%float)
     /\ _calculate_3d_layout Scenario.cos_at_zero Scenario.sin_at_zero G !! "A"
        <> Some ((-2.0)%float, (-1.0)%float, 0%float))
  /\ (exists G pos_layered pos_spring pos_circular,
        Network._build_graph Scenario.lone = Ok G
        /\ Network3D._calculate_3d_layout
             Libraries.flat_spring Libraries.level_linspace
             Scenario.cos_at_zero Scenario.sin_at_zero "layered" G
           = Ok pos_layered
        /\ pos_layered !! "A" = Some ((-1.5)%float, 2.0%float, 2%float)
        /\ Network3D._calculate_3d_layout
             Libraries.flat_spring Libraries.level_linspace
             Scenario.cos_at_zero Scenario.sin_at_zero "spring" G
           = Ok pos_spring
        /\ snd <$> pos_spring !! "A" = Some 0%float
        /\ Network3D._calculate_3d_layout
             Libraries.flat_spring Libraries.level_linspace
             Scenario.cos_at_zero Scenario.sin_at_zero "circular" G
           = Ok pos_circular
        /\ snd <$> pos_circular !! "A" = Some 0%float)
  /\ (exists G,
        Spike3D._build_graph [Scenario.abc] = Ok G
        /\ _calculate_3d_layout Scenario.cos_at_zero Scenario.sin_at_zero G !! "A"
           = Some ((-2.0)%float, (-1.0)%float, 0%float)
        /\ _calculate_3d_layout Scenario.cos_at_zero Scenario.sin_at_zero G !! "B"
           = Some (1.5%float, 0%float, 1%float)
        /\ _calculate_3d_layout Scenario.cos_at_zero Scenario.sin_at_zero G !! "C"
           = Some ((-1.5)%float, 2.0%float, 2%float)).
Proof.
  split; [|split].
  - eexists. split; [vm_compute; reflexivity|].
    split; [reflexivity|]. split; [reflexivity|]. split; [reflexivity|].
    split; [reflexivity|].
    match goal with |- context [_calculate_3d_layout _ _ ?g] => set (G := g) end.
    assert (_calculate_3d_layout Scenario.cos_at_zero Scenario.sin_at_zero G
            !! "A" = Some ((-1.5)%float, 2.0%float, 2%float)) as Hpos
        by (vm_compute; reflexivity).
    split; [exact Hpos|]. rewrite Hpos. intros Heq.
    assert (Hc := f_equal (fun o : option position =>
                             match o with
                             | Some (_, _, z) => PrimFloat.ltb z 1%float
                             | None => false
                             end) Heq).
    vm_compute in Hc. discriminate.
  - eexists. eexists. eexists. eexists.
    split; [vm_compute; reflexivity|].
    split; [vm_compute; reflexivity|]. split; [vm_compute; reflexivity|].
    split; [vm_compute; reflexivity|]. split; [vm_compute; reflexivity|].
    split; vm_compute; reflexivity.
  - eexists. split; [vm_compute; reflexivity|].
    split; [vm_compute; reflexivity|]. split; vm_compute; reflexivity.
Qed.

End LayoutClaim.
(** * Further properties of the scripts *)

(** ** The detector marks the edges of its two rules and no other *)

Section DetectorExact.
Import Detector Marks.

Lemma mark_outgoing_only i acc cs S' e :
  mark_outgoing i acc cs = Ok S' -> e ∈ S' ->
  e ∈ acc \/ exists c t, c ∈ cs /\ c_target c = Some t /\ e = (i, t).
Proof.
  intros Hrun.
  revert e. eapply (for_each_invariant
    (fun S0 => forall e, e ∈ S0 ->
       e ∈ acc \/ exists c t, c ∈ cs /\ c_target c = Some t /\ e = (i, t)));
    [| |exact Hrun]; [|by left].
  intros S0 c S1 Hc IH Hstep e He. cbv beta in Hstep.
  destruct (c_target c) as [t|] eqn:Ht; simpl in Hstep; [|discriminate].
  injection Hstep as <-.
  apply elem_of_union in He as [He|He]; [|by apply IH].
  apply elem_of_singleton in He. right. by exists c, t.
Qed.

Lemma mark_incoming_only i pn acc cs S' e :
  mark_incoming i pn acc cs = Ok S' -> e ∈ S' ->
  e ∈ acc \/ exists c src, c ∈ cs /\ c_target c = Some i /\
                           n_id pn = Some src /\ e = (src, i).
Proof.
  intros Hrun.
  revert e. eapply (for_each_invariant
    (fun S0 => forall e, e ∈ S0 ->
       e ∈ acc \/ exists c src, c ∈ cs /\ c_target c = Some i /\
                                n_id pn = Some src /\ e = (src, i)));
    [| |exact Hrun]; [|by left].
  intros S0 c S1 Hc IH Hstep e He. cbv beta in Hstep.
  destruct (c_target c) as [t|] eqn:Ht; simpl in Hstep; [|discriminate].
  destruct (decide (t = i)) as [->|Hne]; [|injection Hstep as <-; by apply IH].
  destruct (n_id pn) as [src|] eqn:Hsrc; simpl in Hstep; [|discriminate].
  injection Hstep as <-.
  apply elem_of_union in He as [He|He]; [|by apply IH].
  apply elem_of_singleton in He. right. by exists c, src.
Qed.

Lemma mark_senders_only i pl acc S' e :
  mark_senders i pl acc = Ok S' -> e ∈ S' ->
  e ∈ acc \/ exists w src cs c,
               w ∈ pl /\ n_spiked w = Some true /\ n_id w = Some src /\
               n_connections w = Some cs /\ c ∈ cs /\ c_target c = Some i /\
               e = (src, i).
Proof.
  intros Hrun.
  revert e. eapply (for_each_invariant
    (fun S0 => forall e, e ∈ S0 ->
       e ∈ acc \/ exists w src cs c,
                    w ∈ pl /\ n_spiked w = Some true /\ n_id w = Some src /\
                    n_connections w = Some cs /\ c ∈ cs /\ c_target c = Some i /\
                    e = (src, i)));
    [| |exact Hrun]; [|by left].
  intros S0 w S1 Hw IH Hstep e He. cbv beta in Hstep.
  destruct (n_spiked w) as [[|]|] eqn:Hsp; simpl in Hstep;
    [|injection Hstep as <-; by apply IH|discriminate].
  destruct (n_connections w) as [cs|] eqn:Hcs; simpl in Hstep; [|discriminate].
  destruct (mark_incoming_only _ _ _ _ _ _ Hstep He)
    as [He0|(c & src & Hc & Ht & Hsrc & ->)]; [by apply IH|].
  right. by exists w, src, cs, c.
Qed.

Lemma visit_only pl pm acc n S' e :
  visit pl pm acc n = Ok S' -> e ∈ S' ->
  e ∈ acc \/ rising_edge pm [n] e \/ jump_edge pl pm [n] e.
Proof.
  unfold visit. intros Hrun He.
  destruct (n_id n) as [i|] eqn:Hi; simpl in Hrun; [|discriminate].
  destruct (pm !! i) as [pn|] eqn:Hpn; [|injection Hrun as <-; by left].
  destruct (n_spiked n) as [sp|] eqn:Hsp; simpl in Hrun; [|discriminate].
  apply bind_ok in Hrun as (acc1 & Hacc1 & Hrun).
  assert (forall e, e ∈ acc1 -> e ∈ acc \/ rising_edge pm [n] e) as H1.
  { intros e1 He1. destruct sp; [|injection Hacc1 as <-; by left].
    destruct (n_spiked pn) as [psp|] eqn:Hpsp; simpl in Hacc1; [|discriminate].
    destruct psp; simpl in Hacc1; [injection Hacc1 as <-; by left|].
    destruct (n_connections n) as [cs|] eqn:Hcs; simpl in Hacc1; [|discriminate].
    destruct (mark_outgoing_only _ _ _ _ _ Hacc1 He1)
      as [?|(c & t & Hc & Ht & ->)]; [by left|].
    right. exists n, pn, cs, c. simpl. repeat split; try done. by left. }
  destruct (n_potential n) as [p|] eqn:Hp; simpl in Hrun; [|discriminate].
  destruct (n_potential pn) as [pp|] eqn:Hpp; simpl in Hrun; [|discriminate].
  destruct (jumped (p - pp)) eqn:Hj.
  - destruct (mark_senders_only _ _ _ _ _ Hrun He)
      as [He1|(w & src & cs & c & Hw & Hwsp & Hsrc & Hcs & Hc & Ht & ->)].
    + destruct (H1 _ He1); tauto.
    + right. right. exists n, pn, p, pp, w, cs, c. simpl.
      repeat split; try done. by left.
  - injection Hrun as <-. destruct (H1 _ He); tauto.
Qed.

Lemma rising_edge_mono pm l1 l2 e :
  (forall n, n ∈ l1 -> n ∈ l2) -> rising_edge pm l1 e -> rising_edge pm l2 e.
Proof.
  intros Hsub (u & pu & cs & c & Hu & H). exists u, pu, cs, c. split; [auto|done].
Qed.

Lemma jump_edge_mono pl pm l1 l2 e :
  (forall n, n ∈ l1 -> n ∈ l2) -> jump_edge pl pm l1 e -> jump_edge pl pm l2 e.
Proof.
  intros Hsub (v & pv & p & pp & w & cs & c & Hv & H).
  exists v, pv, p, pp, w, cs, c. split; [auto|done].
Qed.

Lemma visit_loop_only pl pm cl S' e :
  for_each (visit pl pm) ∅ cl = Ok S' -> e ∈ S' ->
  rising_edge pm cl e \/ jump_edge pl pm cl e.
Proof.
  intros Hrun He.
  assert (e ∈ (∅ : gset (string * string))
          \/ rising_edge pm cl e \/ jump_edge pl pm cl e) as [H|H];
    [|by apply not_elem_of_empty in H|done].
  revert e He.
  eapply (for_each_invariant
    (fun S0 => forall e, e ∈ S0 ->
       e ∈ (∅ : gset (string * string))
       \/ rising_edge pm cl e \/ jump_edge pl pm cl e));
    [| |exact Hrun]; [|by left].
  intros S0 n S1 Hn IH Hstep e He.
  assert (forall m, m ∈ [n] -> m ∈ cl) as Hsub
      by (intros m Hm; apply list_elem_of_singleton in Hm; by subst).
  destruct (visit_only _ _ _ _ _ _ Hstep He) as [He0|[Hr|Hj]].
  - by apply IH.
  - right. left. by eapply rising_edge_mono.
  - right. right. by eapply jump_edge_mono.
Qed.

(** X1. The set the detector returns holds exactly the edges of its two
    rules: an edge is in it if and only if it is marked by the rising
    rule or by the potential rule. *)
Theorem detector_marks_exactly prev cur pl pm cl S' e :
  _detect_active_connections (Some prev) cur = Ok S' ->
  d_neurons prev = Some pl -> neuron_map pl = Ok pm ->
  d_neurons cur = Some cl ->
  e ∈ S' <-> rising_edge pm cl e \/ jump_edge pl pm cl e.
Proof.
  intros Hrun Hpl Hpm Hcl.
  apply detect_ok_inv in Hrun as (pl' & pm' & cl' & Hpl' & Hpm' & Hcl' & Hloop).
  assert (pl' = pl) as -> by congruence.
  assert (pm' = pm) as -> by congruence.
  assert (cl' = cl) as -> by congruence.
  split; [by apply visit_loop_only|].
  destruct e as [a b]. simpl.
  intros [(u & pu & cs & c & Hu & Hi & Hlk & Hsp & Hpsp & Hcs & Hc & Ht)
         |(v & pv & p & pp & w & cs & c & Hv & Hi & Hlk & Hp & Hpp & Hj
             & Hw & Hwsp & Hsrc & Hcs & Hc & Ht)]; simpl in *.
  - destruct (for_each_passes _ _ _ _ _ Hu Hloop)
      as (l1 & l2 & S0 & S1 & _ & _ & Hstep & Hrest).
    pose proof (visit_rising _ _ _ _ _ _ _ _ _ _ Hstep Hi Hlk Hpsp Hsp Hcs Hc Ht).
    apply visit_loop_grows in Hrest. set_solver.
  - destruct (for_each_passes _ _ _ _ _ Hv Hloop)
      as (l1 & l2 & S0 & S1 & _ & _ & Hstep & Hrest).
    pose proof (visit_jump _ _ _ _ _ _ _ _ _ _ _ _ _ Hstep Hi Hlk Hp Hpp Hj
                           Hw Hwsp Hsrc Hcs Hc Ht).
    apply visit_loop_grows in Hrest. set_solver.
Qed.

End DetectorExact.

(** X1 at work: in the scenario of the two senders, (W1, V) is marked, and
    it is marked by one of the rules. *)
Lemma detector_marks_exactly_witness :
  exists pm,
    Detector.neuron_map (neurons_of Scenario.jump_prev) = Ok pm
    /\ (("W1", "V") ∈ ({[ ("W1", "V"); ("W2", "V") ]} : gset (string * string))
        <-> Marks.rising_edge pm (neurons_of Scenario.jump_curr) ("W1", "V")
            \/ Marks.jump_edge (neurons_of Scenario.jump_prev) pm
                               (neurons_of Scenario.jump_curr) ("W1", "V")).
Proof.
  eexists. split; [vm_compute; reflexivity|].
  apply (detector_marks_exactly Scenario.jump_prev Scenario.jump_curr);
    vm_compute; reflexivity.
Defined.
(** ** Ticks of the time-series animation *)

Section Ticks.
Import Network.

Lemma step_index_total loop frame len :
  len <> 0%nat ->
  exists i, step_index loop frame len = Ok i /\ (i < len)%nat
            /\ i = if loop then (frame mod len)%nat else Nat.min frame (len - 1).
Proof.
  intros Hlen. unfold step_index. destruct loop.
  - destruct (decide (len = 0%nat)); [done|].
    eexists. split; [done|]. split; [by apply Nat.mod_upper_bound | done].
  - eexists. split; [done|]. split; [lia | done].
Qed.

(** X2. With time steps loaded, every tick of the time-series animation,
    also one whose exception is swallowed, moves the pair on: the previous
    data becomes what the current data was, the current data becomes the
    time step of index [frame mod length] when looping and
    [min(frame, length - 1)] when not, and the loaded time steps stay as
    they are. Without looping every frame from the last index on shows
    the last step. *)
Theorem tick_advances_the_pair renderer loop frame self :
  time_steps self <> [] ->
  let self' := update_frame renderer loop frame self in
  let len := length (time_steps self) in
  previous_data self' = Some (current_data self)
  /\ time_steps self !! (if loop then (frame mod len)%nat
                         else Nat.min frame (len - 1))
     = Some (current_data self')
  /\ time_steps self' = time_steps self
  /\ (loop = false -> (len - 1 <= frame)%nat ->
      last (time_steps self) = Some (current_data self')).
Proof.
  intros Hne. cbv zeta.
  assert (length (time_steps self) <> 0%nat) as Hlen
      by (destruct (time_steps self); simpl; [done | lia]).
  destruct (step_index_total loop frame _ Hlen) as (i & Hi & Hlt & Heq).
  destruct (lookup_lt_is_Some_2 (time_steps self) i Hlt) as [data Hdata].
  assert (previous_data (update_frame renderer loop frame self)
            = Some (current_data self)
          /\ current_data (update_frame renderer loop frame self) = data
          /\ time_steps (update_frame renderer loop frame self)
             = time_steps self) as (Hp & Hc & Ht).
  { unfold update_frame, update_frame_body. rewrite Hi, Hdata.
    destruct (_build_graph data) as [G|e]; cbn [bind]; [|done].
    destruct (draw_network renderer G _ _) as [[]|e]; cbn [bind]; [|done].
    by destruct (Detector._detect_active_connections _ _). }
  rewrite Hp, Hc, Ht, <- Heq. repeat split; try done.
  intros -> Hlast. rewrite last_lookup.
  replace (Nat.pred (length (time_steps self))) with i; [done|]. lia.
Qed.

(** The second frame of two, shown at tick 1 and held from then on. *)
Lemma tick_advances_the_pair_witness :
  Network.previous_data
    (update_frame Scenario.quiet_renderer false 5 Scenario.ab_visualizer)
  = Some Scenario.ab_prev
  /\ Network.current_data
       (update_frame Scenario.quiet_renderer false 5 Scenario.ab_visualizer)
     = Scenario.ab_curr.
Proof.
  destruct (tick_advances_the_pair Scenario.quiet_renderer false 5
              Scenario.ab_visualizer) as (Hp & Hc & _ & _); [discriminate|].
  split; [exact Hp|]. apply (inj Some). symmetry. exact Hc.
Defined.

(** X3. Counts stay within the number of ticks: a tick adds at most one
    to the count of an edge, so after [k] ticks of a visualizer whose
    counter was empty every recorded count is at least 1 and at most
    [k]. *)
Theorem counts_within_ticks renderer loop k self e n :
  connection_activity self = ∅ ->
  connection_activity (play renderer loop k self) !! e = Some n ->
  1 <= n <= Z.of_nat k.
Proof.
  intros Hempty. revert n.
  induction k as [|k IH]; intros n Hn; simpl in Hn.
  - by rewrite Hempty, lookup_empty in Hn.
  - unfold update_frame in Hn.
    destruct (update_frame_body renderer loop k (play renderer loop k self))
      as [self' [[]|ex]] eqn:Hb.
    + apply update_frame_body_ok in Hb as (active & _ & Hc & _).
      rewrite Hc, record_activity_lookup in Hn.
      destruct (decide (e ∈ active)).
      * injection Hn as <-.
        destruct (connection_activity (play renderer loop k self) !! e)
          as [m|] eqn:Hm; simpl; [|lia].
        specialize (IH m eq_refl). lia.
      * specialize (IH n Hn). lia.
    + apply update_frame_body_raise in Hb. cbn in Hn. rewrite Hb in Hn.
      specialize (IH n Hn). lia.
Qed.

Lemma counts_within_ticks_witness : 1 <= 1 <= Z.of_nat 2.
Proof.
  apply (counts_within_ticks Scenario.quiet_renderer true 2
           Scenario.ab_visualizer ("A", "B") 1).
  - reflexivity.
  - vm_compute. reflexivity.
Defined.

End Ticks.
(** ** More on the loaders *)

Section LoaderMore.
Import Loader.

Lemma load_into_all w files frames loaded :
  Forall2 (fun sf d => json_load w (snd sf) = Ok d) files frames ->
  load_into w loaded files = (loaded ++ frames, None).
Proof.
  intros Hall. revert loaded.
  induction Hall as [|sf d files frames Hsf _ IH]; intros loaded; simpl.
  - by rewrite app_nil_r.
  - rewrite Hsf, IH. by rewrite <- app_assoc.
Qed.

Lemma load_into_stops w l1 sf l2 ds e loaded :
  Forall2 (fun sf d => json_load w (snd sf) = Ok d) l1 ds ->
  json_load w (snd sf) = Raise e ->
  load_into w loaded (l1 ++ sf :: l2) = (loaded ++ ds, Some e).
Proof.
  intros Hall Hsf. revert loaded.
  induction Hall as [|sf' d l1 ds Hd _ IH]; intros loaded; simpl.
  - by rewrite Hsf, app_nil_r.
  - rewrite Hd, IH. by rewrite <- app_assoc.
Qed.

Lemma load_into_inv w files loaded out :
  load_into w loaded files = (out, None) ->
  exists frames, out = loaded ++ frames
                 /\ Forall2 (fun sf d => json_load w (snd sf) = Ok d) files frames.
Proof.
  revert loaded. induction files as [|sf files IH]; intros loaded Hrun;
    simpl in Hrun.
  - injection Hrun as <-. exists []. split; [by rewrite app_nil_r | constructor].
  - destruct (json_load w (snd sf)) as [d|e] eqn:Hd; [|discriminate].
    destruct (IH _ Hrun) as (frames & -> & Hall).
    exists (d :: frames). split; [by rewrite <- app_assoc | by constructor].
Qed.

Lemma StronglySorted_take {A} (R : A -> A -> Prop) (n : nat) (l : list A) :
  StronglySorted R l -> StronglySorted R (take n l).
Proof.
  intros Hs. revert n. induction Hs as [|x l Hs IH Hall]; intros [|n]; simpl;
    try constructor; [apply IH | by apply Forall_take].
Qed.

(** The files [--steps] selects among the sorted matches. *)
Lemma step_files_2d_inv w base num files :
  step_files_2d w base num = Ok files ->
  exists names,
    listdir w (dir_or_dot w base) = Ok names
    /\ let all := sort_by step_le
                    (matching_files w (step_pattern w base) (dir_or_dot w base)
                                    names) in
       files = match num with
               | Some n => if decide (n = 0) then all else slice_to n all
               | None => all
               end.
Proof.
  unfold step_files_2d. intros Hrun.
  apply bind_ok in Hrun as (names & Hn & Hrun). injection Hrun as <-.
  by exists names.
Qed.

Lemma matching_files_spec w pattern dir_path names sf :
  sf ∈ matching_files w pattern dir_path names
  <-> exists f, f ∈ names /\ match_step w pattern f = Some (fst sf)
                /\ snd sf = path_join w dir_path f.
Proof.
  unfold matching_files. rewrite list_elem_of_omap. split.
  - intros (f & Hf & Hsf). exists f. split; [done|].
    destruct (match_step w pattern f) as [k|]; [|discriminate].
    by injection Hsf as <-.
  - intros (f & Hf & Hk & Hp). exists f. split; [done|]. rewrite Hk.
    destruct sf as [k p]. simpl in *. by subst.
Qed.

(** X4. When [load_time_series] returns, it returns the number of frames
    it loaded, which is at least 1. The matches are the files of the
    listed directory whose name the step pattern matches, each with its
    step number and its path, sorted by step number; the selection is all
    of them when [num_steps] is [None] or 0, the first [num_steps] of them
    for a positive value and all but the last [-num_steps] for a negative
    one; the object's time steps are the contents of the selected files in
    that order; one line is printed and nothing else of the object
    changes. *)
Theorem load_time_series_result w base num self self' n :
  load_time_series w base num self = (self', Ok n) ->
  exists names files,
    listdir w (dir_or_dot w base) = Ok names
    /\ (let found := matching_files w (step_pattern w base) (dir_or_dot w base)
                                    names in
        let all := sort_by step_le found in
        (forall sf, sf ∈ found <->
           exists f, f ∈ names
                     /\ match_step w (step_pattern w base) f = Some (fst sf)
                     /\ snd sf = path_join w (dir_or_dot w base) f)
        /\ all ≡ₚ found
        /\ StronglySorted (fun a b => fst a <= fst b) all
        /\ (num = None \/ num = Some 0 -> files = all)
        /\ (forall k, num = Some k -> 0 < k -> files = take (Z.to_nat k) all)
        /\ (forall k, num = Some k -> k < 0 ->
              files = take (Z.to_nat (Z.of_nat (length all) + k)) all))
    /\ StronglySorted (fun a b => fst a <= fst b) files
    /\ Forall2 (fun sf d => json_load w (snd sf) = Ok d) files
               (Network.time_steps self')
    /\ n = length (Network.time_steps self') /\ (1 <= n)%nat
    /\ (forall k, num = Some k -> 0 < k -> (n <= Z.to_nat k)%nat)
    /\ self' = Network.print ("Loaded " +:+ pretty n +:+ " time steps")
                             (Network.set_time_steps (Network.time_steps self')
                                                     self).
Proof.
  unfold load_time_series. intros Hrun.
  destruct (step_files_2d w base num) as [files|e] eqn:Hfiles; [|by inversion Hrun].
  destruct (load_into w [] files) as [loaded [e|]] eqn:Hload; [by inversion Hrun|].
  destruct loaded as [|d loaded]; [by inversion Hrun|].
  injection Hrun as <- <-.
  destruct (load_into_inv _ _ _ _ Hload) as (frames & Hframes & Hall).
  simpl in Hframes. subst frames.
  destruct (step_files_2d_inv _ _ _ _ Hfiles) as (names & Hn & Heq).
  cbv zeta in Heq.
  exists names, files. split; [done|].
  assert (StronglySorted (fun a b => fst a <= fst b) files) as Hsorted.
  { rewrite Heq. destruct num as [k|]; [|apply sorted_steps].
    destruct (decide (k = 0)); [apply sorted_steps|].
    unfold slice_to. destruct (0 <=? k);
      apply StronglySorted_take, sorted_steps. }
  split.
  { cbv zeta. split; [intros sf; apply matching_files_spec|].
    split; [apply (sort_by_perm step_le)|]. split; [apply sorted_steps|].
    split.
    { intros [->| ->]; [done|]. by rewrite Heq, decide_True. }
    split.
    { intros k -> Hk. rewrite Heq, decide_False by lia. unfold slice_to.
      by destruct (Z.leb_spec 0 k); [|lia]. }
    intros k -> Hk. rewrite Heq, decide_False by lia. unfold slice_to.
    by destruct (Z.leb_spec 0 k); [lia|]. }
  split; [done|]. split; [done|]. split; [done|].
  split; [simpl; lia|]. split; [|done].
  intros k -> Hk. apply Forall2_length in Hall. cbn in Hall.
  change (length (d :: loaded)) with (S (length loaded)).
  rewrite <- Hall, Heq.
  destruct (decide (k = 0)); [lia|]. unfold slice_to.
  destruct (Z.leb_spec 0 k); [|lia]. rewrite length_take. lia.
Qed.

(** Two of the three steps of the directory, asked for with [--steps 2]:
    the files of the steps 0 and 1, in that order. *)
Lemma load_time_series_result_witness :
  exists files,
    files = [(0, "./net_step0.json"); (1, "./net_step1.json")]
    /\ StronglySorted (fun a b => fst a <= fst b) files
    /\ Forall2 (fun sf d => json_load Scenario.three_steps (snd sf) = Ok d)
               files [Scenario.ab_prev; Scenario.ab_curr].
Proof.
  destruct (load_time_series_result Scenario.three_steps "net_step0.json"
              (Some 2) Scenario.ab_visualizer
              (Network.print "Loaded 2 time steps"
                 (Network.set_time_steps [Scenario.ab_prev; Scenario.ab_curr]
                                         Scenario.ab_visualizer))
              2%nat)
    as (names & files & Hls & Hsel & Hs & Hall & _); [vm_compute; reflexivity|].
  exists files. split; [|split; [exact Hs | exact Hall]].
  cbv zeta in Hsel. destruct Hsel as (_ & _ & _ & _ & Hpos & _).
  rewrite (Hpos 2 eq_refl ltac:(lia)).
  assert (Ok names = Ok ["notes.txt"; "net_step2.json"; "net_step0.json";
                         "net_step1.json"] :> result (list string)) as Hnames
    by (rewrite <- Hls; vm_compute; reflexivity).
  injection Hnames as ->.
  vm_compute. reflexivity.
Defined.

(** X5. [load_time_series] is not atomic: when the file of one step
    cannot be read, the exception is raised and the object is left with
    the frames of the steps before it as its time steps, in place of what
    it had. *)
Theorem load_time_series_partial w base num self l1 sf l2 ds e :
  step_files_2d w base num = Ok (l1 ++ sf :: l2) ->
  Forall2 (fun sf d => json_load w (snd sf) = Ok d) l1 ds ->
  json_load w (snd sf) = Raise e ->
  load_time_series w base num self = (Network.set_time_steps ds self, Raise e).
Proof.
  intros Hfiles Hall Hsf. unfold load_time_series. rewrite Hfiles.
  by rewrite (load_into_stops w l1 sf l2 ds e [] Hall Hsf).
Qed.

End LoaderMore.

(** Step 1 of three cannot be read: the object keeps step 0 alone. *)
Lemma load_time_series_partial_witness :
  Loader.load_time_series MoreScenarios.broken_steps "net_step0.json" None
                          Scenario.ab_visualizer
  = (Network.set_time_steps [Scenario.ab_prev] Scenario.ab_visualizer,
     Raise (OSError "./net_step1.json")).
Proof.
  apply (load_time_series_partial MoreScenarios.broken_steps "net_step0.json"
           None Scenario.ab_visualizer
           [(0, "./net_step0.json")] (1, "./net_step1.json")
           [(2, "./net_step2.json")]).
  - vm_compute. reflexivity.
  - repeat constructor.
  - reflexivity.
Defined.

Section TrainingMore.
Import Loader.

Lemma StronglySorted_fmap {A B} (R : A -> A -> Prop) (R' : B -> B -> Prop)
    (f : A -> B) (l : list A) :
  (forall a b, R a b -> R' (f a) (f b)) ->
  StronglySorted R l -> StronglySorted R' (f <$> l).
Proof.
  intros Himp. induction 1 as [|x l Hs IH Hall]; simpl; constructor; [done|].
  apply Forall_fmap. eapply Forall_impl; [exact Hall|]. intros y. apply Himp.
Qed.

Lemma parsed_files_spec w fs pf :
  pf ∈ parsed_files w fs -> search_training w (snd pf) = Some (fst pf).
Proof.
  unfold parsed_files. intros Hin.
  apply list_elem_of_omap in Hin as (f & _ & Hf).
  destruct (search_training w f) as [k|] eqn:Hk; [|discriminate].
  by injection Hf as <-.
Qed.

(** X6. The frame information of the training animator is aligned with
    its frames: there is one record per frame and at least one frame; the
    frame at each position is the content of the file its record names,
    the epoch, digit and step of the record are what that file name
    parses to, and the records are in ascending lexicographic order of
    (epoch, digit, step). *)
Theorem training_frames_align w base frames infos :
  _load_training_frames w base = Ok (frames, infos) ->
  frames <> []
  /\ Forall2 (fun i d =>
                json_load w (file i) = Ok d
                /\ search_training w (file i) = Some (epoch i, digit i, step i))
             infos frames
  /\ StronglySorted (fun a b => lex_le (epoch a, digit a, step a)
                                       (epoch b, digit b, step b)) infos.
Proof.
  unfold _load_training_frames. intros Hrun.
  destruct (sorted_training_files w base) as [files|e] eqn:Hfiles;
    [|discriminate].
  simpl in Hrun. destruct files as [|pf0 files0] eqn:Hshape; [discriminate|].
  rewrite <- Hshape in *.
  apply bind_ok in Hrun as (fs & Hfs & Hrun). injection Hrun as <- <-.
  apply map_result_Forall2 in Hfs.
  apply bind_ok in Hfiles as (base' & _ & Hsorted). injection Hsorted as Hsorted.
  assert (Forall (fun pf => search_training w (snd pf) = Some (fst pf)) files)
    as Hparsed.
  { rewrite <- Hsorted. eapply Permutation_Forall;
      [symmetry; apply sort_by_perm|].
    apply Forall_forall. intros pf Hpf.
    by apply (parsed_files_spec w (training_files w base')). }
  split.
  { intros ->. apply Forall2_length in Hfs. rewrite Hshape in Hfs. done. }
  split.
  { clear Hshape Hsorted. induction Hfs as [|pf d files fs Hd _ IH]; simpl;
      [constructor|].
    apply Forall_cons in Hparsed as [Hpf Hparsed].
    constructor; [|by apply IH].
    destruct pf as [[[e0 d0] s0] f0]. simpl in *. by split. }
  rewrite <- Hsorted.
  eapply StronglySorted_fmap; [|apply sorted_training].
  intros [[[e1 d1] s1] f1] [[[e2 d2] s2] f2] Hle. exact Hle.
Qed.

(** The four training frames of the scenario, labelled in key order. *)
Lemma training_frames_align_witness :
  exists infos,
    Forall2 (fun i d =>
               json_load Scenario.training_run (file i) = Ok d
               /\ search_training Scenario.training_run (file i)
                  = Some (epoch i, digit i, step i))
            infos [Scenario.ab_prev; Scenario.ab_prev; Scenario.ab_curr;
                   Scenario.ab_later].
Proof.
  eexists.
  refine (proj1 (proj2 (training_frames_align Scenario.training_run
            "data/json/training_epoch0_test_digit0_step0.json" _ _ _))).
  vm_compute. reflexivity.
Defined.

(** X7. The ways the training loader gives up. A base name that
    neither pattern matches, with no training file found by the two
    globs, raises [ValueError] naming that base name. A base name that
    one of the two patterns matches is kept as it is; and when none of
    the files globbed for the settled name matches the [test_digit]
    pattern, [ValueError("No training frame files found")] is raised. So
    a base name of the alternative family, which the globs never ask for,
    gives that error unless files of the [test_digit] family are found
    with it. *)
Theorem training_loader_gives_up w base :
  (search_training w base = None -> search_training_alt w base = None ->
   default_training_files w = [] ->
   _load_training_frames w base
   = Raise (ValueError ("Could not parse training file pattern from: " +:+ base)))
  /\ (is_Some (search_training w base) \/ is_Some (search_training_alt w base) ->
      training_base w base = Ok base)
  /\ (forall base',
        training_base w base = Ok base' ->
        (forall f, f ∈ training_files w base' -> search_training w f = None) ->
        _load_training_frames w base
        = Raise (ValueError "No training frame files found"))
  /\ (search_training w base = None ->
      is_Some (search_training_alt w base) ->
      (forall f, f ∈ training_files w base -> search_training w f = None) ->
      _load_training_frames w base
      = Raise (ValueError "No training frame files found")).
Proof.
  assert (forall base',
            training_base w base = Ok base' ->
            (forall f, f ∈ training_files w base' -> search_training w f = None) ->
            _load_training_frames w base
            = Raise (ValueError "No training frame files found")) as Hnone.
  { intros base' Hbase Hnone.
    unfold _load_training_frames, sorted_training_files. rewrite Hbase. simpl.
    assert (parsed_files w (training_files w base') = []) as ->; [|done].
    unfold parsed_files.
    induction (training_files w base') as [|f fs IH]; simpl; [done|].
    rewrite Hnone by (by left). apply IH. intros g Hg. apply Hnone. by right. }
  assert (is_Some (search_training w base) \/ is_Some (search_training_alt w base)
          -> training_base w base = Ok base) as Hkept.
  { unfold training_base. intros [[k Hk]|[k Hk]].
    - by rewrite Hk.
    - rewrite Hk. by destruct (search_training w base). }
  split.
  { intros H1 H2 H3.
    unfold _load_training_frames, sorted_training_files, training_base.
    by rewrite H1, H2, H3. }
  split; [exact Hkept|]. split; [exact Hnone|].
  intros _ Halt Hfiles. apply (Hnone base); [|exact Hfiles].
  apply Hkept. by right.
Qed.

(** A directory without training files, asked for a step file; and a
    directory with frames of the alternative family only, asked for one
    of them. *)
Lemma training_loader_gives_up_witness :
  _load_training_frames Scenario.no_steps "net_step0.json"
  = Raise (ValueError "Could not parse training file pattern from: net_step0.json")
  /\ _load_training_frames Mishaps.alt_only "training_epoch0_digit0_step0.json"
     = Raise (ValueError "No training frame files found").
Proof.
  split.
  - apply (proj1 (training_loader_gives_up Scenario.no_steps "net_step0.json"));
      reflexivity.
  - apply (proj2 (proj2 (proj2 (training_loader_gives_up
             Mishaps.alt_only "training_epoch0_digit0_step0.json")))).
    + reflexivity.
    + by eexists.
    + intros f Hf. reflexivity.
Defined.

End TrainingMore.
(** ** The graph of a snapshot *)

Section GraphFacts.
Import Graph Wiring.

Lemma set_weight_keys e w es e' :
  e' ∈ (fst <$> set_weight e w es) <-> e' = e \/ e' ∈ (fst <$> es).
Proof.
  induction es as [|[e0 w0] es IH]; simpl.
  - rewrite list_elem_of_singleton. rewrite elem_of_nil. tauto.
  - destruct (decide (e0 = e)) as [->|Hne]; simpl.
    + rewrite !elem_of_cons. tauto.
    + rewrite !elem_of_cons, IH. tauto.
Qed.

Lemma set_weight_NoDup e w es :
  NoDup (fst <$> es) -> NoDup (fst <$> set_weight e w es).
Proof.
  induction es as [|[e0 w0] es IH]; simpl; intros Hnd.
  - apply NoDup_singleton.
  - apply NoDup_cons in Hnd as [Hfresh Hnd].
    destruct (decide (e0 = e)) as [->|Hne]; simpl.
    + by apply NoDup_cons.
    + apply NoDup_cons. split; [|by apply IH].
      rewrite set_weight_keys. intros [?|?]; [by subst | done].
Qed.

(** What was set is what is read. *)
Lemma lookup_set_weight e w es : lookup_weight e (set_weight e w es) = Some w.
Proof.
  induction es as [|[e0 w0] es IH]; simpl.
  - by destruct (decide (e = e)).
  - destruct (decide (e0 = e)) as [->|Hne]; simpl.
    + by destruct (decide (e = e)).
    + by destruct (decide (e0 = e)).
Qed.

Lemma lookup_set_weight_ne e e' w es :
  e <> e' -> lookup_weight e' (set_weight e w es) = lookup_weight e' es.
Proof.
  intros Hne. induction es as [|[e0 w0] es IH]; simpl.
  - by destruct (decide (e = e')).
  - destruct (decide (e0 = e)) as [->|Hne0]; simpl.
    + by destruct (decide (e = e')).
    + destruct (decide (e0 = e')); [done | apply IH].
Qed.

Lemma lookup_weight_is_Some e es :
  e ∈ (fst <$> es) <-> is_Some (lookup_weight e es).
Proof.
  induction es as [|[e0 w0] es IH]; simpl.
  - rewrite elem_of_nil. split; [done | by intros [? ?]].
  - rewrite elem_of_cons. destruct (decide (e0 = e)) as [->|Hne].
    + split; [by eexists | by left].
    + rewrite <- IH. split; [intros [?|?]; [by subst | done] | by right].
Qed.

Lemma touch_elem n m ns : m ∈ touch n ns <-> m = n \/ m ∈ ns.
Proof.
  unfold touch. destruct (decide (n ∈ ns)) as [Hin|Hout].
  - split; [by right | intros [->|?]; done].
  - rewrite elem_of_app, list_elem_of_singleton. tauto.
Qed.

Lemma add_edge_sound u v w G : sound G -> sound (add_edge u v w G).
Proof.
  intros (Hn & Hk & Hends). split; [|split]; unfold keys in *; simpl.
  - by do 2 apply touch_NoDup.
  - by apply set_weight_NoDup.
  - intros e He. apply set_weight_keys in He as [->|He]; simpl.
    + rewrite !touch_elem. tauto.
    + destruct (Hends e He). rewrite !touch_elem. tauto.
Qed.

(** *** The loops over connections *)

Lemma add_edges_of_spec n G cs G' :
  Network.add_edges_of n G cs = Ok G' ->
  (sound G -> sound G')
  /\ node_attr G' = node_attr G
  /\ (forall e, e ∈ keys G' <->
                e ∈ keys G \/ exists c, c ∈ cs /\ n_id n = Some (fst e)
                                        /\ c_target c = Some (snd e))
  /\ (forall m, m ∈ nodes G' <->
                m ∈ nodes G \/ exists c t, c ∈ cs /\ c_target c = Some t
                                           /\ (n_id n = Some m \/ m = t)).
Proof.
  unfold Network.add_edges_of. revert G.
  induction cs as [|c cs IH]; intros G Hrun; simpl in Hrun.
  - injection Hrun as <-. split; [done|]. split; [done|]. split.
    + intros e. split; [by left|].
      intros [?|(c & Hc & _)]; [done | by apply elem_of_nil in Hc].
    + intros m. split; [by left|].
      intros [?|(c & t & Hc & _)]; [done | by apply elem_of_nil in Hc].
  - apply bind_ok in Hrun as (G1 & Hstep & Hrest).
    apply bind_ok in Hstep as (u & Hu & Hstep).
    apply bind_ok in Hstep as (v & Hv & Hstep).
    apply bind_ok in Hstep as (w & Hw & Hstep). injection Hstep as <-.
    destruct (n_id n) as [u'|] eqn:Hid; simpl in Hu; [|discriminate].
    injection Hu as ->.
    destruct (c_target c) as [v'|] eqn:Ht; simpl in Hv; [|discriminate].
    injection Hv as ->.
    destruct (IH _ Hrest) as (Hs & Ha & Hk & Hn).
    split; [intros HG; by apply Hs, add_edge_sound|].
    split; [by rewrite Ha|].
    split.
    + intros e. rewrite Hk. unfold keys at 1. simpl. rewrite set_weight_keys.
      fold (keys G). split.
      * intros [[->|?]|(c0 & Hc0 & H0)]; [|by left|].
        -- right. exists c. simpl. split; [by left | by rewrite Ht].
        -- right. exists c0. split; [by right | done].
      * intros [?|(c0 & Hc0 & Hi0 & Ht0)]; [by left; right|].
        apply elem_of_cons in Hc0 as [->|Hc0].
        -- left. left. destruct e as [a b]. simpl in *. congruence.
        -- right. by exists c0.
    + intros m. rewrite Hn. simpl. rewrite !touch_elem. split.
      * intros [[->|[->|?]]|(c0 & t & Hc0 & H0)].
        -- right. exists c, v. split; [by left|]. split; [done | by right].
        -- right. exists c, v. split; [by left|]. split; [done | by left].
        -- by left.
        -- right. exists c0, t. split; [by right | done].
      * intros [?|(c0 & t & Hc0 & Ht0 & Hm)]; [tauto|].
        apply elem_of_cons in Hc0 as [->|Hc0].
        -- left. destruct Hm as [Hm| ->]; [|assert (t = v) by congruence; subst; tauto].
           assert (m = u) by congruence. subst. tauto.
        -- right. by exists c0, t.
Qed.

Lemma add_edges_spec ns G G' :
  Network.add_edges ns G = Ok G' ->
  (sound G -> sound G')
  /\ node_attr G' = node_attr G
  /\ (forall e, e ∈ keys G' <-> e ∈ keys G \/ connection ns e)
  /\ (forall m, m ∈ nodes G' <->
                m ∈ nodes G \/ exists e, connection ns e
                                         /\ (m = fst e \/ m = snd e)).
Proof.
  unfold Network.add_edges. revert G.
  induction ns as [|n ns IH]; intros G Hrun; simpl in Hrun.
  - injection Hrun as <-. split; [done|]. split; [done|]. split.
    + intros e. split; [by left|].
      intros [?|(n & cs & c & Hn & _)]; [done | by apply elem_of_nil in Hn].
    + intros m. split; [by left|].
      intros [?|(e & (n & cs & c & Hn & _) & _)];
        [done | by apply elem_of_nil in Hn].
  - apply bind_ok in Hrun as (G1 & Hstep & Hrest).
    apply bind_ok in Hstep as (cs & Hcs & Hstep).
    destruct (n_connections n) as [cs'|] eqn:Hconn; simpl in Hcs; [|discriminate].
    injection Hcs as ->.
    destruct (add_edges_of_spec _ _ _ _ Hstep) as (Hs1 & Ha1 & Hk1 & Hn1).
    destruct (IH _ Hrest) as (Hs & Ha & Hk & Hn).
    split; [intros HG; by apply Hs, Hs1|].
    split; [by rewrite Ha, Ha1|].
    split.
    + intros e. rewrite Hk, Hk1. split.
      * intros [[?|(c & Hc & Hi & Ht)]|(n0 & cs0 & c0 & Hn0 & H0)]; [by left| |].
        -- right. exists n, cs, c. split; [by left | done].
        -- right. exists n0, cs0, c0. split; [by right | done].
      * intros [?|(n0 & cs0 & c0 & Hn0 & Hi0 & Hcs0 & Hc0 & Ht0)];
          [by left; left|].
        apply elem_of_cons in Hn0 as [->|Hn0].
        -- left. right. exists c0. assert (cs0 = cs) by congruence. by subst.
        -- right. by exists n0, cs0, c0.
    + intros m. rewrite Hn, Hn1. split.
      * intros [[?|(c & t & Hc & Ht & Hm)]|(e & (n0 & cs0 & c0 & Hn0 & H0) & Hm)];
          [by left| |].
        -- right. destruct Hm as [Hm| ->].
           ++ exists (m, t). split; [|by left].
              exists n, cs, c. split; [by left | done].
           ++ destruct (n_id n) as [u|] eqn:Hid.
              ** exists (u, t). split; [|by right].
                 exists n, cs, c. split; [by left | done].
              ** exfalso. clear -Hstep Hc Hid. unfold Network.add_edges_of in Hstep.
                 apply list_elem_of_split in Hc as (l1 & l2 & ->).
                 rewrite for_each_app in Hstep.
                 apply bind_ok in Hstep as (G0 & _ & Hstep). simpl in Hstep.
                 by rewrite Hid in Hstep.
        -- right. exists e. split; [|done].
           exists n0, cs0, c0. split; [by right | done].
      * intros [?|(e & (n0 & cs0 & c0 & Hn0 & Hi0 & Hcs0 & Hc0 & Ht0) & Hm)];
          [by left; left|].
        apply elem_of_cons in Hn0 as [->|Hn0].
        -- left. right. assert (cs0 = cs) by congruence. subst.
           exists c0, (snd e). split; [done|]. split; [done|].
           destruct Hm as [->| ->]; [by left | by right].
        -- right. exists e. split; [|done]. by exists n0, cs0, c0.
Qed.

End GraphFacts.
Section GraphOfSnapshot.
Import Graph Wiring.

Lemma filter_source_other {A} (f : A -> string) (n : string) (l : list A) m :
  m <> n ->
  filter (fun x => f x = m) (filter (fun x => f x <> n) l)
  = filter (fun x => f x = m) l.
Proof.
  intros Hne. induction l as [|x l IH]; [done|].
  rewrite !filter_cons. destruct (decide (f x <> n)) as [Hx|Hx].
  - rewrite filter_cons. destruct (decide (f x = m)); by rewrite IH.
  - destruct (decide (f x = m)) as [Hm|Hm]; [|done].
    exfalso. apply Hx. congruence.
Qed.

(** Grouping by source, over a list that names each source once, only
    rearranges. *)
Lemma group_by_source {A} (f : A -> string) (ns : list string) (l : list A) :
  NoDup ns -> (forall x, x ∈ l -> f x ∈ ns) ->
  flat_map (fun n => filter (fun x => f x = n) l) ns ≡ₚ l.
Proof.
  intros Hnd. revert l. induction Hnd as [|n ns Hn Hnd IH]; intros l Hall.
  - destruct l as [|x l]; [done|]. exfalso.
    eapply elem_of_nil, (Hall x). by left.
  - simpl.
    etrans; [|apply (filter_app_complement (fun x => f x = n) l)].
    apply Permutation_app_head.
    rewrite <- (IH (filter (fun x => f x <> n) l)).
    + clear IH Hall. induction ns as [|m ns IHns]; [done|]. simpl.
      apply NoDup_cons in Hnd as [_ Hnd].
      rewrite filter_source_other.
      * apply Permutation_app_head. apply IHns; [|done].
        intros H. apply Hn. by right.
      * intros ->. apply Hn. by left.
    + intros x Hx. apply list_elem_of_filter in Hx as [Hx Hin].
      apply Hall in Hin. apply elem_of_cons in Hin as [?|?]; [done | done].
Qed.

Lemma filter_keys (es : list (string * string * float)) (n : string) :
  fst <$> filter (fun ew => fst (fst ew) = n) es
  = filter (fun e : string * string => fst e = n) (fst <$> es).
Proof.
  induction es as [|[e w] es IH]; [done|].
  rewrite fmap_cons, !filter_cons. simpl.
  destruct (decide (fst e = n)); [by rewrite fmap_cons, IH | done].
Qed.

(** [G.edges()] lists the keys of the edge table, each once. *)
Lemma edges_perm G : sound G -> edges G ≡ₚ keys G.
Proof.
  intros (Hn & Hk & Hends). unfold edges, keys.
  transitivity (flat_map (fun n => filter (fun e : string * string => fst e = n)
                                          (fst <$> edge_list G)) (nodes G)).
  - clear. induction (nodes G) as [|n ns IH]; [done|]. simpl.
    rewrite filter_keys. by apply Permutation_app_head.
  - apply group_by_source; [done|]. intros e He. by apply Hends.
Qed.

Lemma add_nodes_spec ns G G' :
  Network.add_nodes ns G = Ok G' ->
  edge_list G' = edge_list G
  /\ (NoDup (nodes G) -> NoDup (nodes G'))
  /\ (forall m, m ∈ nodes G' <-> m ∈ nodes G \/ m ∈ ids ns)
  /\ (forall m, is_Some (node_attr G' !! m) <->
                is_Some (node_attr G !! m) \/ m ∈ ids ns)
  /\ (NoDup (nodes G ++ ids ns) -> nodes G' = nodes G ++ ids ns)
  /\ length (ids ns) = length ns.
Proof.
  unfold Network.add_nodes. revert G.
  induction ns as [|n ns IH]; intros G Hrun; simpl in Hrun.
  - injection Hrun as <-. unfold ids. simpl.
    split; [done|]. split; [done|].
    split; [intros m; rewrite elem_of_nil; tauto|].
    split; [intros m; rewrite elem_of_nil; tauto|].
    split; [by rewrite app_nil_r | done].
  - apply bind_ok in Hrun as (G1 & Hstep & Hrest).
    apply bind_ok in Hstep as (i & Hi & Hstep).
    apply bind_ok in Hstep as (p & _ & Hstep).
    apply bind_ok in Hstep as (s & _ & Hstep).
    apply bind_ok in Hstep as (k & _ & Hstep). injection Hstep as <-.
    destruct (n_id n) as [i'|] eqn:Hid; simpl in Hi; [|discriminate].
    injection Hi as ->.
    destruct (IH _ Hrest) as (He & Hnd & Hn & Ha & Ho & Hl).
    assert (ids (n :: ns) = i :: ids ns) as Hids
        by (unfold ids; simpl; by rewrite Hid).
    rewrite Hids. simpl in *.
    split; [done|].
    split; [intros HG; by apply Hnd, touch_NoDup|].
    split; [intros m; rewrite Hn, touch_elem, elem_of_cons; tauto|].
    split.
    { intros m. rewrite Ha, elem_of_cons.
      destruct (decide (i = m)) as [->|Hne].
      - rewrite lookup_insert_eq. split; [by right; left | by left; eexists].
      - rewrite lookup_insert_ne by done. split; [tauto|].
        intros [?|[?|?]]; [by left | by subst | by right]. }
    split; [|by rewrite Hl].
    intros Hnodup.
    assert (i ∉ nodes G) as Hfresh.
    { intros Hin. apply NoDup_app in Hnodup as (_ & Hdis & _).
      apply (Hdis i Hin). by left. }
    assert (touch i (nodes G) = nodes G ++ [i]) as Ht
        by (unfold touch; by destruct (decide (i ∈ nodes G))).
    rewrite Ho; rewrite Ht, <- app_assoc; [done|]. simpl.
    by rewrite <- Permutation_middle in Hnodup |- *.
Qed.

Lemma add_edges_appends ns G G' :
  Network.add_edges ns G = Ok G' -> exists extra, nodes G' = nodes G ++ extra.
Proof.
  intros Hrun.
  eapply (for_each_invariant (fun G0 => exists extra, nodes G0 = nodes G ++ extra));
    [| by exists []; rewrite app_nil_r | exact Hrun].
  intros G0 n G1 _ HG0 Hstep. cbv beta in Hstep.
  apply bind_ok in Hstep as (cs & _ & Hstep).
  eapply (for_each_invariant (fun G0 => exists extra, nodes G0 = nodes G ++ extra));
    [| exact HG0 | exact Hstep].
  intros G2 c G3 _ (extra & Hextra) Hc. cbv beta in Hc.
  apply bind_ok in Hc as (u & _ & Hc).
  apply bind_ok in Hc as (v & _ & Hc).
  apply bind_ok in Hc as (w & _ & Hc). injection Hc as <-. simpl.
  unfold touch. rewrite Hextra.
  destruct (decide (u ∈ nodes G ++ extra));
    [destruct (decide (v ∈ nodes G ++ extra))
    |destruct (decide (v ∈ (nodes G ++ extra) ++ [u]))];
    rewrite <- ?app_assoc; eauto.
Qed.

Lemma sound_empty : sound Graph.empty.
Proof.
  split; [apply NoDup_nil_2|]. split; [apply NoDup_nil_2|].
  intros e He. by apply elem_of_nil in He.
Qed.

Lemma build_graph_spec d G ns :
  Network._build_graph d = Ok G -> d_neurons d = Some ns ->
  (forall e, e ∈ edges G <-> connection ns e)
  /\ NoDup (edges G) /\ NoDup (nodes G)
  /\ (forall m, m ∈ nodes G <->
                m ∈ ids ns \/ exists e, connection ns e /\ m = snd e)
  /\ (forall m, is_Some (node_attr G !! m) <-> m ∈ ids ns)
  /\ (forall e, e ∈ edges G -> exists w, weight G e = Ok w)
  /\ (NoDup (ids ns) -> take (length ns) (nodes G) = ids ns).
Proof.
  unfold Network._build_graph. intros Hrun Hns. rewrite Hns in Hrun.
  simpl in Hrun.
  apply bind_ok in Hrun as (G1 & Hnodes & Hedges).
  destruct (add_nodes_spec _ _ _ Hnodes) as (He1 & Hnd1 & Hn1 & Ha1 & Ho1 & Hl1).
  destruct (add_edges_spec _ _ _ Hedges) as (Hs & Ha & Hk & Hn).
  assert (sound G1) as HG1.
  { split; [apply Hnd1, NoDup_nil_2|]. unfold keys. rewrite He1.
    split; [apply NoDup_nil_2|]. intros e He. by apply elem_of_nil in He. }
  pose proof (Hs HG1) as HG. pose proof (edges_perm G HG) as Hperm.
  assert (forall e, e ∈ keys G <-> connection ns e) as Hkeys.
  { intros e. rewrite Hk. unfold keys at 1. rewrite He1. simpl.
    rewrite elem_of_nil. tauto. }
  assert (forall e, connection ns e -> fst e ∈ ids ns) as Hsrc.
  { intros e (n & cs & c & Hin & Hid & _). unfold ids.
    apply list_elem_of_omap. by exists n. }
  split; [intros e; by rewrite Hperm|].
  split; [rewrite Hperm; apply HG|]. split; [apply HG|].
  split.
  { intros m. rewrite Hn, Hn1. simpl. rewrite elem_of_nil. split.
    - intros [[[]|?]|(e & He & [->| ->])]; [by left| |].
      + left. by apply Hsrc.
      + right. by exists e.
    - intros [?|(e & He & ->)]; [by left; right|]. right. exists e. tauto. }
  split.
  { intros m. rewrite Ha, Ha1. simpl. rewrite lookup_empty.
    split; [intros [[? ?]|?]; done | by right]. }
  split.
  { intros e He. rewrite Hperm in He. unfold weight.
    destruct HG as (_ & _ & Hends). destruct (Hends e He) as [Hu _].
    destruct (decide (fst e ∈ nodes G)); [|done].
    apply lookup_weight_is_Some in He as [w Hw]. rewrite Hw. by exists w. }
  intros Hnodup.
  destruct (add_edges_appends _ _ _ Hedges) as (extra & ->).
  rewrite Ho1 by done. simpl. rewrite <- Hl1. by rewrite take_app_length.
Qed.

(** X8. The graph [_build_graph] makes of a snapshot. Its edges are
    exactly the connections of the snapshot, each listed once by
    [G.edges()] and each with a weight to look up; its nodes, each listed
    once, are the neuron ids and the targets of connections; the nodes
    with attributes are exactly the neuron ids; and when the ids are
    unique the node list starts with them, in the order of the snapshot. *)
Theorem graph_of_a_snapshot d G ns :
  Network._build_graph d = Ok G -> d_neurons d = Some ns ->
  (forall e, e ∈ edges G <-> connection ns e)
  /\ NoDup (edges G) /\ NoDup (nodes G)
  /\ (forall m, m ∈ nodes G <->
                m ∈ ids ns \/ exists e, connection ns e /\ m = snd e)
  /\ (forall m, is_Some (node_attr G !! m) <-> m ∈ ids ns)
  /\ (forall e, e ∈ edges G -> exists w, weight G e = Ok w)
  /\ (NoDup (ids ns) -> take (length ns) (nodes G) = ids ns).
Proof. apply build_graph_spec. Qed.

(** The graph of A -> B -> C. *)
Lemma graph_of_a_snapshot_witness :
  exists G,
    Network._build_graph Scenario.abc = Ok G
    /\ (forall e, e ∈ edges G <-> connection (neurons_of Scenario.abc) e)
    /\ take 3 (nodes G) = ["A"; "B"; "C"].
Proof.
  eexists. split; [vm_compute; reflexivity|].
  match goal with |- context [edges ?g] => set (G := g) end.
  destruct (graph_of_a_snapshot Scenario.abc G (neurons_of Scenario.abc))
    as (He & _ & _ & _ & _ & _ & Ho); [vm_compute; reflexivity | reflexivity |].
  split; [exact He|]. apply Ho.
  apply (bool_decide_unpack _). vm_compute. exact I.
Defined.

End GraphOfSnapshot.
(** ** A recording of one network plays without an error *)

Section SteadyRecording.
Import Graph Wiring Recording Network.

Lemma has_connection_spec ns u v :
  has_connection ns u v = true <-> connection ns (u, v).
Proof.
  unfold has_connection, connection. rewrite existsb_exists. simpl. split.
  - intros (n & Hn & Hb). apply andb_true_iff in Hb as [Hid Hc].
    apply bool_decide_eq_true in Hid. apply existsb_exists in Hc as (c & Hc & Ht).
    apply bool_decide_eq_true in Ht.
    destruct (n_connections n) as [cs|] eqn:Hcs; simpl in Hc; [|done].
    exists n, cs, c. rewrite <- !list_elem_of_In in *. done.
  - intros (n & cs & c & Hn & Hid & Hcs & Hc & Ht).
    exists n. split; [by apply list_elem_of_In|].
    apply andb_true_iff. split; [by apply bool_decide_eq_true|].
    apply existsb_exists. exists c. rewrite Hcs. simpl.
    split; [by apply list_elem_of_In | by apply bool_decide_eq_true].
Qed.

Lemma closed_spec d e :
  closed d = true -> connection (neurons_of d) e -> snd e ∈ ids (neurons_of d).
Proof.
  unfold closed. intros Hc (n & cs & c & Hn & _ & Hcs & Hin & Ht).
  rewrite forallb_forall in Hc. apply list_elem_of_In in Hn.
  specialize (Hc n Hn). rewrite Hcs in Hc. simpl in Hc.
  rewrite forallb_forall in Hc. apply list_elem_of_In in Hin.
  specialize (Hc c Hin). rewrite Ht in Hc. by apply bool_decide_eq_true in Hc.
Qed.

Lemma wired_within_spec prev d e :
  wired_within prev d = true ->
  connection (neurons_of prev) e -> connection (neurons_of d) e.
Proof.
  unfold wired_within. intros Hw (n & cs & c & Hn & Hid & Hcs & Hin & Ht).
  rewrite forallb_forall in Hw. apply list_elem_of_In in Hn.
  specialize (Hw n Hn). rewrite Hid, Hcs in Hw. simpl in Hw.
  rewrite forallb_forall in Hw. apply list_elem_of_In in Hin.
  specialize (Hw c Hin). rewrite Ht in Hw.
  destruct e as [u v]. by apply has_connection_spec.
Qed.

Lemma map_result_total {A B} (f : A -> result B) (l : list A) :
  (forall x, x ∈ l -> exists y, f x = Ok y) -> exists ys, map_result f l = Ok ys.
Proof.
  induction l as [|x l IH]; intros Hall; simpl; [eauto|].
  destruct (Hall x) as [y ->]; [by left|]. simpl.
  destruct IH as [ys ->]; [intros z Hz; apply Hall; by right|]. simpl. eauto.
Qed.

Lemma add_nodes_total ns G :
  forallb complete_neuron ns = true -> exists G', add_nodes ns G = Ok G'.
Proof.
  intros Hc. apply for_each_total. intros G0 n Hn.
  apply (forallb_elem _ _ _ Hc) in Hn.
  apply complete_neuron_inv in Hn as (i & p & s & k & cs & -> & _).
  simpl. eauto.
Qed.

Lemma add_edges_total ns G :
  forallb complete_neuron ns = true -> exists G', add_edges ns G = Ok G'.
Proof.
  intros Hc. apply for_each_total. intros G0 n Hn.
  apply (forallb_elem _ _ _ Hc) in Hn.
  apply complete_neuron_inv in Hn as (i & p & s & k & cs & -> & Hcs).
  simpl. apply for_each_total. intros G1 c Hin.
  apply (forallb_elem _ _ _ Hcs) in Hin.
  apply complete_conn_inv in Hin as (t & w & ->). simpl. eauto.
Qed.

(** A snapshot that supplies every field has a graph. *)
Lemma build_graph_total d :
  complete_data d = true -> exists G, _build_graph d = Ok G.
Proof.
  intros Hc. apply complete_data_inv in Hc as (ns & Hns & Hc).
  unfold _build_graph. rewrite Hns. simpl.
  destruct (add_nodes_total ns Graph.empty Hc) as [G1 ->]. simpl.
  by apply add_edges_total.
Qed.

Lemma rising_edge_connection pm cl e :
  Marks.rising_edge pm cl e -> connection cl e.
Proof.
  intros (u & pu & cs & c & Hu & Hi & _ & _ & _ & Hcs & Hc & Ht).
  by exists u, cs, c.
Qed.

Lemma jump_edge_connection pl pm cl e :
  Marks.jump_edge pl pm cl e -> connection pl e.
Proof.
  intros (v & pv & p & pp & w & cs & c & _ & _ & _ & _ & _ & _
            & Hw & _ & Hi & Hcs & Hc & Ht).
  by exists w, cs, c.
Qed.

(** Every edge the detector marks is a connection of one of the two
    snapshots. *)
Lemma active_edges_are_connections prev cur active e :
  Detector._detect_active_connections (Some prev) cur = Ok active ->
  e ∈ active ->
  connection (neurons_of cur) e \/ connection (neurons_of prev) e.
Proof.
  intros Hrun He.
  apply detect_ok_inv in Hrun as (pl & pm & cl & Hpl & Hpm & Hcl & Hloop).
  unfold neurons_of. rewrite Hpl, Hcl. simpl.
  destruct (visit_loop_only _ _ _ _ _ Hloop He) as [Hr|Hj].
  - left. by eapply rising_edge_connection.
  - right. by eapply jump_edge_connection.
Qed.

(** The drawing of a frame that follows the previous one goes through
    when the drawing library does. *)
Lemma draw_network_total renderer G self step :
  (forall f, renderer f = Ok tt) ->
  (exists prev, previous_data self = Some prev
                /\ complete_data prev = true
                /\ follows prev (current_data self) = true) ->
  _build_graph (current_data self) = Ok G ->
  draw_network renderer G self step = Ok tt.
Proof.
  intros Hquiet (prev & Hprev & Hpc & Hf) HG.
  apply andb_true_iff in Hf as [Hf Hw]. apply andb_true_iff in Hf as [Hc Hcl].
  destruct (complete_data_inv _ Hc) as (ns & Hns & Hcn).
  destruct (build_graph_spec _ _ _ HG Hns)
    as (Hedges & _ & _ & Hnodes & Hattr & Hweight & _).
  assert (neurons_of (current_data self) = ns) as Hnof
      by (unfold neurons_of; by rewrite Hns).
  unfold draw_network. rewrite Hprev.
  destruct (detect_total prev (current_data self) Hpc Hc) as [active Hd].
  rewrite Hd. simpl.
  destruct (map_result_total (node_style G) (nodes G)) as [styles ->].
  { intros m Hm. apply Hnodes in Hm.
    assert (m ∈ ids ns) as Hid.
    { destruct Hm as [?|(e & He & ->)]; [done|].
      rewrite <- Hnof. apply closed_spec; [done | by rewrite Hnof]. }
    apply Hattr in Hid as [a Ha]. unfold node_style. rewrite Ha. simpl.
    destruct (a_spiked a); eauto. }
  simpl.
  destruct (map_result_total (fun e => w <- weight G e ;; Ok (w * 2)%float)
              (filter (fun e => e ∉ active) (edges G))) as [wi ->].
  { intros e He. apply list_elem_of_filter in He as [_ He].
    destruct (Hweight e He) as [w ->]. simpl. eauto. }
  simpl.
  destruct (map_result_total (fun e => w <- weight G e ;; Ok (w * 5)%float)
              (elements active)) as [wa ->].
  { intros e He. apply elem_of_elements in He.
    assert (e ∈ edges G) as Hin.
    { apply Hedges.
      destruct (active_edges_are_connections _ _ _ _ Hd He) as [Hcur|Hpre].
      - by rewrite <- Hnof.
      - rewrite <- Hnof. by eapply wired_within_spec. }
    destruct (Hweight e Hin) as [w ->]. simpl. eauto. }
  simpl. apply Hquiet.
Qed.

Lemma steady_follows ts a b :
  steady ts = true -> a ∈ ts -> b ∈ ts -> follows a b = true.
Proof.
  unfold steady. intros Hs Ha Hb. rewrite forallb_forall in Hs.
  apply list_elem_of_In in Ha. specialize (Hs a Ha).
  rewrite forallb_forall in Hs. apply Hs. by apply list_elem_of_In.
Qed.

Lemma follows_complete a b : follows a b = true -> complete_data b = true.
Proof.
  intros Hf. apply andb_true_iff in Hf as [Hf _].
  by apply andb_true_iff in Hf as [Hc _].
Qed.

(** One tick over a steady recording. *)
Lemma steady_tick renderer loop frame self :
  (forall f, renderer f = Ok tt) ->
  time_steps self <> [] -> steady (time_steps self) = true ->
  current_data self ∈ time_steps self ->
  exists self',
    update_frame_body renderer loop frame self = (self', Ok tt)
    /\ time_steps self' = time_steps self
    /\ current_data self' ∈ time_steps self.
Proof.
  intros Hquiet Hne Hsteady Hcur.
  assert (length (time_steps self) <> 0%nat) as Hlen
      by (destruct (time_steps self); simpl; [done | lia]).
  destruct (step_index_total loop frame _ Hlen) as (i & Hi & Hlt & _).
  destruct (lookup_lt_is_Some_2 (time_steps self) i Hlt) as [data Hdata].
  assert (data ∈ time_steps self) as Hin by (by eapply list_elem_of_lookup_2).
  pose proof (steady_follows _ _ _ Hsteady Hcur Hin) as Hf.
  pose proof (follows_complete _ _ Hf) as Hc.
  pose proof (follows_complete _ _ (steady_follows _ _ _ Hsteady Hcur Hcur)) as Hpc.
  unfold update_frame_body. rewrite Hi, Hdata.
  destruct (build_graph_total data Hc) as [G HG]. rewrite HG. cbn [bind].
  rewrite (draw_network_total renderer G _ (Some i) Hquiet).
  - cbn [bind previous_data current_data set_data].
    destruct (detect_total (current_data self) data Hpc Hc) as [active ->].
    eexists. split; [reflexivity|]. by split.
  - exists (current_data self). by repeat split.
  - exact HG.
Qed.

(** X9. A recording of one network plays without an error. When every
    loaded frame supplies every field, has all its connection targets
    among its neurons and has the connections of every other frame, and
    the drawing library does not raise, then no tick of the time-series
    animation ends in its [except] clause: each runs its [try] block to
    the end, so nothing is printed, and the counter takes each frame's
    active set. *)
Theorem steady_recording_plays renderer loop k self :
  (forall f, renderer f = Ok tt) ->
  time_steps self <> [] -> steady (time_steps self) = true ->
  current_data self ∈ time_steps self ->
  stdout (play renderer loop k self) = stdout self
  /\ forall j, (j < k)%nat ->
       exists self',
         update_frame_body renderer loop j (play renderer loop j self)
         = (self', Ok tt)
         /\ play renderer loop (S j) self = self'.
Proof.
  intros Hquiet Hne Hsteady Hcur.
  assert (forall j,
    time_steps (play renderer loop j self) = time_steps self
    /\ current_data (play renderer loop j self) ∈ time_steps self
    /\ stdout (play renderer loop j self) = stdout self) as Hinv.
  { induction j as [|j (Ht & Hc & Hs)]; [done|]. simpl.
    destruct (steady_tick renderer loop j (play renderer loop j self))
      as (self' & Hb & Ht' & Hc');
      [exact Hquiet | by rewrite Ht | by rewrite Ht | by rewrite Ht |].
    unfold update_frame. rewrite Hb.
    rewrite Ht in Ht', Hc'. split; [done|]. split; [done|].
    apply update_frame_body_ok in Hb as (_ & _ & _ & Hout). by rewrite Hout. }
  split; [apply Hinv|]. intros j _.
  destruct (Hinv j) as (Ht & Hc & _).
  destruct (steady_tick renderer loop j (play renderer loop j self))
    as (self' & Hb & _);
    [exact Hquiet | by rewrite Ht | by rewrite Ht | by rewrite Ht |].
  exists self'. split; [done|]. simpl. unfold update_frame. by rewrite Hb.
Qed.

(** Three ticks over the two frames of A and B print nothing. *)
Lemma steady_recording_plays_witness :
  stdout (play Scenario.quiet_renderer true 3 Scenario.ab_visualizer)
  = ["Loaded 2 time steps"].
Proof.
  apply (steady_recording_plays Scenario.quiet_renderer true 3
           Scenario.ab_visualizer).
  - reflexivity.
  - discriminate.
  - vm_compute. reflexivity.
  - apply list_elem_of_here.
Defined.

End SteadyRecording.
(** ** The colour intensity *)

Section Intensity.
Import Network.

Lemma ltb_leb (x y : float) : PrimFloat.ltb x y = true -> PrimFloat.leb x y = true.
Proof.
  rewrite ltb_spec, leb_spec. unfold SFltb, SFleb.
  by destruct (SFcompare (Prim2SF x) (Prim2SF y)) as [[]|].
Qed.

(** X10. [min(1.0, max(0.0, potential))] is within [0, 1] for every
    binary64 potential, including infinities and not-a-number: it is the
    potential itself strictly between 0 and 1, it is 1 for a positive
    potential that is not below 1, and it is 0 for every other value, so
    also for a potential that is not a number. *)
Theorem intensity_is_clamped (potential : float) :
  PrimFloat.leb 0 (clamp01 potential) = true
  /\ PrimFloat.leb (clamp01 potential) 1 = true
  /\ (PrimFloat.ltb 0 potential = true -> PrimFloat.ltb potential 1 = true ->
      clamp01 potential = potential)
  /\ (PrimFloat.ltb 0 potential = true -> PrimFloat.ltb potential 1 = false ->
      clamp01 potential = 1%float)
  /\ (PrimFloat.ltb 0 potential = false -> clamp01 potential = 0%float).
Proof.
  unfold clamp01, py_max, py_min.
  destruct (PrimFloat.ltb 0 potential) eqn:H0.
  - destruct (PrimFloat.ltb potential 1) eqn:H1.
    + split; [by apply ltb_leb|]. split; [by apply ltb_leb|]. by repeat split.
    + split; [reflexivity|]. split; [reflexivity|]. by repeat split.
  - change (PrimFloat.ltb 0 1) with true. cbv iota.
    split; [reflexivity|]. split; [reflexivity|]. by repeat split.
Qed.

(** A potential of 0.25, and one that is not a number. *)
Lemma intensity_is_clamped_witness :
  clamp01 0.25%float = 0.25%float /\ clamp01 PrimFloat.nan = 0%float.
Proof.
  split.
  - apply (proj1 (proj2 (proj2 (intensity_is_clamped 0.25%float))));
      reflexivity.
  - apply (proj2 (proj2 (proj2 (proj2 (intensity_is_clamped PrimFloat.nan)))));
      reflexivity.
Defined.

End Intensity.

(** ** The dictionary of a snapshot *)

Section NeuronMap.
Import Detector.

Lemma insert_run_last (ns : list Neuron) (m m' : gmap string Neuron) (i : string) :
  for_each (fun m n => i <- getitem (n_id n) "id" ;; Ok (<[i := n]> m)) m ns = Ok m' ->
  m' !! i = match last (filter (fun n => n_id n = Some i) ns) with
            | Some n => Some n
            | None => m !! i
            end.
Proof.
  revert m. induction ns as [|x ns IH]; intros m Hrun; simpl in Hrun.
  - by injection Hrun as <-.
  - apply bind_ok in Hrun as (m1 & H1 & Hrest).
    apply bind_ok in H1 as (j & Hj & Hm1). injection Hm1 as <-.
    destruct (n_id x) as [j'|] eqn:Hx; simpl in Hj; [|discriminate].
    injection Hj as ->.
    rewrite (IH _ Hrest). rewrite filter_cons.
    destruct (decide (n_id x = Some i)) as [Hxi|Hxi].
    + assert (j = i) as -> by congruence. rewrite last_cons.
      destruct (last (filter _ ns)); [done | apply lookup_insert_eq].
    + destruct (last (filter _ ns)); [done|].
      apply lookup_insert_ne. congruence.
Qed.

Lemma insert_run_raises (ns : list Neuron) (m : gmap string Neuron) n :
  n ∈ ns -> n_id n = None ->
  for_each (fun m n => i <- getitem (n_id n) "id" ;; Ok (<[i := n]> m)) m ns
  = Raise (KeyError "id").
Proof.
  intros Hn Hid. revert m. induction ns as [|x ns IH]; intros m;
    [by apply elem_of_nil in Hn|].
  simpl. destruct (n_id x) as [j|] eqn:Hx; simpl; [|done].
  apply elem_of_cons in Hn as [->|Hn]; [congruence | by apply IH].
Qed.

(** X11. The dictionary [{n['id']: n for n in neurons}] of a snapshot:
    building it raises [KeyError('id')] when some entry has no id; when
    every entry has one, it holds under each id the last entry of the
    snapshot with that id, and nothing under any other key. *)
Theorem neuron_map_keeps_the_last ns :
  (forall n, n ∈ ns -> n_id n = None -> neuron_map ns = Raise (KeyError "id"))
  /\ ((forall n, n ∈ ns -> is_Some (n_id n)) ->
      exists m, neuron_map ns = Ok m
                /\ forall i, m !! i
                             = last (filter (fun n => n_id n = Some i) ns)).
Proof.
  split; [intros n Hn Hid; by eapply insert_run_raises|].
  intros Hall.
  destruct (for_each_total
              (fun (m : gmap string Neuron) n =>
                 i <- getitem (n_id n) "id" ;; Ok (<[i := n]> m)) ns) with (s := (∅ : gmap string Neuron))
    as [m Hm].
  { intros m0 n Hn. destruct (Hall n Hn) as [i ->]. simpl. eauto. }
  exists m. split; [exact Hm|]. intros i.
  rewrite (insert_run_last _ _ _ i Hm), lookup_empty.
  by destruct (last _).
Qed.

(** Two entries with the id A: the second is the one kept. *)
Lemma neuron_map_keeps_the_last_witness :
  exists m,
    neuron_map [Scenario.neuron "A" 0.1%float false 0 [];
                Scenario.neuron "A" 0.9%float true 1 []] = Ok m
    /\ m !! "A" = Some (Scenario.neuron "A" 0.9%float true 1 []).
Proof.
  destruct (proj2 (neuron_map_keeps_the_last
                     [Scenario.neuron "A" 0.1%float false 0 [];
                      Scenario.neuron "A" 0.9%float true 1 []]))
    as (m & Hm & Hlast).
  - intros n Hn. apply elem_of_cons in Hn as [->|Hn]; [by eexists|].
    apply list_elem_of_singleton in Hn as ->. by eexists.
  - exists m. split; [exact Hm|]. rewrite Hlast. reflexivity.
Defined.

End NeuronMap.
(** ** Drawing a frame in 3D *)

Section DrawFrame.
Import Graph Wiring Layered Spike3D.

Lemma place_from_is_Some at_ i ns (pos : gmap string position) n :
  is_Some (place_from at_ i ns pos !! n) <-> n ∈ ns \/ is_Some (pos !! n).
Proof.
  revert i pos. induction ns as [|x ns IH]; intros i pos; simpl.
  - rewrite elem_of_nil. tauto.
  - rewrite IH, elem_of_cons. destruct (decide (x = n)) as [->|Hne].
    + rewrite lookup_insert_eq. split; [by left; left | by right; eexists].
    + rewrite lookup_insert_ne by done. split; [tauto|].
      intros [[?|?]|?]; [by subst | by left | by right].
Qed.

(** The layered layout places the nodes of the graph and nothing else. *)
Lemma layout_covers np_cos np_sin G n :
  is_Some (_calculate_3d_layout np_cos np_sin G !! n) <-> n ∈ nodes G.
Proof.
  unfold _calculate_3d_layout. rewrite !place_from_is_Some.
  rewrite elem_of_output_nodes, elem_of_hidden_nodes, elem_of_input_nodes.
  rewrite lookup_empty. split.
  - intros [?|[?|[?|[? ?]]]]; tauto || done.
  - intros Hn. destruct (decide (out_degree G n = 0%nat)); [tauto|].
    destruct (decide (in_degree G n = 0%nat)); tauto.
Qed.

Lemma build_graph_3d_sound ts G : _build_graph ts = Ok G -> sound G.
Proof.
  unfold _build_graph. destruct ts as [|data ts]; [discriminate|]. intros Hrun.
  apply bind_ok in Hrun as (ns & _ & Hrun).
  apply bind_ok in Hrun as (G1 & Hnodes & Hrun).
  apply bind_ok in Hrun as (ns' & _ & Hedges).
  destruct (add_edges_spec _ _ _ Hedges) as (Hs & _). apply Hs.
  eapply (for_each_invariant sound); [| exact sound_empty | exact Hnodes].
  intros G0 n G2 _ (Hn & Hk & Hends) Hstep. cbv beta in Hstep.
  apply bind_ok in Hstep as (j & _ & Hstep). injection Hstep as <-.
  split; [by apply touch_NoDup|]. split; [done|].
  intros e He. destruct (Hends e He). simpl. rewrite !touch_elem. tauto.
Qed.

Lemma sound_edge G e :
  sound G -> e ∈ edges G ->
  fst e ∈ nodes G /\ snd e ∈ nodes G /\ exists w, weight G e = Ok w.
Proof.
  intros HG He. rewrite (edges_perm G HG) in He.
  destruct HG as (_ & _ & Hends). destruct (Hends e He) as [Hu Hv].
  split; [done|]. split; [done|]. unfold weight.
  destruct (decide (fst e ∈ nodes G)); [|done].
  apply lookup_weight_is_Some in He as [w Hw]. rewrite Hw. by exists w.
Qed.

Lemma index_of_lookup (l : list string) k n :
  NoDup l -> l !! k = Some n -> index_of n l = k.
Proof.
  intros Hnd. revert k. induction Hnd as [|x l Hx Hnd IH]; intros k Hk; [done|].
  simpl. destruct k as [|k]; simpl in Hk.
  - injection Hk as ->. by destruct (decide (n = n)).
  - destruct (decide (x = n)) as [->|Hne].
    + exfalso. apply Hx. by eapply list_elem_of_lookup_2.
    + f_equal. by apply IH.
Qed.

Lemma neuron_map_of_ids ns :
  Forall (fun n => is_Some (n_id n)) ns -> exists m, Detector.neuron_map ns = Ok m.
Proof.
  intros Hids. apply for_each_total. intros m n Hn.
  rewrite Forall_forall in Hids. destruct (Hids n Hn) as [i ->]. simpl. eauto.
Qed.

Lemma node_marks_total self m :
  (forall n, n ∈ nodes (G self) -> is_Some (pos_3d self !! n)) ->
  exists nms,
    map_result (node_mark self m) (nodes (G self)) = Ok nms
    /\ Forall2 (fun n mk =>
                  pos_3d self !! n = Some (node_pos mk)
                  /\ (node_color mk = Network.Red
                      <-> get_or m n n_spiked false = true))
               (nodes (G self)) nms.
Proof.
  intros Hpos.
  destruct (map_result_total (node_mark self m) (nodes (G self))) as [nms Hnms].
  { intros n Hn. destruct (Hpos n Hn) as [pos Hp]. unfold node_mark.
    rewrite Hp. simpl. destruct (get_or m n n_spiked false); eauto. }
  exists nms. split; [done|]. apply map_result_Forall2 in Hnms.
  eapply Forall2_impl; [exact Hnms|]. intros n mk Hmk. unfold node_mark in Hmk.
  destruct (pos_3d self !! n) as [pos|]; simpl in Hmk; [|discriminate].
  destruct (get_or m n n_spiked false); injection Hmk as <-; simpl;
    split; try done; split; done.
Qed.

Lemma edge_marks_total self m :
  sound (G self) ->
  (forall n, n ∈ nodes (G self) -> is_Some (pos_3d self !! n)) ->
  exists ems,
    map_result (edge_mark self m) (edges (G self)) = Ok ems
    /\ Forall2 (fun e mk =>
                  edge_active mk = get_or m (snd e) n_spiked false
                  /\ pos_3d self !! fst e = Some (edge_from mk)
                  /\ pos_3d self !! snd e = Some (edge_to mk))
               (edges (G self)) ems.
Proof.
  intros Hsound Hpos.
  destruct (map_result_total (edge_mark self m) (edges (G self))) as [ems Hems].
  { intros e He. destruct (sound_edge _ e Hsound He) as (Hu & Hv & wt & Hw).
    destruct (Hpos _ Hu) as [pu Hpu]. destruct (Hpos _ Hv) as [pv Hpv].
    unfold edge_mark. rewrite Hpu, Hpv, Hw. simpl.
    destruct (get_or m (snd e) n_spiked false); eauto. }
  exists ems. split; [done|]. apply map_result_Forall2 in Hems.
  eapply Forall2_impl; [exact Hems|]. intros e mk Hmk. unfold edge_mark in Hmk.
  destruct (pos_3d self !! fst e) as [pu|]; simpl in Hmk; [|discriminate].
  destruct (pos_3d self !! snd e) as [pv|]; simpl in Hmk; [|discriminate].
  destruct (weight (G self) e) as [wt|]; simpl in Hmk; [|discriminate].
  destruct (get_or m (snd e) n_spiked false); by injection Hmk as <-.
Qed.

Lemma output_labels_total self m :
  sound (G self) ->
  (forall n, n ∈ nodes (G self) -> is_Some (pos_3d self !! n)) ->
  exists lbs,
    map_result (output_label self m (output_nodes (G self)))
               (output_nodes (G self)) = Ok lbs
    /\ Forall2 (fun n lb =>
                  label_spike_count lb = get_or m n n_spike_count 0
                  /\ pos_3d self !! n = Some (label_pos lb))
               (output_nodes (G self)) lbs
    /\ (forall k lb, lbs !! k = Some lb -> label_digit lb = k).
Proof.
  intros Hsound Hpos.
  destruct (map_result_total (output_label self m (output_nodes (G self)))
                             (output_nodes (G self))) as [lbs Hlbs].
  { intros n Hn. apply elem_of_output_nodes in Hn as [Hn _].
    destruct (Hpos n Hn) as [pos Hp]. unfold output_label.
    rewrite Hp. simpl. eauto. }
  exists lbs. split; [done|]. apply map_result_Forall2 in Hlbs. split.
  { eapply Forall2_impl; [exact Hlbs|]. intros n lb Hlb. unfold output_label in Hlb.
    destruct (pos_3d self !! n) as [pos|]; simpl in Hlb; [|discriminate].
    by injection Hlb as <-. }
  intros k lb Hk.
  destruct (Forall2_lookup_r _ _ _ _ _ Hlbs Hk) as (n & Hn & Hlb).
  unfold output_label in Hlb.
  destruct (pos_3d self !! n) as [pos|]; simpl in Hlb; [|discriminate].
  injection Hlb as <-. simpl. apply index_of_lookup; [|done].
  apply NoDup_filter, Hsound.
Qed.

(** A constructed animator has a sound graph, every node of which has a
    position, and at least one time step. *)
Lemma init_3d_inv w np_cos np_sin base self :
  __init__ w np_cos np_sin base = Ok self ->
  sound (G self)
  /\ (forall n, n ∈ nodes (G self) -> is_Some (pos_3d self !! n))
  /\ time_steps self <> [].
Proof.
  intros Hinit. unfold __init__ in Hinit.
  apply bind_ok in Hinit as (ts & _ & Hinit).
  apply bind_ok in Hinit as (G0 & HG & Hself). injection Hself as <-. simpl.
  split; [by eapply build_graph_3d_sound|]. split.
  - intros n Hn. by apply layout_covers.
  - intros ->. discriminate.
Qed.

Lemma draw_frame_ok self step_idx data ns m :
  sound (G self) ->
  (forall n, n ∈ nodes (G self) -> is_Some (pos_3d self !! n)) ->
  time_steps self !! step_idx = Some data ->
  d_neurons data = Some ns -> Detector.neuron_map ns = Ok m ->
  exists fr,
    _draw_frame self step_idx = Ok fr
    /\ title_step fr = step_idx
    /\ Forall2 (fun n mk =>
                  pos_3d self !! n = Some (node_pos mk)
                  /\ (node_color mk = Network.Red
                      <-> get_or m n n_spiked false = true))
               (nodes (G self)) (node_marks fr)
    /\ Forall2 (fun e mk =>
                  edge_active mk = get_or m (snd e) n_spiked false
                  /\ pos_3d self !! fst e = Some (edge_from mk)
                  /\ pos_3d self !! snd e = Some (edge_to mk))
               (edges (G self)) (edge_marks fr)
    /\ Forall2 (fun n lb =>
                  label_spike_count lb = get_or m n n_spike_count 0
                  /\ pos_3d self !! n = Some (label_pos lb))
               (output_nodes (G self)) (output_labels fr)
    /\ (forall k lb, output_labels fr !! k = Some lb -> label_digit lb = k).
Proof.
  intros Hsound Hpos Hdata Hns Hm.
  destruct (node_marks_total self m Hpos) as (nms & Hnms & Hn).
  destruct (edge_marks_total self m Hsound Hpos) as (ems & Hems & He).
  destruct (output_labels_total self m Hsound Hpos) as (lbs & Hlbs & Hl & Hd).
  unfold _draw_frame, _get_neuron_data. rewrite Hdata, Hns. simpl.
  rewrite Hm. simpl. rewrite Hnms. simpl. rewrite Hems. simpl.
  rewrite Hlbs. simpl. eexists. split; [reflexivity|]. by simpl.
Qed.

(** X12. What [_draw_frame] plots for a constructed animator. For a step
    index in range whose frame has its neurons, each with an id, the call
    returns: one mark per node of the graph of the first frame, at the
    node's layout position and red exactly when the frame has the neuron
    spiked; one mark per edge, active exactly when the frame has the
    neuron at its target spiked (an absent neuron or flag counts as not
    spiked); and one label per output node, numbered 0, 1, 2, ... in node
    order, with the frame's spike count of the node or 0. *)
Theorem draw_frame_shows_the_graph w np_cos np_sin base self step_idx data ns m :
  __init__ w np_cos np_sin base = Ok self ->
  time_steps self !! step_idx = Some data ->
  d_neurons data = Some ns -> Detector.neuron_map ns = Ok m ->
  exists fr,
    _draw_frame self step_idx = Ok fr
    /\ title_step fr = step_idx
    /\ Forall2 (fun n mk =>
                  pos_3d self !! n = Some (node_pos mk)
                  /\ (node_color mk = Network.Red
                      <-> get_or m n n_spiked false = true))
               (nodes (G self)) (node_marks fr)
    /\ Forall2 (fun e mk =>
                  edge_active mk = get_or m (snd e) n_spiked false
                  /\ pos_3d self !! fst e = Some (edge_from mk)
                  /\ pos_3d self !! snd e = Some (edge_to mk))
               (edges (G self)) (edge_marks fr)
    /\ Forall2 (fun n lb =>
                  label_spike_count lb = get_or m n n_spike_count 0
                  /\ pos_3d self !! n = Some (label_pos lb))
               (output_nodes (G self)) (output_labels fr)
    /\ (forall k lb, output_labels fr !! k = Some lb -> label_digit lb = k).
Proof.
  intros Hinit. destruct (init_3d_inv _ _ _ _ _ Hinit) as (Hsound & Hpos & _).
  by apply draw_frame_ok.
Qed.

Lemma draw_frame_shows_the_graph_witness :
  exists self,
    __init__ Scenario.three_steps Scenario.cos_at_zero Scenario.sin_at_zero
             "net_step0.json" = Ok self
    /\ exists fr,
         _draw_frame self 1 = Ok fr
         /\ title_step fr = 1%nat
         /\ (forall k lb, output_labels fr !! k = Some lb -> label_digit lb = k).
Proof.
  eexists. split; [vm_compute; reflexivity|].
  match goal with
  | |- exists fr, _draw_frame ?s _ = _ /\ _ => set (self := s)
  end.
  assert (__init__ Scenario.three_steps Scenario.cos_at_zero
                   Scenario.sin_at_zero "net_step0.json" = Ok self) as Hinit
    by (vm_compute; reflexivity).
  assert (time_steps self !! 1%nat = Some Scenario.ab_curr) as Hstep
    by reflexivity.
  destruct (draw_frame_shows_the_graph _ _ _ _ _ _ _ _ _ Hinit Hstep
              eq_refl eq_refl)
    as (fr & Hfr & Ht & _ & _ & _ & Hd).
  exists fr. split; [exact Hfr|]. split; [exact Ht | exact Hd].
Defined.

End DrawFrame.
(** ** Ticks of the 3D animations *)

Section Ticks3D.
Import Graph Wiring Layered.

Lemma get_neuron_data_total (ts : list Data) k :
  Forall (fun d => exists ns, d_neurons d = Some ns
                              /\ Forall (fun n => is_Some (n_id n)) ns) ts ->
  (k < length ts)%nat ->
  exists data ns m,
    ts !! k = Some data /\ d_neurons data = Some ns
    /\ Detector.neuron_map ns = Ok m.
Proof.
  intros Hall Hk. destruct (lookup_lt_is_Some_2 ts k Hk) as [data Hdata].
  rewrite Forall_forall in Hall.
  destruct (Hall data) as (ns & Hns & Hids); [by eapply list_elem_of_lookup_2|].
  destruct (neuron_map_of_ids ns Hids) as [m Hm]. by exists data, ns, m.
Qed.

(** X13. The 3D animation of a recording whose frames all have their
    neurons, each with an id, never raises: every tick of a constructed
    animator draws the frame of index [frame mod length] (looping) or
    [min(frame, length-1)] (not looping), with one mark per node and per
    edge of the graph of the first frame. Nothing catches what a tick
    raises: a frame without its ['neurons'] makes the tick that shows it
    raise [KeyError('neurons')]. *)
Theorem animation_3d_ticks w np_cos np_sin base self :
  Spike3D.__init__ w np_cos np_sin base = Ok self ->
  (Forall (fun d => exists ns, d_neurons d = Some ns
                               /\ Forall (fun n => is_Some (n_id n)) ns)
          (Spike3D.time_steps self) ->
   forall loop frame, exists fr,
     Spike3D.update_frame loop frame self = Ok fr
     /\ Spike3D.title_step fr
        = (if loop then frame mod length (Spike3D.time_steps self)
           else Nat.min frame (length (Spike3D.time_steps self) - 1))%nat
     /\ length (Spike3D.node_marks fr) = length (nodes (Spike3D.G self))
     /\ length (Spike3D.edge_marks fr) = length (edges (Spike3D.G self)))
  /\ (forall k data,
        Spike3D.time_steps self !! k = Some data -> d_neurons data = None ->
        Spike3D.update_frame false k self = Raise (KeyError "neurons")).
Proof.
  intros Hinit. destruct (init_3d_inv _ _ _ _ _ Hinit) as (Hsound & Hpos & Hne).
  split.
  - intros Hall loop frame. unfold Spike3D.update_frame.
    destruct (step_index_total loop frame (length (Spike3D.time_steps self)))
      as (i & -> & Hi & Hidx); [by destruct (Spike3D.time_steps self)|].
    simpl. destruct (get_neuron_data_total _ i Hall Hi)
      as (data & ns & m & Hdata & Hns & Hm).
    destruct (draw_frame_ok self i data ns m Hsound Hpos Hdata Hns Hm)
      as (fr & Hfr & Ht & Hn & He & _).
    exists fr. split; [done|]. split; [congruence|].
    split; symmetry; by eapply Forall2_length.
  - intros k data Hdata Hnone. unfold Spike3D.update_frame.
    rewrite step_index_in_range by (by eapply lookup_lt_Some). simpl.
    unfold Spike3D._draw_frame, Spike3D._get_neuron_data.
    by rewrite Hdata, Hnone.
Qed.

Lemma animation_3d_ticks_witness :
  exists self,
    Spike3D.__init__ Scenario.three_steps Scenario.cos_at_zero
                     Scenario.sin_at_zero "net_step0.json" = Ok self
    /\ exists fr, Spike3D.update_frame true 7 self = Ok fr
                  /\ Spike3D.title_step fr = 1%nat.
Proof.
  eexists. split; [vm_compute; reflexivity|].
  match goal with
  | |- exists fr, Spike3D.update_frame _ _ ?s = _ /\ _ => set (self := s)
  end.
  assert (Spike3D.__init__ Scenario.three_steps Scenario.cos_at_zero
            Scenario.sin_at_zero "net_step0.json" = Ok self) as Hinit
    by (vm_compute; reflexivity).
  assert (Forall (fun d => exists ns, d_neurons d = Some ns
                             /\ Forall (fun n => is_Some (n_id n)) ns)
                 (Spike3D.time_steps self)) as Hall.
  { repeat constructor; eexists; (split; [reflexivity|]);
      repeat constructor; by eexists. }
  destruct (proj1 (animation_3d_ticks _ _ _ _ _ Hinit) Hall true 7%nat)
    as (fr & Hfr & Ht & _).
  exists fr. split; [exact Hfr | exact Ht].
Defined.

End Ticks3D.

(** ** The training animation *)

Section TrainingFrames.
Import Graph Wiring Layered Training.

Lemma init_training_inv w np_cos np_sin base self :
  __init__ w np_cos np_sin base = Ok self ->
  sound (G self)
  /\ (forall n, n ∈ nodes (G self) -> is_Some (pos_3d self !! n))
  /\ time_steps self <> []
  /\ Forall2 (fun data info => Loader.json_load w (Loader.file info) = Ok data)
             (time_steps self) (frame_info self).
Proof.
  intros Hinit. unfold __init__ in Hinit.
  apply bind_ok in Hinit as ([ts infos] & Hload & Hinit).
  apply bind_ok in Hinit as (G0 & HG & Hself). injection Hself as <-. simpl in *.
  split; [by eapply build_graph_3d_sound|]. split.
  { intros n Hn. by apply layout_covers. }
  split; [intros ->; discriminate|].
  unfold Loader._load_training_frames in Hload.
  apply bind_ok in Hload as (files & _ & Hload).
  destruct files as [|pf files]; [discriminate|].
  apply bind_ok in Hload as (frames & Hframes & Hload).
  injection Hload as <- <-. apply map_result_Forall2 in Hframes.
  assert (Forall2 (fun data info =>
                     Loader.json_load w (Loader.file info) = Ok data)
                  frames (Loader.info_of <$> pf :: files)) as Hal; [|exact Hal].
  apply Forall2_fmap_r, Forall2_flip.
  eapply Forall2_impl; [exact Hframes|]. intros [[[e d] s] f] data Hd. exact Hd.
Qed.

Lemma training_labels_total self m info :
  sound (G self) ->
  (forall n, n ∈ nodes (G self) -> is_Some (pos_3d self !! n)) ->
  exists lbs,
    map_result (output_label self m info (output_nodes (G self)))
               (output_nodes (G self)) = Ok lbs
    /\ length lbs = length (output_nodes (G self))
    /\ forall j lb, lbs !! j = Some lb ->
         label_digit lb = j
         /\ (label_highlight lb = true <-> Z.of_nat j = Loader.digit info)
         /\ exists n, output_nodes (G self) !! j = Some n
                      /\ label_spike_count lb
                         = Spike3D.get_or m n n_spike_count 0.
Proof.
  intros Hsound Hpos.
  destruct (map_result_total (output_label self m info (output_nodes (G self)))
                             (output_nodes (G self))) as [lbs Hlbs].
  { intros n Hn. apply elem_of_output_nodes in Hn as [Hn _].
    destruct (Hpos n Hn) as [pos Hp]. unfold output_label.
    rewrite Hp. simpl. eauto. }
  exists lbs. split; [done|]. apply map_result_Forall2 in Hlbs.
  split; [symmetry; by eapply Forall2_length|].
  intros j lb Hj.
  destruct (Forall2_lookup_r _ _ _ _ _ Hlbs Hj) as (n & Hn & Hlb).
  unfold output_label in Hlb.
  destruct (pos_3d self !! n) as [pos|]; simpl in Hlb; [|discriminate].
  injection Hlb as <-. simpl.
  rewrite (index_of_lookup _ j n) by (done || apply NoDup_filter, Hsound).
  split; [done|]. split; [apply bool_decide_eq_true | by exists n].
Qed.

Lemma training_draw_ok w np_cos np_sin base self k data ns m :
  __init__ w np_cos np_sin base = Ok self ->
  time_steps self !! k = Some data ->
  d_neurons data = Some ns -> Detector.neuron_map ns = Ok m ->
  exists fr info,
    frame_info self !! k = Some info
    /\ Loader.json_load w (Loader.file info) = Ok data
    /\ _draw_frame self k = Ok fr
    /\ title_epoch fr = Loader.epoch info
    /\ title_digit fr = Loader.digit info
    /\ title_step fr = Loader.step info
    /\ length (node_marks fr) = length (nodes (G self))
    /\ length (edge_marks fr) = length (edges (G self))
    /\ length (output_labels fr) = length (output_nodes (G self))
    /\ forall j lb, output_labels fr !! j = Some lb ->
         label_digit lb = j
         /\ (label_highlight lb = true <-> Z.of_nat j = Loader.digit info)
         /\ exists n, output_nodes (G self) !! j = Some n
                      /\ label_spike_count lb
                         = Spike3D.get_or m n n_spike_count 0.
Proof.
  intros Hinit Hdata Hns Hm.
  destruct (init_training_inv _ _ _ _ _ Hinit) as (Hsound & Hpos & _ & Hal).
  destruct (Forall2_lookup_l _ _ _ _ _ Hal Hdata) as (info & Hinfo & Hfile).
  destruct (node_marks_total (as_3d self) m Hpos) as (nms & Hnms & Hn).
  destruct (edge_marks_total (as_3d self) m Hsound Hpos) as (ems & Hems & He).
  destruct (training_labels_total self m info Hsound Hpos)
    as (lbs & Hlbs & Hlen & Hl).
  exists (mkFrame nms ems lbs (Loader.epoch info) (Loader.digit info)
                  (Loader.step info)), info.
  split; [done|]. split; [done|]. split.
  { unfold _draw_frame, Spike3D._get_neuron_data, info_at.
    rewrite Hdata, Hns. simpl. rewrite Hm. simpl. rewrite Hinfo. simpl.
    simpl in Hnms, Hems. rewrite Hnms. simpl. rewrite Hems. simpl.
    rewrite Hlbs. reflexivity. }
  simpl. split; [done|]. split; [done|]. split; [done|].
  split; [symmetry; by eapply Forall2_length|].
  split; [symmetry; by eapply Forall2_length|]. done.
Qed.

(** X14. What the training animator draws. For a constructed animator
    and a frame index in range whose frame has its neurons, each with an
    id, [_draw_frame] returns; its title names the epoch, digit and step
    of the file the frame was read from; there is one label per output
    node, numbered 0, 1, 2, ... in node order with the frame's spike count
    of the node or 0; and a label is highlighted exactly when its number
    is the frame's digit, so at most one label is highlighted, and none
    when the digit is not below the number of output nodes. *)
Theorem training_frame_highlights_its_digit
    w np_cos np_sin base self k data ns m :
  __init__ w np_cos np_sin base = Ok self ->
  time_steps self !! k = Some data ->
  d_neurons data = Some ns -> Detector.neuron_map ns = Ok m ->
  exists fr info,
    frame_info self !! k = Some info
    /\ Loader.json_load w (Loader.file info) = Ok data
    /\ _draw_frame self k = Ok fr
    /\ title_epoch fr = Loader.epoch info
    /\ title_digit fr = Loader.digit info
    /\ title_step fr = Loader.step info
    /\ length (output_labels fr) = length (output_nodes (G self))
    /\ (forall j lb, output_labels fr !! j = Some lb ->
          label_digit lb = j
          /\ (label_highlight lb = true <-> Z.of_nat j = Loader.digit info)
          /\ exists n, output_nodes (G self) !! j = Some n
                       /\ label_spike_count lb
                          = Spike3D.get_or m n n_spike_count 0)
    /\ (forall i j lbi lbj,
          output_labels fr !! i = Some lbi -> output_labels fr !! j = Some lbj ->
          label_highlight lbi = true -> label_highlight lbj = true -> i = j)
    /\ ((Z.of_nat (length (output_nodes (G self))) <= Loader.digit info)%Z ->
        Forall (fun lb => label_highlight lb = false) (output_labels fr)).
Proof.
  intros Hinit Hdata Hns Hm.
  destruct (training_draw_ok _ _ _ _ _ _ _ _ _ Hinit Hdata Hns Hm)
    as (fr & info & Hinfo & Hfile & Hfr & He & Hd & Hs & _ & _ & Hlen & Hl).
  exists fr, info. do 7 (split; [done|]). split; [exact Hl|]. split.
  - intros i j lbi lbj Hi Hj Hhi Hhj.
    destruct (Hl i lbi Hi) as (_ & Hii & _). destruct (Hl j lbj Hj) as (_ & Hjj & _).
    apply Hii in Hhi. apply Hjj in Hhj. lia.
  - intros Hbig. apply Forall_lookup. intros j lb Hj.
    destruct (Hl j lb Hj) as (_ & Hjj & _).
    apply lookup_lt_Some in Hj. rewrite Hlen in Hj.
    destruct (label_highlight lb); [|done]. destruct Hjj as [Hjj _].
    specialize (Hjj eq_refl). lia.
Qed.

Lemma training_frame_highlights_its_digit_witness :
  exists self,
    __init__ Scenario.training_run Scenario.cos_at_zero Scenario.sin_at_zero
             "data/json/training_epoch0_test_digit0_step0.json" = Ok self
    /\ exists fr,
         _draw_frame self 2 = Ok fr
         /\ title_digit fr = 1%Z
         /\ Forall (fun lb => label_highlight lb = false) (output_labels fr).
Proof.
  eexists. split; [vm_compute; reflexivity|].
  match goal with
  | |- exists fr, _draw_frame ?s _ = _ /\ _ => set (self := s)
  end.
  assert (__init__ Scenario.training_run Scenario.cos_at_zero
            Scenario.sin_at_zero
            "data/json/training_epoch0_test_digit0_step0.json" = Ok self)
    as Hinit by (vm_compute; reflexivity).
  assert (time_steps self !! 2%nat = Some Scenario.ab_curr) as Hstep
    by reflexivity.
  destruct (training_frame_highlights_its_digit _ _ _ _ _ _ _ _ _ Hinit Hstep
              eq_refl eq_refl)
    as (fr & info & Hinfo & _ & Hfr & _ & Hd & _ & _ & _ & _ & Hnone).
  exists fr. split; [exact Hfr|].
  assert (info = Loader.mkInfo 0 1 0
                   "data/json/training_epoch0_test_digit1_step0.json") as ->.
  { apply (inj Some). rewrite <- Hinfo. reflexivity. }
  split; [exact Hd|]. apply Hnone. vm_compute. discriminate.
Defined.

(** X15. The training animation of a run whose frames all have their
    neurons, each with an id, never raises: every tick of a constructed
    animator draws the frame of index [frame mod length] (looping) or
    [min(frame, length-1)] (not looping), titled with the epoch, digit
    and step of that frame's file, with one mark per node and per edge of
    the graph of the first frame. *)
Theorem training_animation_ticks w np_cos np_sin base self loop frame :
  __init__ w np_cos np_sin base = Ok self ->
  Forall (fun d => exists ns, d_neurons d = Some ns
                              /\ Forall (fun n => is_Some (n_id n)) ns)
         (time_steps self) ->
  exists fr info,
    update_frame loop frame self = Ok fr
    /\ frame_info self
         !! (if loop then frame mod length (time_steps self)
             else Nat.min frame (length (time_steps self) - 1))%nat
       = Some info
    /\ title_epoch fr = Loader.epoch info
    /\ title_digit fr = Loader.digit info
    /\ title_step fr = Loader.step info
    /\ length (node_marks fr) = length (nodes (G self))
    /\ length (edge_marks fr) = length (edges (G self)).
Proof.
  intros Hinit Hall. unfold update_frame.
  destruct (init_training_inv _ _ _ _ _ Hinit) as (_ & _ & Hne & _).
  destruct (step_index_total loop frame (length (time_steps self)))
    as (i & -> & Hi & Hidx); [by destruct (time_steps self)|].
  simpl. destruct (get_neuron_data_total _ i Hall Hi)
    as (data & ns & m & Hdata & Hns & Hm).
  destruct (training_draw_ok _ _ _ _ _ _ _ _ _ Hinit Hdata Hns Hm)
    as (fr & info & Hinfo & _ & Hfr & He & Hd & Hs & Hn & Hed & _).
  exists fr, info. rewrite <- Hidx. done.
Qed.

Lemma training_animation_ticks_witness :
  exists self,
    __init__ Scenario.training_run Scenario.cos_at_zero Scenario.sin_at_zero
             "data/json/training_epoch0_test_digit0_step0.json" = Ok self
    /\ exists fr, update_frame false 9 self = Ok fr
                  /\ title_epoch fr = 1%Z.
Proof.
  eexists. split; [vm_compute; reflexivity|].
  match goal with
  | |- exists fr, update_frame _ _ ?s = _ /\ _ => set (self := s)
  end.
  assert (__init__ Scenario.training_run Scenario.cos_at_zero
            Scenario.sin_at_zero
            "data/json/training_epoch0_test_digit0_step0.json" = Ok self)
    as Hinit by (vm_compute; reflexivity).
  assert (Forall (fun d => exists ns, d_neurons d = Some ns
                             /\ Forall (fun n => is_Some (n_id n)) ns)
                 (time_steps self)) as Hall.
  { repeat constructor; eexists; (split; [reflexivity|]);
      repeat constructor; by eexists. }
  destruct (training_animation_ticks _ _ _ _ _ false 9%nat Hinit Hall)
    as (fr & info & Hfr & Hinfo & He & _).
  exists fr. split; [exact Hfr|]. rewrite He.
  assert (info = Loader.mkInfo 1 0 0
                   "data/json/training_epoch1_test_digit0_step0.json") as ->.
  { apply (inj Some). rewrite <- Hinfo. reflexivity. }
  reflexivity.
Defined.

End TrainingFrames.
(** ** The layouts of the 3D visualizer *)

Section Layouts3D.
Import Graph Wiring Layered Network3D.

Variable spring_layout : DiGraph -> gmap Id (float * float).
Variable np_linspace : float -> float -> nat -> bool -> list float.
Variables np_cos np_sin : float -> float.

Lemma place_each_spec at_ ns i (pos0 : gmap Id position) :
  NoDup ns ->
  (forall k n, ns !! k = Some n -> exists p, at_ (i + k)%nat n = Ok p) ->
  exists pos,
    place_each at_ i ns pos0 = Ok pos
    /\ (forall k n, ns !! k = Some n ->
          exists p, at_ (i + k)%nat n = Ok p /\ pos !! n = Some p)
    /\ (forall n, n ∉ ns -> pos !! n = pos0 !! n).
Proof.
  revert i pos0. induction ns as [|x ns IH]; intros i pos0 Hnd Hat; simpl.
  { exists pos0. split; [done|]. split; [intros k n Hk; done | done]. }
  apply NoDup_cons in Hnd as [Hx Hnd].
  destruct (Hat 0%nat x eq_refl) as [p Hp]. rewrite Nat.add_0_r in Hp.
  rewrite Hp. simpl.
  destruct (IH (S i) (<[x := p]> pos0) Hnd) as (pos & Hrun & Hin & Hout).
  { intros k n Hk. destruct (Hat (S k) n Hk) as [q Hq].
    exists q. by rewrite Nat.add_succ_comm. }
  exists pos. split; [done|]. split.
  - intros [|k] n Hk; simpl in Hk.
    + injection Hk as <-. exists p. rewrite Nat.add_0_r. split; [done|].
      rewrite Hout by done. apply lookup_insert_eq.
    + destruct (Hin k n Hk) as (q & Hq & Hpos). exists q.
      by rewrite <- Nat.add_succ_comm.
  - intros n Hn. apply not_elem_of_cons in Hn as [Hne Hn].
    rewrite Hout by done. by apply lookup_insert_ne.
Qed.

Lemma place_each_covers at_ ns :
  NoDup ns ->
  (forall k n, ns !! k = Some n -> exists p, at_ k n = Ok p) ->
  exists pos,
    place_each at_ 0 ns ∅ = Ok pos
    /\ (forall n, is_Some (pos !! n) <-> n ∈ ns)
    /\ (forall k n, ns !! k = Some n ->
          exists p, at_ k n = Ok p /\ pos !! n = Some p).
Proof.
  intros Hnd Hat.
  destruct (place_each_spec at_ ns 0 ∅ Hnd Hat) as (pos' & Hrun & Hin & Hout).
  exists pos'. split; [done|]. split; [|exact Hin].
  intros n. split.
  - intros Hsome. destruct (decide (n ∈ ns)) as [|Hn]; [done|].
    rewrite (Hout n Hn), lookup_empty in Hsome. by destruct Hsome.
  - intros Hn. apply list_elem_of_lookup_1 in Hn as [k Hk].
    destruct (Hin k n Hk) as (p & _ & Hp). by exists p.
Qed.

Lemma item_total (xs : list float) i : (i < length xs)%nat -> exists x, item xs i = Ok x.
Proof.
  intros Hi. unfold item. destruct (lookup_lt_is_Some_2 xs i Hi) as [x ->].
  by exists x.
Qed.

Lemma layer_z_cases G n :
  (in_degree G n = 0%nat -> layer_z G n = 0%float)
  /\ (in_degree G n <> 0%nat -> out_degree G n = 0%nat -> layer_z G n = 2%float)
  /\ (in_degree G n <> 0%nat -> out_degree G n <> 0%nat -> layer_z G n = 1%float).
Proof.
  unfold layer_z.
  destruct (decide (in_degree G n = 0%nat)), (decide (out_degree G n = 0%nat));
    tauto.
Qed.

Lemma layout_total layout_type G :
  NoDup (nodes G) ->
  (forall n, n ∈ nodes G -> is_Some (spring_layout G !! n)) ->
  (forall a b num e, length (np_linspace a b num e) = num) ->
  layout_type ∈ ["spring"; "circular"; "layered"; "spherical"] ->
  exists pos,
    _calculate_3d_layout spring_layout np_linspace np_cos np_sin layout_type G
    = Ok pos
    /\ (forall n, is_Some (pos !! n) <-> n ∈ nodes G)
    /\ (layout_type = "spring" \/ layout_type = "circular" ->
        forall n p, pos !! n = Some p -> snd p = layer_z G n)
    /\ (layout_type = "layered" ->
        pos = Layered._calculate_3d_layout np_cos np_sin G).
Proof.
  intros Hnd Hspring Hlin Hknown. unfold _calculate_3d_layout.
  assert (forall at_ z,
            (forall k n, nodes G !! k = Some n ->
               exists p, at_ k n = Ok p /\ (z -> snd p = layer_z G n)) ->
            exists pos,
              place_each at_ 0 (nodes G) ∅ = Ok pos
              /\ (forall n, is_Some (pos !! n) <-> n ∈ nodes G)
              /\ (z -> forall n p, pos !! n = Some p -> snd p = layer_z G n))
    as Hplace.
  { intros at_ z Hat.
    destruct (place_each_covers at_ (nodes G) Hnd) as (pos & Hrun & Hcov & Hin).
    { intros k n Hk. destruct (Hat k n Hk) as (p & Hp & _). by exists p. }
    exists pos. split; [done|]. split; [done|].
    intros Hz n p Hp. assert (n ∈ nodes G) as Hn by (apply Hcov; by exists p).
    apply list_elem_of_lookup_1 in Hn as [k Hk].
    destruct (Hin k n Hk) as (q & Hq & Hpos).
    destruct (Hat k n Hk) as (q' & Hq' & Hzq).
    assert (p = q') as -> by (unfold position in *; congruence). by apply Hzq. }
  destruct (decide (layout_type = "spring")) as [->|Hs].
  { destruct (Hplace (spring_position G (spring_layout G)) True)
      as (pos & Hrun & Hcov & Hz).
    { intros k n Hk. unfold spring_position.
      destruct (Hspring n) as [xy ->]; [by eapply list_elem_of_lookup_2|].
      simpl. eauto. }
    exists pos. split; [done|]. split; [done|]. split; [auto | done]. }
  destruct (decide (layout_type = "circular")) as [->|Hc].
  { destruct (Hplace (circular_position np_cos np_sin G
                        (np_linspace 0%float (2 * np_pi)%float
                                     (length (nodes G)) false)) True)
      as (pos & Hrun & Hcov & Hz).
    { intros k n Hk. unfold circular_position.
      destruct (item_total (np_linspace 0%float (2 * np_pi)%float
                                        (length (nodes G)) false) k)
        as [a ->]; [rewrite Hlin; by eapply lookup_lt_Some|].
      simpl. eauto. }
    exists pos. split; [done|]. split; [done|]. split; [auto | done]. }
  destruct (decide (layout_type = "layered")) as [->|Hl].
  { eexists. split; [reflexivity|]. split; [apply layout_covers|].
    split; [intros [?|?]; done | done]. }
  destruct (decide (layout_type = "spherical")) as [->|Hsp].
  { destruct (Hplace (spherical_position np_cos np_sin
                        (np_linspace 0%float np_pi (length (nodes G)) true)
                        (np_linspace 0%float (2 * np_pi)%float
                                     (length (nodes G)) true)) False)
      as (pos & Hrun & Hcov & _).
    { intros k n Hk. unfold spherical_position.
      destruct (item_total (np_linspace 0%float np_pi (length (nodes G)) true) k)
        as [a ->]; [rewrite Hlin; by eapply lookup_lt_Some|].
      destruct (item_total (np_linspace 0%float (2 * np_pi)%float
                                        (length (nodes G)) true) k)
        as [b ->]; [rewrite Hlin; by eapply lookup_lt_Some|].
      simpl. eexists. split; [reflexivity | done]. }
    exists pos. split; [done|]. split; [done|]. split; [intros [?|?]; done | done]. }
  exfalso. rewrite !elem_of_cons, elem_of_nil in Hknown. tauto.
Qed.

Lemma layout_unknown layout_type G :
  layout_type ∉ ["spring"; "circular"; "layered"; "spherical"] ->
  _calculate_3d_layout spring_layout np_linspace np_cos np_sin layout_type G
  = Raise (ValueError ("Unknown layout type: " +:+ layout_type)).
Proof.
  intros Hunknown. rewrite !not_elem_of_cons in Hunknown.
  destruct Hunknown as (Hs & Hc & Hl & Hsp & _). unfold _calculate_3d_layout.
  destruct (decide (layout_type = "spring")); [done|].
  destruct (decide (layout_type = "circular")); [done|].
  destruct (decide (layout_type = "layered")); [done|].
  by destruct (decide (layout_type = "spherical")).
Qed.

(** X16. The layouts of [Network3DVisualizer._calculate_3d_layout]. With
    a spring layout that places every node and a [linspace] of the length
    asked for, each of the four layout names returns positions for exactly
    the nodes of the graph. The spring and the circular layout set the
    height of a node by its in-degree first: 0 for in-degree 0, else 2
    for out-degree 0, else 1. The layered layout lets the out-degree win:
    2 for out-degree 0, else 0 for in-degree 0, else 1; so a node with no
    edge at all is at height 0 in the first two and at height 2 in the
    layered one. Any other name raises
    [ValueError('Unknown layout type: <name>')]. *)
Theorem layouts_of_the_3d_visualizer layout_type G :
  NoDup (nodes G) ->
  (forall n, n ∈ nodes G -> is_Some (spring_layout G !! n)) ->
  (forall a b num e, length (np_linspace a b num e) = num) ->
  (layout_type ∈ ["spring"; "circular"; "layered"; "spherical"] ->
   exists pos,
     _calculate_3d_layout spring_layout np_linspace np_cos np_sin layout_type G
     = Ok pos
     /\ (forall n, is_Some (pos !! n) <-> n ∈ nodes G)
     /\ (layout_type = "spring" \/ layout_type = "circular" ->
         forall n p, pos !! n = Some p ->
           (in_degree G n = 0%nat -> snd p = 0%float)
           /\ (in_degree G n <> 0%nat -> out_degree G n = 0%nat ->
               snd p = 2%float)
           /\ (in_degree G n <> 0%nat -> out_degree G n <> 0%nat ->
               snd p = 1%float))
     /\ (layout_type = "layered" ->
         forall n p, pos !! n = Some p ->
           (out_degree G n = 0%nat -> snd p = 2%float)
           /\ (out_degree G n <> 0%nat -> in_degree G n = 0%nat ->
               snd p = 0%float)
           /\ (in_degree G n <> 0%nat -> out_degree G n <> 0%nat ->
               snd p = 1%float)))
  /\ (layout_type ∉ ["spring"; "circular"; "layered"; "spherical"] ->
      _calculate_3d_layout spring_layout np_linspace np_cos np_sin layout_type G
      = Raise (ValueError ("Unknown layout type: " +:+ layout_type))).
Proof.
  intros Hnd Hspring Hlin. split.
  - intros Hknown.
    destruct (layout_total layout_type G Hnd Hspring Hlin Hknown)
      as (pos & Hrun & Hcov & Hz & Hl).
    exists pos. split; [done|]. split; [done|]. split.
    + intros Hname n p Hp. rewrite (Hz Hname n p Hp). apply layer_z_cases.
    + intros Hname n p Hp. specialize (Hl Hname). subst pos.
      assert (n ∈ nodes G) as Hn by (apply Hcov; by exists p).
      split; [|split].
      * intros Hout.
        assert (n ∈ output_nodes G) as Ho by (apply elem_of_output_nodes; done).
        apply list_elem_of_lookup_1 in Ho as [i Hi].
        pose proof (output_placed np_cos np_sin G Hnd i n Hi) as Hq.
        assert (p = output_position i) as ->
          by (unfold position in *; congruence).
        done.
      * intros Hout Hin.
        assert (n ∈ input_nodes G) as Ho by (apply elem_of_input_nodes; done).
        apply list_elem_of_lookup_1 in Ho as [i Hi].
        pose proof (input_placed np_cos np_sin G Hnd i n Hi Hout) as Hq.
        assert (p = input_position i) as ->
          by (unfold position in *; congruence).
        done.
      * intros Hin Hout.
        assert (n ∈ hidden_nodes G) as Ho by (apply elem_of_hidden_nodes; done).
        apply list_elem_of_lookup_1 in Ho as [i Hi].
        pose proof (hidden_placed np_cos np_sin G Hnd i n Hi) as Hq.
        assert (p = hidden_position np_cos np_sin (length (hidden_nodes G)) i) as ->
          by (unfold position in *; congruence).
        done.
  - apply layout_unknown.
Qed.

End Layouts3D.
(** ** Drawing the network in 3D *)

Lemma layouts_of_the_3d_visualizer_witness :
  exists pos,
    Network3D._calculate_3d_layout
      Libraries.flat_spring Libraries.level_linspace
      Scenario.cos_at_zero Scenario.sin_at_zero "spring"
      (Graph.add_node "A" Graph.empty) = Ok pos
    /\ forall n, is_Some (pos !! n) <-> n ∈ Graph.nodes (Graph.add_node "A" Graph.empty).
Proof.
  destruct (proj1 (layouts_of_the_3d_visualizer
                     Libraries.flat_spring Libraries.level_linspace
                     Scenario.cos_at_zero Scenario.sin_at_zero "spring"
                     (Graph.add_node "A" Graph.empty)
                     ltac:(apply (bool_decide_unpack _); vm_compute; exact I)
                     ltac:(intros n Hn; apply list_elem_of_singleton in Hn;
                           subst n; by eexists)
                     ltac:(intros; apply length_replicate))
                  ltac:(left))
    as (pos & Hrun & Hcov & _).
  exists pos. split; [exact Hrun | exact Hcov].
Defined.

Section Draw3D.
Import Graph Wiring Layered Network3D.

Variable spring_layout : DiGraph -> gmap Id (float * float).
Variable np_linspace : float -> float -> nat -> bool -> list float.
Variables np_cos np_sin : float -> float.

Lemma map_result_first_error {A B} (f : A -> result B) l e :
  (forall x, x ∈ l -> (exists y, f x = Ok y) \/ f x = Raise e) ->
  (exists x, x ∈ l /\ f x = Raise e) -> map_result f l = Raise e.
Proof.
  induction l as [|x l IH]; intros Hall (z & Hz & Hfz);
    [by apply elem_of_nil in Hz|].
  simpl. destruct (Hall x) as [[y Hy]|Hx]; [by left| |by rewrite Hx].
  rewrite Hy. simpl. rewrite IH; [done| |].
  - intros x' Hx'. apply Hall. by right.
  - apply elem_of_cons in Hz as [->|Hz]; [congruence|]. by exists z.
Qed.

Lemma build_graph_first_id d G n ns :
  Network._build_graph d = Ok G -> d_neurons d = Some (n :: ns) ->
  exists i, n_id n = Some i.
Proof.
  unfold Network._build_graph. intros Hrun Hns. rewrite Hns in Hrun.
  simpl in Hrun. apply bind_ok in Hrun as (G1 & Hnodes & _).
  unfold Network.add_nodes in Hnodes. simpl in Hnodes.
  apply bind_ok in Hnodes as (G0 & Hstep & _).
  apply bind_ok in Hstep as (i & Hi & _).
  destruct (n_id n) as [j|]; [by exists j | discriminate].
Qed.

(** X17. What [draw_3d_network] does with the graph of a snapshot, for a
    spring layout that places every node and a [linspace] of the length
    asked for. An unknown layout name raises its [ValueError] before any
    node is read. With a known name: a snapshot with no neurons raises
    the [ValueError] of [max] of an empty list, since the axis limits are
    taken without a guard; a connection to an id that no neuron has raises
    [KeyError('potential')], the node that [add_edge] made for it having no
    attributes; otherwise the call returns one mark per node, in node
    order, red exactly when the node's [spiked] attribute is true, one
    mark per edge, and the labels of all nodes or none. *)
Theorem draw_3d_network_outcomes
    layout_type show_labels node_size_scale edge_width_scale data G ns :
  Network._build_graph data = Ok G -> d_neurons data = Some ns ->
  (forall n, n ∈ nodes G -> is_Some (spring_layout G !! n)) ->
  (forall a b num e, length (np_linspace a b num e) = num) ->
  let draw :=
    draw_3d_network spring_layout np_linspace np_cos np_sin layout_type
                    show_labels node_size_scale edge_width_scale G in
  (layout_type ∉ ["spring"; "circular"; "layered"; "spherical"] ->
   draw = Raise (ValueError ("Unknown layout type: " +:+ layout_type)))
  /\ (layout_type ∈ ["spring"; "circular"; "layered"; "spherical"] ->
      (ns = [] -> draw = Raise empty_max)
      /\ ((exists e, connection ns e /\ snd e ∉ ids ns) ->
          draw = Raise (KeyError "potential"))
      /\ (ns <> [] -> (forall e, connection ns e -> snd e ∈ ids ns) ->
          exists scene,
            draw = Ok scene
            /\ node_id <$> node_marks scene = nodes G
            /\ length (edge_marks scene) = length (edges G)
            /\ length (labels scene)
               = (if show_labels then length (nodes G) else 0%nat)
            /\ Forall (fun mk =>
                         exists a,
                           node_attr G !! node_id mk = Some a
                           /\ node_potential mk = a_potential a
                           /\ (node_color mk = Network.Red
                               <-> a_spiked a = true))
                      (node_marks scene))).
Proof.
  intros HG Hns Hspring Hlin draw. subst draw.
  destruct (build_graph_spec _ _ _ HG Hns)
    as (Hedges & _ & Hnd & Hnodes & Hattr & Hweight & _).
  split.
  { intros Hunknown. unfold draw_3d_network.
    by rewrite (layout_unknown spring_layout np_linspace np_cos np_sin). }
  intros Hknown.
  destruct (layout_total spring_layout np_linspace np_cos np_sin
              layout_type G Hnd Hspring Hlin Hknown) as (pos & Hpos & Hcov & _).
  unfold draw_3d_network. rewrite Hpos. simpl.
  assert (forall n a, n ∈ nodes G -> node_attr G !! n = Some a ->
            exists mk, node_mark node_size_scale G pos n = Ok mk
                       /\ node_id mk = n /\ node_potential mk = a_potential a
                       /\ (node_color mk = Network.Red <-> a_spiked a = true))
    as Hmark.
  { intros n a Hn Ha. unfold node_mark. rewrite Ha. simpl.
    destruct (proj2 (Hcov n) Hn) as [p Hp]. rewrite Hp. simpl.
    destruct (a_spiked a); eexists; (split; [reflexivity|]); simpl;
      split; try done; split; try done; split; done. }
  assert (forall es, es = edges G ->
            exists ems, map_result (edge_mark edge_width_scale G pos) es = Ok ems
                        /\ length ems = length es) as Hems.
  { intros es ->.
    destruct (map_result_total (edge_mark edge_width_scale G pos) (edges G))
      as [ems Hems].
    { intros e He. destruct (Hweight e He) as [w Hw].
      assert (connection ns e) as Hc by (by apply Hedges).
      assert (fst e ∈ nodes G) as Hu.
      { apply Hnodes. left. destruct Hc as (n & cs & c & Hin & Hid & _).
        unfold ids. apply list_elem_of_omap. by exists n. }
      assert (snd e ∈ nodes G) as Hv by (apply Hnodes; right; by exists e).
      destruct (proj2 (Hcov _) Hu) as [pu Hpu].
      destruct (proj2 (Hcov _) Hv) as [pv Hpv].
      unfold edge_mark. rewrite Hpu, Hpv, Hw. simpl. eauto. }
    exists ems. split; [done|]. apply map_result_Forall2 in Hems.
    symmetry. by eapply Forall2_length. }
  split; [|split].
  - intros ->. assert (nodes G = []) as Hempty.
    { assert (forall m, m ∉ nodes G) as Hnone.
      { intros m Hm.
        apply Hnodes in Hm as [Hm|(e & (n & cs & c & Hn & _) & _)].
        - by apply elem_of_nil in Hm.
        - by apply elem_of_nil in Hn. }
      destruct (nodes G) as [|m l]; [done|]. exfalso. apply (Hnone m). by left. }
    assert (edges G = []) as Hnoedge by (unfold edges; by rewrite Hempty).
    by rewrite Hempty, Hnoedge.
  - intros (e & Hc & Hdangling).
    rewrite (map_result_first_error _ _ (KeyError "potential")); [done| |].
    + intros n Hn. destruct (node_attr G !! n) as [a|] eqn:Ha.
      * left. destruct (Hmark n a Hn Ha) as (mk & Hmk & _). by exists mk.
      * right. unfold node_mark. by rewrite Ha.
    + exists (snd e). split; [apply Hnodes; right; by exists e|].
      unfold node_mark. destruct (node_attr G !! snd e) as [a|] eqn:Ha; [|done].
      exfalso. apply Hdangling, Hattr. by exists a.
  - intros Hne Hclosed.
    assert (forall n, n ∈ nodes G -> is_Some (node_attr G !! n)) as Hall.
    { intros n Hn. apply Hattr. apply Hnodes in Hn as [Hn|(e & Hc & ->)];
        [done | by apply Hclosed]. }
    destruct (map_result_total (node_mark node_size_scale G pos) (nodes G))
      as [nms Hnms].
    { intros n Hn. destruct (Hall n Hn) as [a Ha].
      destruct (Hmark n a Hn Ha) as (mk & Hmk & _). by exists mk. }
    destruct (Hems (edges G) eq_refl) as (ems & Hrun & Hlen).
    rewrite Hnms. simpl. rewrite Hrun. simpl.
    apply map_result_Forall2 in Hnms.
    assert (Forall2 (fun n mk =>
                       node_id mk = n
                       /\ exists a, node_attr G !! node_id mk = Some a
                                    /\ node_potential mk = a_potential a
                                    /\ (node_color mk = Network.Red
                                        <-> a_spiked a = true))
                    (nodes G) nms) as Hdesc.
    { apply Forall2_same_length_lookup.
      split; [by eapply Forall2_length|]. intros k n mk Hn Hk.
      assert (n ∈ nodes G) as Hin by (by eapply list_elem_of_lookup_2).
      destruct (Hall n Hin) as [a Ha].
      destruct (Hmark n a Hin Ha) as (mk' & Hmk' & Hid & Hp & Hc).
      pose proof (Forall2_lookup_lr _ _ _ _ _ _ Hnms Hn Hk) as Hmk.
      simpl in Hmk. rewrite Hmk' in Hmk. injection Hmk as ->.
      split; [done|]. exists a. by rewrite Hid. }
    assert (nms <> []) as Hnonempty.
    { destruct ns as [|n0 ns']; [done|].
      destruct (build_graph_first_id _ _ _ _ HG Hns) as [i Hi].
      assert (i ∈ nodes G) as Hin.
      { apply Hnodes. left. unfold ids. apply list_elem_of_omap.
        exists n0. split; [by left | done]. }
      intros ->. apply Forall2_length in Hnms. simpl in Hnms.
      destruct (nodes G); [by apply elem_of_nil in Hin | done]. }
    assert (node_id <$> nms = nodes G) as Hids.
    { clear -Hdesc. induction Hdesc as [|n mk l k [Hid _] _ IH]; [done|].
      rewrite fmap_cons. by f_equal. }
    assert (length nms = length (nodes G)) as Hcount
      by (symmetry; by eapply Forall2_length).
    assert (Forall (fun mk =>
                      exists a, node_attr G !! node_id mk = Some a
                                /\ node_potential mk = a_potential a
                                /\ (node_color mk = Network.Red
                                    <-> a_spiked a = true)) nms) as Hstyle.
    { apply Forall_lookup. intros k mk Hk.
      destruct (Forall2_lookup_r _ _ _ _ _ Hdesc Hk) as (n & _ & _ & Hd).
      exact Hd. }
    destruct nms as [|mk0 nms']; [done|].
    eexists. split; [reflexivity|].
    split; [exact Hids|]. split; [exact Hlen|]. split; [|exact Hstyle].
    cbn [labels]. destruct show_labels; [|done].
    by rewrite length_fmap.
Qed.

End Draw3D.

Lemma flat_spring_covers G n :
  n ∈ Graph.nodes G -> is_Some (Libraries.flat_spring G !! n).
Proof.
  intros Hn. unfold Libraries.flat_spring.
  destruct (list_to_map _ !! n) as [xy|] eqn:Hxy; [by exists xy|].
  apply not_elem_of_list_to_map_2 in Hxy. exfalso. apply Hxy.
  rewrite <- list_fmap_compose. simpl.
  apply list_elem_of_fmap. by exists n.
Qed.

Lemma draw_3d_network_outcomes_witness :
  exists G,
    Network._build_graph Libraries.dangling = Ok G
    /\ Network3D.draw_3d_network
         Libraries.flat_spring Libraries.level_linspace
         Scenario.cos_at_zero Scenario.sin_at_zero
         "circular" true 100%float 2%float G
       = Raise (KeyError "potential").
Proof.
  eexists. split; [vm_compute; reflexivity|].
  match goal with
  | |- Network3D.draw_3d_network _ _ _ _ _ _ _ _ ?g = _ => set (G := g)
  end.
  assert (Network._build_graph Libraries.dangling = Ok G) as HG
    by (vm_compute; reflexivity).
  pose proof (draw_3d_network_outcomes
                Libraries.flat_spring Libraries.level_linspace
                Scenario.cos_at_zero Scenario.sin_at_zero
                "circular" true 100%float 2%float Libraries.dangling G _
                HG eq_refl (flat_spring_covers G)
                (fun a b num e => length_replicate num a)) as H.
  cbv zeta in H. destruct H as [_ H].
  destruct H as (_ & H & _).
  - right. left.
  - apply H. exists ("A", "Z"). split.
    + eexists _, _, _. split; [left|]. split; [reflexivity|].
      split; [reflexivity|]. split; [left | reflexivity].
    + vm_compute. intros Hin. apply list_elem_of_singleton in Hin. discriminate.
Defined.
(** ** A frame with a connection to nowhere *)

Section Dangling.
Import Graph Wiring Network.

(** X18. A frame with a connection to an id that none of its neurons has
    is never drawn and never counted. When the drawing library does not
    raise and the frame and the one before it supply every field, the
    tick that shows the frame moves [previous_data] and [current_data]
    on, then fails in the node loop of [draw_network] on the node that
    [add_edge] made, which has no attributes: the [except] clause prints
    [Error updating frame: 'potential'] and the activity counter is left
    as it was. *)
Theorem dangling_target_stops_the_tick renderer loop frame self i data ns e :
  (forall f, renderer f = Ok tt) ->
  step_index loop frame (length (time_steps self)) = Ok i ->
  time_steps self !! i = Some data ->
  complete_data (current_data self) = true -> complete_data data = true ->
  d_neurons data = Some ns -> connection ns e -> snd e ∉ ids ns ->
  update_frame_body renderer loop frame self
  = (set_data (Some (current_data self)) data self, Raise (KeyError "potential"))
  /\ stdout (update_frame renderer loop frame self)
     = stdout self ++ ["Error updating frame: 'potential'"]
  /\ connection_activity (update_frame renderer loop frame self)
     = connection_activity self
  /\ current_data (update_frame renderer loop frame self) = data
  /\ previous_data (update_frame renderer loop frame self)
     = Some (current_data self).
Proof.
  intros _ Hidx Hdata Hprev Hcur Hns Hconn Hdangling.
  assert (update_frame_body renderer loop frame self
          = (set_data (Some (current_data self)) data self,
             Raise (KeyError "potential"))) as Hbody.
  { unfold update_frame_body. rewrite Hidx, Hdata.
    destruct (build_graph_total data Hcur) as [G HG]. rewrite HG.
    cbn [bind]. unfold draw_network. cbn [previous_data current_data set_data].
    destruct (detect_total _ _ Hprev Hcur) as [active ->]. cbn [bind].
    destruct (build_graph_spec _ _ _ HG Hns)
      as (_ & _ & _ & Hnodes & Hattr & _).
    rewrite (map_result_first_error (node_style G) (nodes G)
               (KeyError "potential")); [done| |].
    - intros n _. unfold node_style.
      destruct (node_attr G !! n) as [a|]; [left | by right].
      simpl. destruct (a_spiked a); eauto.
    - exists (snd e). split; [apply Hnodes; right; by exists e|].
      unfold node_style. destruct (node_attr G !! snd e) as [a|] eqn:Ha; [|done].
      exfalso. apply Hdangling, Hattr. by exists a. }
  split; [exact Hbody|]. unfold update_frame. by rewrite Hbody.
Qed.

Lemma dangling_target_stops_the_tick_witness :
  stdout (update_frame Scenario.quiet_renderer true 1
                       Libraries.dangling_visualizer)
  = ["Loaded 2 time steps"; "Error updating frame: 'potential'"]
  /\ connection_activity (update_frame Scenario.quiet_renderer true 1
                                       Libraries.dangling_visualizer) = ∅.
Proof.
  destruct (dangling_target_stops_the_tick
              Scenario.quiet_renderer true 1 Libraries.dangling_visualizer
              1%nat Libraries.dangling _ ("A", "Z")
              (fun _ => eq_refl) eq_refl eq_refl eq_refl eq_refl eq_refl)
    as (_ & Hout & Hcount & _).
  - eexists _, _, _. split; [left|]. split; [reflexivity|].
    split; [reflexivity|]. split; [left | reflexivity].
  - vm_compute. intros Hin. apply list_elem_of_singleton in Hin. discriminate.
  - split; [exact Hout | exact Hcount].
Defined.

End Dangling.
(** ** The polling animation *)

Section PollingFacts.
Import Graph Wiring Network Recording.

Lemma polling_tick_keeps w renderer json_file self :
  connection_activity (Polling.update_frame w renderer json_file self)
  = connection_activity self
  /\ time_steps (Polling.update_frame w renderer json_file self)
     = time_steps self.
Proof.
  unfold Polling.update_frame, Polling.update_frame_body.
  destruct (Loader.json_load w json_file) as [new_data|e]; [|done].
  by destruct (bind _ _) as [[]|e].
Qed.

(** X19. The polling animation never counts. Over any number of ticks,
    whatever the file holds at each of them, [connection_activity] and
    [time_steps] stay as they were. A tick whose file cannot be read
    prints [Error updating frame: ...] and changes nothing else; a tick
    that reads the file moves [previous_data] and [current_data] on, also
    when the graph or the drawing then fails. When the file still holds
    the current snapshot, which supplies every field, has unique ids and
    no connection to an unknown id, the tick hands the drawing library a
    frame with no active edge and every edge of the graph inactive. *)
Theorem polling_never_counts renderer json_file :
  (forall ws self,
     connection_activity (Polling.play renderer json_file ws self)
     = connection_activity self
     /\ time_steps (Polling.play renderer json_file ws self) = time_steps self)
  /\ (forall w self e,
        Loader.json_load w json_file = Raise e ->
        Polling.update_frame w renderer json_file self
        = print ("Error updating frame: " +:+ str_exn e) self)
  /\ (forall w self new_data,
        Loader.json_load w json_file = Ok new_data ->
        current_data (Polling.update_frame w renderer json_file self) = new_data
        /\ previous_data (Polling.update_frame w renderer json_file self)
           = Some (current_data self))
  /\ (forall w self,
        Loader.json_load w json_file = Ok (current_data self) ->
        complete_data (current_data self) = true ->
        unique_ids (current_data self) ->
        closed (current_data self) = true ->
        exists G fr,
          _build_graph (current_data self) = Ok G
          /\ Polling.update_frame_body w renderer json_file self
             = (set_data (Some (current_data self)) (current_data self) self,
                renderer fr)
          /\ active_edges fr = [] /\ inactive_edges fr = edges G
          /\ length (node_colors fr) = length (nodes G)
          /\ step_info fr = None).
Proof.
  split; [|split; [|split]].
  - intros ws. induction ws as [|w ws IH]; intros self; [done|]. simpl.
    destruct (IH (Polling.update_frame w renderer json_file self)) as [-> ->].
    apply polling_tick_keeps.
  - intros w self e Hload. unfold Polling.update_frame, Polling.update_frame_body.
    by rewrite Hload.
  - intros w self new_data Hload.
    unfold Polling.update_frame, Polling.update_frame_body. rewrite Hload.
    by destruct (bind _ _) as [[]|e].
  - intros w self Hload Hc Hu Hcl.
    destruct (build_graph_total _ Hc) as [G HG].
    destruct (complete_data_inv _ Hc) as (ns & Hns & Hcn).
    destruct (build_graph_spec _ _ _ HG Hns)
      as (Hedges & _ & _ & Hnodes & Hattr & Hweight & _).
    assert (neurons_of (current_data self) = ns) as Hnof
      by (unfold neurons_of; by rewrite Hns).
    destruct (map_result_total (node_style G) (nodes G)) as [styles Hstyles].
    { intros m Hm. apply Hnodes in Hm.
      assert (m ∈ ids ns) as Hid.
      { destruct Hm as [?|(e & He & ->)]; [done|].
        rewrite <- Hnof. apply closed_spec; [done | by rewrite Hnof]. }
      apply Hattr in Hid as [a Ha]. unfold node_style. rewrite Ha. simpl.
      destruct (a_spiked a); eauto. }
    destruct (map_result_total (fun e => w0 <- weight G e ;; Ok (w0 * 2)%float)
                               (edges G)) as [wi Hwi].
    { intros e He. destruct (Hweight e He) as [w0 ->]. simpl. eauto. }
    exists G. eexists. split; [done|]. split.
    { unfold Polling.update_frame_body. rewrite Hload, HG. cbn [bind].
      unfold draw_network. cbn [previous_data current_data set_data].
      rewrite (detect_self _ Hc Hu). cbn [bind]. rewrite Hstyles. cbn [bind].
      match goal with
      | |- context [@filter ?A ?L ?F ?P ?D (edges G)] =>
          assert (@filter A L F P D (edges G) = edges G) as Hall
      end.
      { clear. induction (edges G) as [|e l IH]; [done|].
        rewrite filter_cons_True by set_solver. by rewrite IH. }
      rewrite Hall, Hwi. cbn [bind]. rewrite elements_empty. cbn [map_result bind].
      reflexivity. }
    cbn. split; [done|]. split; [done|]. split; [|done].
    rewrite length_fmap. apply map_result_Forall2 in Hstyles.
    symmetry. by eapply Forall2_length.
Qed.

Lemma polling_never_counts_witness :
  exists G fr,
    Network._build_graph Scenario.ab_prev = Ok G
    /\ Polling.update_frame_body Scenario.three_steps Scenario.quiet_renderer
         "./net_step0.json" Scenario.ab_visualizer
       = (set_data (Some Scenario.ab_prev) Scenario.ab_prev
                   Scenario.ab_visualizer,
          Scenario.quiet_renderer fr)
    /\ active_edges fr = [] /\ inactive_edges fr = edges G.
Proof.
  destruct (proj2 (proj2 (proj2 (polling_never_counts
                                   Scenario.quiet_renderer "./net_step0.json")))
              Scenario.three_steps Scenario.ab_visualizer
              ltac:(vm_compute; reflexivity) eq_refl
              ltac:(unfold unique_ids; apply (bool_decide_unpack _);
                    vm_compute; exact I)
              eq_refl)
    as (G & fr & HG & Hbody & Ha & Hi & _).
  exists G, fr. split; [exact HG|]. split; [exact Hbody|].
  split; [exact Ha | exact Hi].
Defined.

End PollingFacts.
(** ** The connection statistics *)

Section StatisticsFacts.
Import Network Statistics.

Lemma count_ge_spec a b : count_ge a b = true <-> snd b <= snd a.
Proof. unfold count_ge. apply Z.leb_le. Qed.

Lemma sorted_by_count (l : list (Edge * Z)) :
  StronglySorted (fun a b => snd b <= snd a) (sort_by count_ge l).
Proof.
  eapply StronglySorted_weaken; [|apply (sort_by_sorted count_ge)].
  - intros a b. apply count_ge_spec.
  - intros x y. rewrite !count_ge_spec. lia.
  - intros x y z. rewrite !count_ge_spec. lia.
Qed.

Lemma StronglySorted_app_order {A} (R : A -> A -> Prop) l1 l2 x y :
  StronglySorted R (l1 ++ l2) -> x ∈ l1 -> y ∈ l2 -> R x y.
Proof.
  induction l1 as [|z l1 IH]; intros Hs Hx Hy; [by apply elem_of_nil in Hx|].
  simpl in Hs. apply StronglySorted_inv in Hs as [Hs Hall].
  apply elem_of_cons in Hx as [->|Hx]; [|by apply IH].
  rewrite Forall_forall in Hall. apply Hall. apply elem_of_app. by right.
Qed.

Lemma prints_fold {A} (f : A -> string) l self :
  foldl (fun s item => print (f item) s) self l
  = {| current_data := current_data self;
       previous_data := previous_data self;
       time_steps := time_steps self;
       connection_activity := connection_activity self;
       stdout := stdout self ++ (f <$> l) |}.
Proof.
  revert self. induction l as [|x l IH]; intros self; simpl.
  - destruct self. simpl. by rewrite app_nil_r.
  - rewrite IH. simpl. by rewrite <- app_assoc.
Qed.

Lemma total_from (l : list (Edge * Z)) a :
  foldl (fun acc item => acc + snd item) a l = a + total l.
Proof.
  unfold total. revert a. induction l as [|x l IH]; intros a; simpl; [lia|].
  rewrite IH, (IH (0 + snd x)). lia.
Qed.

Lemma total_cons x (l : list (Edge * Z)) : total (x :: l) = snd x + total l.
Proof. unfold total at 1. simpl. rewrite total_from. lia. Qed.

Lemma total_perm (l l' : list (Edge * Z)) : l ≡ₚ l' -> total l = total l'.
Proof.
  induction 1 as [|x l l' _ IH|x y l|l l' l'' _ IH1 _ IH2].
  - done.
  - by rewrite !total_cons, IH.
  - rewrite !total_cons. lia.
  - congruence.
Qed.

(** X20. What [show_connection_statistics] prints, for the items of the
    counter in any order. The call changes nothing but the output. With
    an empty counter it prints the one line [No connection activity data
    available.]. Otherwise it prints the heading, the number of loaded
    time steps, at most ten connections, the number of connections in the
    counter and the sum of the counts. The connections listed are counted
    connections, each once, ten of them or all when there are fewer, in
    descending order of their count; and no connection left out has a
    higher count than a listed one. *)
Theorem statistics_list_the_busiest items self :
  items ≡ₚ map_to_list (connection_activity self) ->
  (connection_activity self = ∅ ->
   show_connection_statistics items self
   = print "No connection activity data available." self)
  /\ (connection_activity self <> ∅ ->
      exists top,
        show_connection_statistics items self
        = {| current_data := current_data self;
             previous_data := previous_data self;
             time_steps := time_steps self;
             connection_activity := connection_activity self;
             stdout :=
               stdout self
               ++ [nl +:+ "=== Connection Activity Statistics ===";
                   nl +:+ "Most Active Connections (used "
                   +:+ pretty (length (time_steps self)) +:+ " time steps):"]
               ++ (activation_line <$> top)
               ++ [nl +:+ "Total unique connections used: "
                   +:+ pretty (size (connection_activity self));
                   "Total activations: "
                   +:+ pretty (total (map_to_list (connection_activity self)))]
          |}
        /\ length top = Nat.min 10 (size (connection_activity self))
        /\ NoDup top
        /\ (forall e n, (e, n) ∈ top -> connection_activity self !! e = Some n)
        /\ StronglySorted (fun a b => snd b <= snd a) top
        /\ (forall e n x,
              connection_activity self !! e = Some n -> (e, n) ∉ top ->
              x ∈ top -> n <= snd x)).
Proof.
  intros Hitems. split.
  - intros Hempty. rewrite Hempty, map_to_list_empty in Hitems.
    apply Permutation_nil_r in Hitems. by subst items.
  - intros Hnonempty.
    assert (Hsorted : sort_by count_ge items ≡ₚ items)
      by apply (sort_by_perm count_ge).
    assert (Hlen : length items = size (connection_activity self))
      by (by rewrite Hitems, length_map_to_list).
    exists (take 10 (sort_by count_ge items)).
    assert (Hin : forall x, x ∈ take 10 (sort_by count_ge items) -> x ∈ items).
    { intros x Hx. rewrite <- Hsorted.
      rewrite <- (take_drop 10 (sort_by count_ge items)).
      apply elem_of_app. by left. }
    split; [|split; [|split; [|split; [|split]]]].
    + unfold show_connection_statistics.
      destruct items as [|it items'] eqn:Hit.
      { exfalso. apply Hnonempty, map_to_list_empty_iff.
        symmetry. by apply Permutation_nil_l. }
      rewrite <- Hit in *. rewrite prints_fold. cbn [print stdout time_steps
        current_data previous_data connection_activity].
      rewrite Hlen, (total_perm _ _ Hitems). unfold print.
      cbn [stdout time_steps current_data previous_data connection_activity].
      f_equal. rewrite <- !app_assoc. reflexivity.
    + rewrite length_take, (Permutation_length Hsorted), Hlen. done.
    + assert (NoDup (sort_by count_ge items)) as Hnd
        by (rewrite Hsorted, Hitems; apply NoDup_map_to_list).
      rewrite <- (take_drop 10 (sort_by count_ge items)) in Hnd.
      by apply NoDup_app in Hnd as [Hnd _].
    + intros e n Hx. apply Hin in Hx. rewrite Hitems in Hx.
      by apply elem_of_map_to_list.
    + apply StronglySorted_take, sorted_by_count.
    + intros e n x He Hout Hx.
      assert ((e, n) ∈ drop 10 (sort_by count_ge items)) as Hdrop.
      { assert ((e, n) ∈ sort_by count_ge items) as Hs.
        { rewrite Hsorted, Hitems. by apply elem_of_map_to_list. }
        rewrite <- (take_drop 10 (sort_by count_ge items)) in Hs.
        apply elem_of_app in Hs as [Hs|Hs]; [done | exact Hs]. }
      apply (StronglySorted_app_order (fun a b => snd b <= snd a)
               (take 10 (sort_by count_ge items))
               (drop 10 (sort_by count_ge items)) x (e, n)); [|done|done].
      rewrite take_drop. apply sorted_by_count.
Qed.

(** What is printed for a counter with three connections. *)
Example counted_statistics :
  stdout (show_connection_statistics
            [(("A", "B"), 2); (("B", "C"), 5); (("C", "A"), 1)]
            Mishaps.counted)
  = [nl +:+ "=== Connection Activity Statistics ===";
     nl +:+ "Most Active Connections (used 2 time steps):";
     "  B -> C: 5 activations";
     "  A -> B: 2 activations";
     "  C -> A: 1 activations";
     nl +:+ "Total unique connections used: 3";
     "Total activations: 8"].
Proof. vm_compute. reflexivity. Qed.

(** The same counter through the general statement: its three
    connections are listed, in descending order of their counts. *)
Lemma statistics_list_the_busiest_witness :
  exists top,
    show_connection_statistics
      (map_to_list (connection_activity Mishaps.counted)) Mishaps.counted
    = {| current_data := current_data Mishaps.counted;
         previous_data := previous_data Mishaps.counted;
         time_steps := time_steps Mishaps.counted;
         connection_activity := connection_activity Mishaps.counted;
         stdout :=
           stdout Mishaps.counted
           ++ [nl +:+ "=== Connection Activity Statistics ===";
               nl +:+ "Most Active Connections (used "
               +:+ pretty (length (time_steps Mishaps.counted))
               +:+ " time steps):"]
           ++ (activation_line <$> top)
           ++ [nl +:+ "Total unique connections used: "
               +:+ pretty (size (connection_activity Mishaps.counted));
               "Total activations: "
               +:+ pretty (total (map_to_list
                                    (connection_activity Mishaps.counted)))]
      |}
    /\ length top = 3%nat
    /\ NoDup top
    /\ (forall e n, (e, n) ∈ top ->
                    connection_activity Mishaps.counted !! e = Some n)
    /\ StronglySorted (fun a b => snd b <= snd a) top.
Proof.
  destruct (proj2 (statistics_list_the_busiest
                     (map_to_list (connection_activity Mishaps.counted))
                     Mishaps.counted (reflexivity _)))
    as (top & Hshow & Hlen & Hnd & Hin & Hsorted & _).
  - intros Hempty.
    apply (f_equal (fun m : gmap Edge Z => m !! ("A", "B"))) in Hempty.
    vm_compute in Hempty. discriminate.
  - exists top. split; [exact Hshow|]. split; [|split; [exact Hnd|split]].
    + rewrite Hlen. vm_compute. reflexivity.
    + exact Hin.
    + exact Hsorted.
Defined.

(** *** The total grows by the number of active edges *)

Lemma bump_as_insert (e : Edge) (d : gmap Edge Z) :
  bump e d = <[e := default 0 (d !! e) + 1]> d.
Proof.
  apply map_eq. intros e'. rewrite bump_lookup.
  destruct (decide (e = e')) as [<-|Hne].
  - by rewrite lookup_insert_eq.
  - by rewrite lookup_insert_ne.
Qed.

Lemma total_insert (e : Edge) (v : Z) (d : gmap Edge Z) :
  total (map_to_list (<[e := v]> d))
  = v + total (map_to_list d) - default 0 (d !! e).
Proof.
  destruct (d !! e) as [v0|] eqn:He; simpl.
  - rewrite <- (insert_delete_eq d).
    rewrite (total_perm _ _ (map_to_list_insert _ _ _ (lookup_delete_eq d e))).
    rewrite <- (total_perm _ _ (map_to_list_delete _ _ _ He)).
    rewrite !total_cons. simpl. lia.
  - rewrite (total_perm _ _ (map_to_list_insert _ _ _ He)).
    rewrite total_cons. simpl. lia.
Qed.

Lemma total_bump (e : Edge) (d : gmap Edge Z) :
  total (map_to_list (bump e d)) = total (map_to_list d) + 1.
Proof. rewrite bump_as_insert, total_insert. lia. Qed.

Lemma total_record (active : gset Edge) (d : gmap Edge Z) :
  total (map_to_list (record_activity active d))
  = total (map_to_list d) + Z.of_nat (size active).
Proof.
  unfold record_activity.
  set (P := fun (r : gmap Edge Z) (X : gset Edge) =>
              total (map_to_list r) = total (map_to_list d) + Z.of_nat (size X)).
  assert (P (set_fold bump d active) active) as HP; [|exact HP].
  apply (set_fold_ind_L P).
  - unfold P. rewrite size_empty. lia.
  - intros x X r Hx HPr. unfold P in *.
    rewrite total_bump, HPr, size_union by set_solver.
    rewrite size_singleton. lia.
Qed.

(** X21. The sum that [show_connection_statistics] prints as [Total
    activations] counts the active edges of the completed ticks: a tick
    whose [try] block runs to its end adds the number of edges of the
    frame's active set to the sum of the counts and makes the counted
    connections those counted before together with the active ones; a
    tick whose exception is swallowed leaves the sum as it was. *)
Theorem total_counts_active_edges renderer loop frame self :
  (forall self',
     update_frame_body renderer loop frame self = (self', Ok tt) ->
     exists active,
       Detector._detect_active_connections (previous_data self')
                                           (current_data self') = Ok active
       /\ total (map_to_list (connection_activity self'))
          = total (map_to_list (connection_activity self))
            + Z.of_nat (size active)
       /\ dom (connection_activity self')
          = dom (connection_activity self) ∪ active)
  /\ (forall self' e,
        update_frame_body renderer loop frame self = (self', Raise e) ->
        total (map_to_list (connection_activity self'))
        = total (map_to_list (connection_activity self))).
Proof.
  split.
  - intros self' Hbody.
    destruct (update_frame_body_ok _ _ _ _ _ Hbody) as (active & Hd & Hc & _).
    exists active. split; [done|]. rewrite Hc. split; [apply total_record|].
    apply set_eq. intros e. rewrite elem_of_union, !elem_of_dom.
    rewrite record_activity_lookup.
    destruct (decide (e ∈ active)) as [He|He].
    + split; [by right | by eexists].
    + split; [by left | by intros [?|?]].
  - intros self' e Hbody.
    by rewrite (update_frame_body_raise _ _ _ _ _ _ Hbody).
Qed.

Lemma total_counts_active_edges_witness :
  exists self' (active : gset Edge),
    update_frame_body Scenario.quiet_renderer true 1 Scenario.ab_visualizer
    = (self', Ok tt)
    /\ total (map_to_list (connection_activity self'))
       = total (map_to_list (connection_activity Scenario.ab_visualizer))
         + Z.of_nat (size active).
Proof.
  assert (update_frame_body Scenario.quiet_renderer true 1
                            Scenario.ab_visualizer
          = (fst (update_frame_body Scenario.quiet_renderer true 1
                                    Scenario.ab_visualizer), Ok tt)) as Hbody
    by (vm_compute; reflexivity).
  destruct (proj1 (total_counts_active_edges Scenario.quiet_renderer true 1
                     Scenario.ab_visualizer) _ Hbody)
    as (active & _ & Htotal & _).
  eexists _, active. split; [exact Hbody | exact Htotal].
Defined.

End StatisticsFacts.
(** ** What the loader keeps and what the constructor needs *)

Section FirstFrameFacts.
Import Graph Wiring Loader FirstFrame.











(** What the constructor raises on the first frame without
    [connections], and what is drawn for the frame with the missing
    entries. *)
Example unwired_first_frame :
  Spike3D.__init__ Mishaps.unwired_steps Scenario.cos_at_zero
                   Scenario.sin_at_zero "net_step0.json"
  = Raise (KeyError "connections").
Proof. vm_compute. reflexivity. Qed.

End FirstFrameFacts.
(** ** Ids that the first snapshot does not have: what a tick does *)

Section UnknownIdsClaim.
Import Detector Graph Wiring Network Recording.






End UnknownIdsClaim.
